(** * nest-services: the voice relay gateway and its cache tier

    A shallow embedding of the NestJS relay (VoiceGateway, PythonSocket,
    PollyService and the five Redis-backed cache classes) together with the
    properties the specification states about them.

    Conventions.
    - JavaScript values that cross a JSON boundary are modelled by [json];
      a value that may be [undefined] is an [option json].
    - Asynchronous methods are modelled in the monad [M]: a world transformer
      that either returns or throws.  In [Relay] each handler runs to
      completion before the next event is taken; [Interleaved] splits at its
      awaits the one handler that writes the routing state after an await.
    - Redis, the clock, [process.env] and the libraries the relay calls
      (the Polly engine, [xxhashjs], base64) are part of the [World]. *)

From Stdlib Require Import ZArith List String Ascii Bool Lia.
From Stdlib Require Import DecimalString DecimalZ Decimal.
From Stdlib Require HexadecimalString DecimalNat.
From stdpp Require Import gmap strings list fin_maps.

Import ListNotations.
Local Open Scope string_scope.
Local Open Scope list_scope.
Local Open Scope Z_scope.

(* ===================================================================== *)
(** * JSON values and the JavaScript operations used on them *)
(* ===================================================================== *)

Module Json.

#[local] Unset Elimination Schemes.

Inductive json : Type :=
| JNull
| JBool (b : bool)
| JNum (z : Z)
| JStr (s : string)
| JArr (l : list json)
| JObj (fields : list (string * json)).

#[local] Set Elimination Schemes.

(** JavaScript truthiness ([if (x)], [x || y], [!x]). *)
Definition truthy (v : json) : bool :=
  match v with
  | JNull => false
  | JBool b => b
  | JNum z => negb (z =? 0)
  | JStr s => negb (String.eqb s "")
  | JArr _ | JObj _ => true
  end.

(** Truthiness of a possibly undefined value. *)
Definition truthy_opt (v : option json) : bool :=
  match v with Some x => truthy x | None => false end.

(** [a || b] on possibly undefined values. *)
Definition js_or (a b : option json) : option json :=
  if truthy_opt a then a else b.

(** [s || d] for a string that may be undefined ([process.env.X || 'd']). *)
Definition str_or (s : option string) (d : string) : string :=
  match s with
  | Some x => if String.eqb x "" then d else x
  | None => d
  end.

Fixpoint assoc (k : string) (l : list (string * json)) : option json :=
  match l with
  | [] => None
  | (k', v) :: r => if String.eqb k k' then Some v else assoc k r
  end.

(** Property read [v.k]: [undefined] on anything that has no such own
    property (primitives included; [null.k] is handled where it can occur). *)
Definition get_field (k : string) (v : json) : option json :=
  match v with
  | JObj l => assoc k l
  | _ => None
  end.

Fixpoint put (k : string) (v : json) (l : list (string * json)) : list (string * json) :=
  match l with
  | [] => [(k, v)]
  | (k', v') :: r => if String.eqb k k' then (k, v) :: r else (k', v') :: put k v r
  end.

Fixpoint remove (k : string) (l : list (string * json)) : list (string * json) :=
  match l with
  | [] => []
  | (k', v') :: r => if String.eqb k k' then remove k r else (k', v') :: remove k r
  end.

(** The property name of the element at index [i]: its decimal numeral. *)
Definition index_key (i : nat) : string := NilZero.string_of_uint (Nat.to_uint i).

(** The elements of an array or the characters of a string, as the
    properties ["0"], ["1"], ... that they are. *)
Fixpoint indexed (i : nat) (l : list json) : list (string * json) :=
  match l with
  | [] => []
  | x :: r => (index_key i, x) :: indexed (S i) r
  end.

(** The characters of a string, each a string of its own; a string of the
    model is ASCII text, one character per code unit. *)
Definition characters (s : string) : list json :=
  map (fun c => JStr (String c EmptyString)) (list_ascii_of_string s).

(** The own enumerable properties copied by an object spread [{...v}] and
    by a rest pattern [{k: x, ...rest} = v]: the fields of an object, the
    indexed elements of an array, the indexed characters of a string, and
    nothing for a number, a boolean or (in a spread) [null]. *)
Definition spread (v : json) : list (string * json) :=
  match v with
  | JObj l => l
  | JArr l => indexed 0 l
  | JStr s => indexed 0 (characters s)
  | _ => []
  end.

(** An object literal [{...base, k1: e1, ..., kn: en}].  A later property
    replaces an earlier one of the same name; a property whose value is
    [undefined] is not transmitted and is left out. *)
Definition obj_build (base : list (string * json)) (l : list (string * option json))
  : list (string * json) :=
  fold_left (fun acc kv =>
               match snd kv with
               | Some v => put (fst kv) v acc
               | None => remove (fst kv) acc
               end) l base.

Definition obj (l : list (string * option json)) : json := JObj (obj_build [] l).

End Json.

(* ===================================================================== *)
(** * JSON.stringify and JSON.parse *)
(* ===================================================================== *)

(** The two built-ins.  [JSON_stringify] prints as the built-in does.
    [JSON_parse] accepts the JSON texts without insignificant white space,
    fraction or exponent, and without [\u] escapes above the ASCII range;
    every text it accepts is one [JSON.parse] accepts.  Strings are
    sequences of bytes, ASCII text being what the relay's own values hold. *)

Module JsonCodec.
Import Json.

Definition chars (s : string) : list ascii := list_ascii_of_string s.

Definition is_digit (c : ascii) : bool :=
  let n := nat_of_ascii c in (48 <=? n)%nat && (n <=? 57)%nat.

Definition quote : ascii := "034"%char.
Definition backslash : ascii := "\"%char.
Definition comma : ascii := ","%char.
Definition colon : ascii := ":"%char.
Definition minus : ascii := "-"%char.

(** ** Printing *)

(** A lower-case hexadecimal digit. *)
Definition hex_digit (n : nat) : ascii :=
  ascii_of_nat (if (n <? 10)%nat then 48 + n else 87 + n).

(** QuoteJSONString: the quote, the backslash and the control characters
    are escaped, the five usual ones by their short form. *)
Definition escape_char (c : ascii) : list ascii :=
  let n := nat_of_ascii c in
  if Ascii.eqb c quote then [backslash; quote]
  else if Ascii.eqb c backslash then [backslash; backslash]
  else if (n =? 8)%nat then [backslash; "b"%char]
  else if (n =? 9)%nat then [backslash; "t"%char]
  else if (n =? 10)%nat then [backslash; "n"%char]
  else if (n =? 12)%nat then [backslash; "f"%char]
  else if (n =? 13)%nat then [backslash; "r"%char]
  else if (n <? 32)%nat
       then [backslash; "u"%char; "0"%char; "0"%char;
             hex_digit (n / 16); hex_digit (n mod 16)]
  else [c].

Fixpoint escape (s : list ascii) : list ascii :=
  match s with
  | [] => []
  | c :: r => escape_char c ++ escape r
  end.

Definition print_string (s : string) : list ascii :=
  quote :: escape (chars s) ++ [quote].

Section PrintSeq.
Context {A : Type} (pr : A -> list ascii) (close : ascii).

Fixpoint print_tail (r : list A) : list ascii :=
    match r with
    | [] => [close]
    | y :: r' => comma :: pr y ++ print_tail r'
    end.

Definition print_seq (l : list A) : list ascii :=
    match l with
    | [] => [close]
    | x :: r => pr x ++ print_tail r
    end.
End PrintSeq.

Definition print_number (z : Z) : list ascii :=
  chars (NilZero.string_of_int (Z.to_int z)).

Fixpoint print (v : json) : list ascii :=
  match v with
  | JNull => chars "null"
  | JBool true => chars "true"
  | JBool false => chars "false"
  | JNum z => print_number z
  | JStr s => print_string s
  | JArr l => "["%char :: print_seq print "]"%char l
  | JObj l =>
    "{"%char ::
    print_seq (fun kv => print_string (fst kv) ++ colon :: print (snd kv)) "}"%char l
  end.

Definition JSON_stringify (v : json) : string := string_of_list_ascii (print v).

(** ** Parsing *)

(** Where the scan of a string literal stands: in plain text, right after a
    backslash, or inside a [\u] escape with [more] digits to come after the next. *)
Inductive Scan :=
| Plain
| Escaped
| Hex (more : nat) (acc : nat).

Definition hex_value (c : ascii) : option nat :=
  let n := nat_of_ascii c in
  if (48 <=? n)%nat && (n <=? 57)%nat then Some (n - 48)%nat
  else if (97 <=? n)%nat && (n <=? 102)%nat then Some (n - 87)%nat
  else if (65 <=? n)%nat && (n <=? 70)%nat then Some (n - 55)%nat
  else None.

(** The character a one-letter escape stands for. *)
Definition simple_escape (c : ascii) : option ascii :=
  if Ascii.eqb c quote then Some quote
  else if Ascii.eqb c backslash then Some backslash
  else if Ascii.eqb c "/"%char then Some "/"%char
  else if Ascii.eqb c "b"%char then Some (ascii_of_nat 8)
  else if Ascii.eqb c "f"%char then Some (ascii_of_nat 12)
  else if Ascii.eqb c "n"%char then Some (ascii_of_nat 10)
  else if Ascii.eqb c "r"%char then Some (ascii_of_nat 13)
  else if Ascii.eqb c "t"%char then Some (ascii_of_nat 9)
  else None.

Definition cons_char (c : ascii) (p : option (list ascii * list ascii))
  : option (list ascii * list ascii) :=
  match p with
  | Some (cs, rest) => Some (c :: cs, rest)
  | None => None
  end.

(** The characters of a string literal up to its closing quote.  A raw
    control character, an unknown escape and a malformed [\u] escape are
    syntax errors. *)
Fixpoint parse_chars (st : Scan) (s : list ascii) : option (list ascii * list ascii) :=
  match s with
  | [] => None
  | c :: r =>
    match st with
    | Plain =>
      if Ascii.eqb c quote then Some ([], r)
      else if Ascii.eqb c backslash then parse_chars Escaped r
      else if (nat_of_ascii c <? 32)%nat then None
      else cons_char c (parse_chars Plain r)
    | Escaped =>
      if Ascii.eqb c "u"%char then parse_chars (Hex 3 0) r
      else
        match simple_escape c with
        | Some x => cons_char x (parse_chars Plain r)
        | None => None
        end
    | Hex more acc =>
      match hex_value c with
      | Some h =>
        match more with
        | O =>
          if (16 * acc + h <? 128)%nat
          then cons_char (ascii_of_nat (16 * acc + h)) (parse_chars Plain r)
          else None
        | S more' => parse_chars (Hex more' (16 * acc + h)) r
        end
      | None => None
      end
    end
  end.

Definition parse_string (s : list ascii) : option (string * list ascii) :=
  match s with
  | c :: r =>
    if Ascii.eqb c quote then
      match parse_chars Plain r with
      | Some (cs, rest) => Some (string_of_list_ascii cs, rest)
      | None => None
      end
    else None
  | [] => None
  end.

Fixpoint span_digits (s : list ascii) : list ascii * list ascii :=
  match s with
  | c :: r =>
    if is_digit c then let (d, rest) := span_digits r in (c :: d, rest)
    else ([], s)
  | [] => ([], [])
  end.

(** A numeral of more than one digit does not start with a zero. *)
Definition no_leading_zero (d : list ascii) : bool :=
  match d with
  | c :: r => negb (Ascii.eqb c "0"%char) || match r with [] => true | _ => false end
  | [] => true
  end.

Definition parse_number (s : list ascii) : option (Z * list ascii) :=
  match s with
  | c :: r =>
    let (d, rest) := span_digits (if Ascii.eqb c minus then r else s) in
    let sign := if Ascii.eqb c minus then [minus] else [] in
    if no_leading_zero d then
      match NilZero.int_of_string (string_of_list_ascii (sign ++ d)) with
      | Some i => Some (Z.of_int i, rest)
      | None => None
      end
    else None
  | [] => None
  end.

Fixpoint strip_prefix (p s : list ascii) : option (list ascii) :=
  match p, s with
  | [], _ => Some s
  | a :: p', b :: s' => if Ascii.eqb a b then strip_prefix p' s' else None
  | _ :: _, [] => None
  end.

Section ParseSeq.
Context {A : Type} (pe : list ascii -> option (A * list ascii)) (close : ascii).

Fixpoint parse_tail (n : nat) (s : list ascii) : option (list A * list ascii) :=
    match n with
    | O => None
    | S n' =>
      match s with
      | c :: r =>
        if Ascii.eqb c close then Some ([], r)
        else if Ascii.eqb c comma then
          match pe r with
          | Some (y, r1) =>
            match parse_tail n' r1 with
            | Some (ys, r2) => Some (y :: ys, r2)
            | None => None
            end
          | None => None
          end
        else None
      | [] => None
      end
    end.

Definition parse_seq (n : nat) (s : list ascii) : option (list A * list ascii) :=
    match s with
    | c :: r =>
      if Ascii.eqb c close then Some ([], r)
      else
        match pe s with
        | Some (x, r1) =>
          match parse_tail n r1 with
          | Some (xs, r2) => Some (x :: xs, r2)
          | None => None
          end
        | None => None
        end
    | [] => None
    end.
End ParseSeq.

Definition parse_member (pv : list ascii -> option (json * list ascii))
           (s : list ascii) : option ((string * json) * list ascii) :=
  match parse_string s with
  | Some (k, c :: r) =>
    if Ascii.eqb c colon then
      match pv r with
      | Some (v, r') => Some ((k, v), r')
      | None => None
      end
    else None
  | _ => None
  end.

Fixpoint parse_value (fuel : nat) (s : list ascii) : option (json * list ascii) :=
  match fuel with
  | O => None
  | S f =>
    match s with
    | [] => None
    | c :: r =>
      if is_digit c || Ascii.eqb c minus then
        match parse_number s with
        | Some (z, rest) => Some (JNum z, rest)
        | None => None
        end
      else if Ascii.eqb c quote then
        match parse_string s with
        | Some (str, rest) => Some (JStr str, rest)
        | None => None
        end
      else if Ascii.eqb c "["%char then
        match parse_seq (parse_value f) "]"%char f r with
        | Some (l, rest) => Some (JArr l, rest)
        | None => None
        end
      else if Ascii.eqb c "{"%char then
        match parse_seq (parse_member (parse_value f)) "}"%char f r with
        | Some (l, rest) => Some (JObj l, rest)
        | None => None
        end
      else if Ascii.eqb c "n"%char then
        match strip_prefix (chars "ull") r with
        | Some rest => Some (JNull, rest)
        | None => None
        end
      else if Ascii.eqb c "t"%char then
        match strip_prefix (chars "rue") r with
        | Some rest => Some (JBool true, rest)
        | None => None
        end
      else if Ascii.eqb c "f"%char then
        match strip_prefix (chars "alse") r with
        | Some rest => Some (JBool false, rest)
        | None => None
        end
      else None
    end
  end.

(** [JSON.parse]: [None] stands for the [SyntaxError] it throws. *)
Definition JSON_parse (s : string) : option json :=
  match parse_value (S (String.length s)) (chars s) with
  | Some (v, []) => Some v
  | _ => None
  end.

End JsonCodec.
Import Json JsonCodec.

(** Induction over [json] that reaches the elements of arrays and objects. *)
Fixpoint json_ind' (P : json -> Prop)
         (Hnull : P JNull) (Hbool : forall b, P (JBool b))
         (Hnum : forall z, P (JNum z)) (Hstr : forall s, P (JStr s))
         (Harr : forall l, Forall P l -> P (JArr l))
         (Hobj : forall l, Forall (fun kv => P (snd kv)) l -> P (JObj l))
         (v : json) : P v :=
  match v with
  | JNull => Hnull
  | JBool b => Hbool b
  | JNum z => Hnum z
  | JStr s => Hstr s
  | JArr l =>
    Harr l ((fix go (l : list json) : Forall P l :=
               match l with
               | [] => @List.Forall_nil _ P
               | x :: r =>
                 @List.Forall_cons _ P x r
                   (json_ind' P Hnull Hbool Hnum Hstr Harr Hobj x) (go r)
               end) l)
  | JObj l =>
    Hobj l ((fix go (l : list (string * json)) : Forall (fun kv => P (snd kv)) l :=
               match l with
               | [] => @List.Forall_nil _ _
               | kv :: r =>
                 @List.Forall_cons _ (fun kv => P (snd kv)) kv r
                   (json_ind' P Hnull Hbool Hnum Hstr Harr Hobj (snd kv)) (go r)
               end) l)
  end.

(** Number of nodes of a value: the fuel its parse needs. *)
Fixpoint size (v : json) : nat :=
  match v with
  | JArr l => S (list_sum (map size l))
  | JObj l => S (list_sum (map (fun kv => size (snd kv)) l))
  | _ => 1%nat
  end.

(** What may follow a printed value: anything but a digit. *)
Definition follow_ok (rest : list ascii) : bool :=
  match rest with
  | [] => true
  | c :: _ => negb (is_digit c)
  end.

(** String conversion as done by a template literal [`${v}`]. *)
Fixpoint js_string_of (v : json) : string :=
  match v with
  | JNull => "null"
  | JBool true => "true"
  | JBool false => "false"
  | JNum z => NilZero.string_of_int (Z.to_int z)
  | JStr s => s
  | JArr l =>
    (fix join (l : list json) : string :=
       match l with
       | [] => EmptyString
       | [x] => match x with JNull => EmptyString | _ => js_string_of x end
       | x :: r =>
         String.append (match x with JNull => EmptyString | _ => js_string_of x end)
                       (String.append "," (join r))
       end) l
  | JObj _ => "[object Object]"
  end.

(* ===================================================================== *)
(** * The world the relay runs in, and the monad of its methods *)
(* ===================================================================== *)

(** A thrown JavaScript error: constructor name and [message]. *)
Record js_error := JsError { err_name : string; message : string }.

Inductive result (A : Type) : Type :=
| Ok (a : A)
| Throw (e : js_error).
Arguments Ok {A} a.
Arguments Throw {A} e.

(** What the relay does that an observer can see, in order. *)
Inductive Action :=
| ClientEmit (client : string) (event : string) (payload : json)
| PythonEmit (event : string) (payload : json)
| PollySend (text : option json) (voiceId : string)
| LogError (msg : string)
| Unhandled (e : js_error).

(** The Redis server behind the ioredis client: whether commands currently
    succeed, and each key with its value and the instant (ms) it expires. *)
Record RedisServer := mkRedis {
  redis_up : bool;
  redis_data : gmap string (string * Z)
}.

(** Answer of the Polly engine to one [SynthesizeSpeechCommand]. *)
Inductive PollyReply :=
| PollyRejects (e : js_error)
| PollyResponds (AudioStream : option (list string)).

(** [PythonSocket.socket] when it is not [null]. *)
Record IoSocket := mkSocket {
  connected : bool;
  socket_id : option string
}.

(** Library functions the relay calls. *)
Record Library := mkLibrary {
  xxh32 : string -> N -> N;
  base64_encode : string -> string;
  base64_decode : string -> string;
  polly_send : option json -> string -> PollyReply
}.

Record World := mkWorld {
  now : Z;                                   (* Date.now(), ms *)
  env : gmap string string;                  (* process.env *)
  lib : Library;
  redis : RedisServer;
  memory : gmap string json;                 (* SessionCache.memory *)
  sockets : list string;                     (* server.sockets.sockets, keys in order *)
  activeFrontendClient : option string;      (* VoiceGateway.activeFrontendClient *)
  socket : option IoSocket;                  (* PythonSocket.socket *)
  messageHandler : bool                      (* PythonSocket.messageHandler is set *)
}.

Definition set_redis (r : RedisServer) (w : World) : World :=
  mkWorld (now w) (env w) (lib w) r (memory w) (sockets w)
          (activeFrontendClient w) (socket w) (messageHandler w).
Definition set_memory (m : gmap string json) (w : World) : World :=
  mkWorld (now w) (env w) (lib w) (redis w) m (sockets w)
          (activeFrontendClient w) (socket w) (messageHandler w).
Definition set_sockets (s : list string) (w : World) : World :=
  mkWorld (now w) (env w) (lib w) (redis w) (memory w) s
          (activeFrontendClient w) (socket w) (messageHandler w).
Definition set_active (a : option string) (w : World) : World :=
  mkWorld (now w) (env w) (lib w) (redis w) (memory w) (sockets w)
          a (socket w) (messageHandler w).
Definition set_socket (s : option IoSocket) (w : World) : World :=
  mkWorld (now w) (env w) (lib w) (redis w) (memory w) (sockets w)
          (activeFrontendClient w) s (messageHandler w).
Definition set_now (t : Z) (w : World) : World :=
  mkWorld t (env w) (lib w) (redis w) (memory w) (sockets w)
          (activeFrontendClient w) (socket w) (messageHandler w).
Definition set_messageHandler (b : bool) (w : World) : World :=
  mkWorld (now w) (env w) (lib w) (redis w) (memory w) (sockets w)
          (activeFrontendClient w) (socket w) b.

(** The same world [ms] milliseconds later. *)
Definition later (ms : N) (w : World) : World := set_now (now w + Z.of_N ms) w.

(** Outcome of running a method: what it returned or threw, the world it
    left, and what it did on the way. *)
Record Outcome (A : Type) := mkOutcome {
  res : result A;
  world : World;
  out : list Action
}.
Arguments mkOutcome {A} res world out.
Arguments res {A} o.
Arguments world {A} o.
Arguments out {A} o.

Definition M (A : Type) : Type := World -> Outcome A.

Definition ret {A} (a : A) : M A := fun w => mkOutcome (Ok a) w [].
Definition throw {A} (e : js_error) : M A := fun w => mkOutcome (Throw e) w [].

Definition bind {A B} (m : M A) (k : A -> M B) : M B := fun w =>
  let o := m w in
  match res o with
  | Ok a => let o' := k a (world o) in mkOutcome (res o') (world o') (out o ++ out o')
  | Throw e => mkOutcome (Throw e) (world o) (out o)
  end.

(** [try { m } catch (e) { h e }] *)
Definition try_catch {A} (m : M A) (h : js_error -> M A) : M A := fun w =>
  let o := m w in
  match res o with
  | Ok a => o
  | Throw e => let o' := h e (world o) in mkOutcome (res o') (world o') (out o ++ out o')
  end.

Definition read {A} (f : World -> A) : M A := fun w => mkOutcome (Ok (f w)) w [].
Definition modify (f : World -> World) : M unit := fun w => mkOutcome (Ok tt) (f w) [].
Definition act (a : Action) : M unit := fun w => mkOutcome (Ok tt) w [a].

Declare Scope js_scope.
Delimit Scope js_scope with js.
Notation "x <- m ;; k" := (bind m (fun x => k))
  (at level 100, m at next level, right associativity) : js_scope.
Notation "m ;; k" := (bind m (fun _ => k))
  (at level 100, right associativity) : js_scope.
Local Open Scope js_scope.

Definition console_error (msg : string) : M unit := act (LogError msg).

Definition TypeError (msg : string) : js_error := JsError "TypeError" msg.
Definition SyntaxError (msg : string) : js_error := JsError "SyntaxError" msg.
Definition Error (msg : string) : js_error := JsError "Error" msg.

(** Truthiness of a string that may be [null] or [undefined]. *)
Definition str_truthy (s : option string) : bool :=
  match s with
  | Some x => negb (String.eqb x EmptyString)
  | None => false
  end.

(** [JSON.parse] as a call that may throw. *)
Definition JSON_parse_or_throw (s : string) : M json :=
  match JSON_parse s with
  | Some v => ret v
  | None => throw (SyntaxError "Unexpected token in JSON")
  end.

(** [n.toString(16)] *)
Definition to_hex (n : N) : string :=
  HexadecimalString.NilZero.string_of_uint (N.to_hex_uint n).

(* ===================================================================== *)
(** * The ioredis client *)
(* ===================================================================== *)

Module Redis.

(** The client is created with [enableOfflineQueue: false]: a command issued
    while the server cannot be reached rejects at once. *)
Definition unavailable : js_error :=
  Error "Stream isn't writeable and enableOfflineQueue options is false".

(** The value under [key] at instant [t], unless the key has expired. *)
Definition live (r : RedisServer) (t : Z) (key : string) : option string :=
  match redis_data r !! key with
  | Some (v, expires) => if t <? expires then Some v else None
  | None => None
  end.

(** [redis.get(key)] *)
Definition get (key : string) : M (option string) := fun w =>
  if redis_up (redis w)
  then mkOutcome (Ok (live (redis w) (now w) key)) w []
  else mkOutcome (Throw unavailable) w [].

(** [redis.getBuffer(key)]: the same bytes, as a Buffer. *)
Definition getBuffer (key : string) : M (option string) := get key.

(** [redis.set(key, value, 'EX', seconds)] *)
Definition set_EX (key value : string) (seconds : Z) : M unit := fun w =>
  if redis_up (redis w)
  then mkOutcome (Ok tt)
         (set_redis (mkRedis (redis_up (redis w))
                             (<[key := (value, now w + seconds * 1000)]>
                                (redis_data (redis w)))) w) []
  else mkOutcome (Throw unavailable) w [].

End Redis.

(* ===================================================================== *)
(** * The cache tier *)
(* ===================================================================== *)

(** session.cache.ts: the session cache with the in-process fallback map. *)
Module SessionCache.

Definition key (sessionId : string) : string := String.append "session:" sessionId.

(** [this.memory.get(sessionId) ?? null] *)
Definition memory_get (sessionId : string) : M json :=
  read (fun w => match memory w !! sessionId with Some v => v | None => JNull end).

Definition get (sessionId : string) : M json :=
  try_catch
    (data <- Redis.get (key sessionId) ;;
     if str_truthy data
     then JSON_parse_or_throw (match data with Some d => d | None => EmptyString end)
     else memory_get sessionId)
    (fun _ => memory_get sessionId).

Definition set (sessionId : string) (payload : json) : M unit :=
  modify (fun w => set_memory (<[sessionId := payload]> (memory w)) w) ;;
  try_catch
    (Redis.set_EX (key sessionId) (JSON_stringify payload) 1800)
    (fun _ => ret tt).

End SessionCache.

(** The second definition of the session cache: the store alone. *)
Module SessionCacheStoreOnly.

Definition key (sessionId : string) : string := String.append "session:" sessionId.

Definition get (sessionId : string) : M json :=
  data <- Redis.get (key sessionId) ;;
  if str_truthy data
  then JSON_parse_or_throw (match data with Some d => d | None => EmptyString end)
  else ret JNull.

Definition set (sessionId : string) (payload : json) : M unit :=
  Redis.set_EX (key sessionId) (JSON_stringify payload) 1800.

End SessionCacheStoreOnly.

Module AudioDedupCache.

Definition hash (buffer : string) : M string :=
  read (fun w => to_hex (xxh32 (lib w) buffer 0xabcd mod 2 ^ 32)%N).

Definition key (sessionId hash : string) : string :=
  String.append "audio_chunk:" (String.append sessionId (String.append ":" hash)).

Definition isDuplicate (sessionId : string) (chunk : string) : M bool :=
  h <- hash chunk ;;
  exists_ <- Redis.get (key sessionId h) ;;
  if str_truthy exists_ then ret true
  else (Redis.set_EX (key sessionId h) "1" 2 ;; ret false).

End AudioDedupCache.

Module ExactResponseCache.

Definition key (lang text : string) : string :=
  String.append "exact_response:" (String.append lang (String.append ":" text)).

Definition get (lang text : string) : M json :=
  data <- Redis.get (key lang text) ;;
  if str_truthy data
  then JSON_parse_or_throw (match data with Some d => d | None => EmptyString end)
  else ret JNull.

Definition set (lang text : string) (response : json) : M unit :=
  Redis.set_EX (key lang text) (JSON_stringify response) 60.

End ExactResponseCache.

Module SttRawCache.

Definition key (audioHash : string) : string := String.append "stt_raw:" audioHash.

Definition get (audioHash : string) : M (option string) := Redis.get (key audioHash).

Definition set (audioHash transcript : string) : M unit :=
  Redis.set_EX (key audioHash) transcript 300.

End SttRawCache.

Module TtsRelayCache.

Definition key (responseId : string) : string := String.append "tts_relay:" responseId.

(** [data ?? null] *)
Definition get (responseId : string) : M (option string) :=
  Redis.getBuffer (key responseId).

Definition set (responseId audio : string) : M unit :=
  Redis.set_EX (key responseId) audio 300.

End TtsRelayCache.

(* ===================================================================== *)
(** * PollyService *)
(* ===================================================================== *)

Module PollyService.

(** The configuration handed to [new PollyClient]. *)
Record PollyClient := mkPollyClient {
  region : string;
  accessKeyId : string;
  secretAccessKey : string
}.

Definition constructor (env : gmap string string) : result PollyClient :=
  let accessKeyId := env !! "AWS_ACCESS_KEY_ID" in
  let secretAccessKey := env !! "AWS_SECRET_ACCESS_KEY" in
  if negb (str_truthy accessKeyId) || negb (str_truthy secretAccessKey)
  then Throw (Error "AWS credentials not found in environment variables")
  else Ok (mkPollyClient (str_or (env !! "AWS_REGION") "us-east-1")
                         (default EmptyString accessKeyId)
                         (default EmptyString secretAccessKey)).

Definition synthesizeSpeech (text : option json) (voiceId : string) : M string :=
  try_catch
    (act (PollySend text voiceId) ;;
     response <- read (fun w => polly_send (lib w) text voiceId) ;;
     match response with
     | PollyRejects e => throw e
     | PollyResponds (Some chunks) => ret (String.concat EmptyString chunks)
     | PollyResponds None => throw (Error "No audio stream in response")
     end)
    (fun error =>
       act (LogError (String.append "Polly TTS error: " (message error))) ;;
       throw error).

End PollyService.

(* ===================================================================== *)
(** * PythonSocket: the single link to the Python AI service *)
(* ===================================================================== *)

Module PythonSocket.

(** [this.socket?.connected ?? false] *)
Definition isConnected : M bool :=
  read (fun w => match socket w with Some s => connected s | None => false end).

(** [this.socket?.id] *)
Definition pythonSessionId : M (option string) :=
  read (fun w => match socket w with Some s => socket_id s | None => None end).

Definition setMessageHandler : M unit := modify (set_messageHandler true).

(** [disconnect()]: closes the socket, if there is one, and forgets it. *)
Definition disconnect : M unit := modify (set_socket None).

Definition onModuleDestroy : M unit := disconnect.

(** Generic emit: sends a Socket.IO event to Python. *)
Definition emit (event : string) (data : json) : M unit :=
  c <- isConnected ;;
  if negb c
  then console_error
         (String.append "Cannot emit '" (String.append event "' - not connected to Python"))
  else act (PythonEmit event data).

Definition sendNewSession : M unit := emit "new_session" (JObj []).

Definition sendTextQuery (sessionId text : string) : M unit :=
  emit "text_query" (obj [("text", Some (JStr text)); ("message", Some (JStr text))]).

Definition sendTextOnlyQuery (sessionId text : string) : M unit :=
  emit "text_only_query" (obj [("text", Some (JStr text)); ("message", Some (JStr text))]).

Definition sendVoiceInput (sessionId audioBase64 format : string) : M unit :=
  emit "voice_input" (obj [("audio", Some (JStr audioBase64)); ("format", Some (JStr format))]).

Definition sendInterimSpeech (sessionId text : string) : M unit :=
  emit "interim_speech" (obj [("text", Some (JStr text))]).

Definition sendChangeVoice (voiceId : string) : M unit :=
  emit "change_voice" (obj [("voice_id", Some (JStr voiceId))]).

Definition sendGetVoices : M unit := emit "get_voices" (JObj []).

(** [dispatch(msg)], for the handler that [setMessageHandler] registered. *)
Definition dispatch (handler : json -> M unit) (msg : json) : M unit :=
  registered <- read messageHandler ;;
  if negb registered then ret tt
  else
    try_catch (handler msg)
      (fun err =>
         console_error (String.append "Error in Python message handler: " (message err))).

(** The listeners of the shape
    [socket.on(event, (data) => this.dispatch({ ...data, type: T }))]. *)
Definition forwarded : list (string * string) :=
  [ ("status", "STATUS");
    ("query_received", "QUERY_RECEIVED");
    ("audio_start", "AUDIO_START");
    ("audio_chunk", "AUDIO_CHUNK");
    ("audio_end", "AUDIO_END");
    ("audio_interrupted", "AUDIO_INTERRUPTED");
    ("transcription_start", "TRANSCRIPTION_START");
    ("transcription_complete", "TRANSCRIPTION_COMPLETE");
    ("speculative_ready", "SPECULATIVE_READY");
    ("response_interrupted", "RESPONSE_INTERRUPTED");
    ("voice_changed", "VOICE_CHANGED");
    ("available_voices", "AVAILABLE_VOICES");
    ("error", "ERROR");
    ("error_response", "ERROR") ].

Fixpoint listener (table : list (string * string)) (event : string) : option string :=
  match table with
  | [] => None
  | (e, t) :: r => if String.eqb event e then Some t else listener r event
  end.

(** An event arriving from Python on the socket. *)
Definition on (handler : json -> M unit) (event : string) (data : json) : M unit :=
  if String.eqb event "text_response" then
    match data with
    | JNull =>
      throw (TypeError "Cannot destructure property 'type' of 'data' as it is null.")
    | _ =>
      (* const { type: python_type, ...rest } = data *)
      let python_type := get_field "type" data in
      let rest := remove "type" (spread data) in
      dispatch handler
        (JObj (obj_build rest [("python_type", python_type);
                               ("type", Some (JStr "TEXT_RESPONSE"))]))
    end
  else
    match listener forwarded event with
    | Some t => dispatch handler (JObj (obj_build (spread data) [("type", Some (JStr t))]))
    | None => ret tt
    end.

End PythonSocket.

(* ===================================================================== *)
(** * VoiceGateway *)
(* ===================================================================== *)

Module VoiceGateway.

(** Greeting sent to every new frontend client. *)
Definition GREETING : string :=
  "Hello! Welcome to TechGropse, I'm Anup, your virtual assistant. What's your name?".

Definition client_emit (client event : string) (payload : json) : M unit :=
  act (ClientEmit client event payload).

(** Look up the frontend Socket for the currently active client. *)
Definition getActiveClient : M (option string) :=
  read (fun w =>
          match activeFrontendClient w with
          | Some a =>
            if String.eqb a EmptyString then None
            else if existsb (String.eqb a) (sockets w) then Some a else None
          | None => None
          end).

(** Generate Polly audio and emit it to a frontend client. *)
Definition emitPollyAudio (client : string) (text : option json) : M unit :=
  try_catch
    (voice <- read (fun w => str_or (env w !! "POLLY_VOICE_ID") "Joey") ;;
     audioBuffer <- PollyService.synthesizeSpeech text voice ;;
     b64 <- read (fun w => base64_encode (lib w) audioBuffer) ;;
     client_emit client "tts_audio"
       (obj [("audio", Some (JStr b64)); ("format", Some (JStr "mp3"))]))
    (fun error => console_error (String.append "[Polly] TTS error: " (message error))).

Definition afterInit : M unit := PythonSocket.setMessageHandler.

Definition handleConnection (client : string) : M unit :=
  modify (set_active (Some client)) ;;
  t <- read now ;;
  SessionCache.set client (obj [("connectedAt", Some (JNum t))]) ;;
  client_emit client "status"
    (obj [("message", Some (JStr "Connected to TechGropse Server"));
          ("type", Some (JStr "success"));
          ("session_id", Some (JStr client))]) ;;
  c <- PythonSocket.isConnected ;;
  if c then PythonSocket.sendNewSession
  else
    client_emit client "text_response"
      (obj [("response", Some (JStr GREETING));
            ("message", Some (JStr GREETING));
            ("type", Some (JStr "initial_greeting"));
            ("show_chatbox", Some (JBool true));
            ("current_field", Some (JStr "name"))]).

Definition handleDisconnect (client : string) : M unit :=
  a <- read activeFrontendClient ;;
  match a with
  | Some id =>
    if String.eqb id client then
      remaining <- read (fun w => List.find (fun id => negb (String.eqb id client)) (sockets w)) ;;
      modify (set_active remaining)
    else ret tt
  | None => ret tt
  end.

(** [sessionData.lastQuery = text] on what the cache returned. *)
Definition assign_lastQuery (sessionData : json) (text : string) : M json :=
  match sessionData with
  | JObj l => ret (JObj (put "lastQuery" (JStr text) l))
  | JArr l => ret (JArr l)
  | _ => throw (TypeError "Cannot create property 'lastQuery'")
  end.

Definition handleTextInput (client : string) (text : string) : M unit :=
  modify (set_active (Some client)) ;;
  stored <- SessionCache.get client ;;
  sessionData <- assign_lastQuery (if truthy stored then stored else JObj []) text ;;
  SessionCache.set client sessionData ;;
  cached <- ExactResponseCache.get "en" text ;;
  if truthy cached then
    let responseText :=
        match cached with
        | JStr _ => Some cached
        | _ => js_or (get_field "text" cached) (get_field "response" cached)
        end in
    client_emit client "text_response"
      (obj [("response", responseText); ("message", responseText);
            ("type", Some (JStr "cached"))]) ;;
    client_emit client "stream_complete"
      (obj [("fullResponse", responseText);
            ("metadata", Some (obj [("cached", Some (JBool true))]))]) ;;
    emitPollyAudio client responseText
  else
    c <- PythonSocket.isConnected ;;
    if negb c then
      client_emit client "error"
        (obj [("message", Some (JStr "AI service not available. Retrying…"))])
    else PythonSocket.sendTextQuery client text.

Definition handleTextOnlyInput (client : string) (text : string) : M unit :=
  modify (set_active (Some client)) ;;
  c <- PythonSocket.isConnected ;;
  if negb c then
    client_emit client "error" (obj [("message", Some (JStr "AI service not available"))])
  else PythonSocket.sendTextOnlyQuery client text.

Definition handleVoiceInput (client : string) (audio : string) (format : option string)
  : M unit :=
  modify (set_active (Some client)) ;;
  c <- PythonSocket.isConnected ;;
  if negb c then
    client_emit client "error" (obj [("message", Some (JStr "AI service not available"))])
  else PythonSocket.sendVoiceInput client audio (str_or format "webm").

Definition handleAudioChunk (client : string) (chunkBase64 : string) : M unit :=
  audioBuffer <- read (fun w => base64_decode (lib w) chunkBase64) ;;
  isDup <- AudioDedupCache.isDuplicate client audioBuffer ;;
  if isDup then ret tt
  else
    modify (set_active (Some client)) ;;
    PythonSocket.emit "audio_chunk"
      (obj [("sessionId", Some (JStr client)); ("audio", Some (JStr chunkBase64))]).

Definition handleInterimSpeech (client : string) (text : string) : M unit :=
  modify (set_active (Some client)) ;;
  PythonSocket.sendInterimSpeech client text.

Definition handleCreateSession (client : string) : M unit :=
  modify (set_active (Some client)) ;;
  t <- read now ;;
  SessionCache.set client (obj [("connectedAt", Some (JNum t))]) ;;
  sid <- PythonSocket.pythonSessionId ;;
  client_emit client "session_ready"
    (obj [("sessionId", Some (JStr client));
          ("pythonSessionId", option_map JStr sid);
          ("status", Some (JStr "ready"))]).

Definition handleChangeVoice (client : string) (voiceId : string) : M unit :=
  modify (set_active (Some client)) ;;
  PythonSocket.sendChangeVoice voiceId.

Definition handleGetVoices (client : string) : M unit :=
  modify (set_active (Some client)) ;;
  PythonSocket.sendGetVoices.

(** Replay previously cached TTS audio. *)
Definition repeatLast (client : string) (responseId : string) : M unit :=
  audio <- TtsRelayCache.get responseId ;;
  match audio with
  | Some a =>
    b64 <- read (fun w => base64_encode (lib w) a) ;;
    client_emit client "audio" (obj [("audio", Some (JStr b64))])
  | None => ret tt
  end.

(** [case 'T':] of the [switch (msg.type)]. *)
Definition is_type (msg : json) (t : string) : bool :=
  match get_field "type" msg with
  | Some (JStr s) => String.eqb s t
  | _ => false
  end.

(** [if (client) client.emit(event, payload)] *)
Definition emit_if (client : option string) (event : string) (payload : json) : M unit :=
  match client with
  | Some c => client_emit c event payload
  | None => ret tt
  end.

Definition handlePythonMessage (msg : json) : M unit :=
  client <- getActiveClient ;;
  if is_type msg "STATUS" then
    match client with
    | Some c =>
      client_emit c "status" msg ;;
      if truthy_opt (get_field "session_id" msg) then
        client_emit c "session_ready"
          (obj [("sessionId", Some (JStr c));
                ("pythonSessionId", get_field "session_id" msg);
                ("status", Some (JStr "ready"))])
      else ret tt
    | None => ret tt
    end
  else if is_type msg "TEXT_RESPONSE" then
    let responseText :=
        js_or (js_or (get_field "response" msg) (get_field "message" msg))
              (Some (JStr EmptyString)) in
    (* responseText.substring(0, 60) *)
    match responseText with
    | Some (JStr _) => ret tt
    | _ => throw (TypeError "responseText.substring is not a function")
    end ;;
    match client with
    | Some c =>
      client_emit c "text_response"
        (obj [("response", responseText);
              ("message", responseText);
              ("type", js_or (get_field "python_type" msg) (Some (JStr "response")));
              ("show_chatbox", get_field "show_chatbox" msg);
              ("current_field", get_field "current_field" msg);
              ("contact_form_state", get_field "contact_form_state" msg)]) ;;
      client_emit c "stream_complete"
        (obj [("fullResponse", responseText);
              ("metadata", Some (obj [("intent", get_field "intent" msg)]))]) ;;
      sessionData <- SessionCache.get c ;;
      match get_field "lastQuery" sessionData with
      | Some q =>
        if truthy q
        then ExactResponseCache.set "en" (js_string_of q) (default JNull responseText)
        else ret tt
      | None => ret tt
      end
    | None => ret tt
    end
  else if is_type msg "QUERY_RECEIVED" then emit_if client "query_received" msg
  else if is_type msg "AUDIO_START" then emit_if client "audio_start" msg
  else if is_type msg "AUDIO_CHUNK" then
    emit_if client "audio_chunk"
      (obj [("data", get_field "data" msg);
            ("chunk_id", get_field "chunk_id" msg);
            ("format", js_or (get_field "format" msg) (Some (JStr "mp3")));
            ("cached", get_field "cached" msg)])
  else if is_type msg "AUDIO_END" then emit_if client "audio_end" msg
  else if is_type msg "AUDIO_INTERRUPTED" then emit_if client "audio_interrupted" msg
  else if is_type msg "TRANSCRIPTION_START" then emit_if client "transcription_start" msg
  else if is_type msg "TRANSCRIPTION_COMPLETE" then
    emit_if client "transcription_complete" msg
  else if is_type msg "SPECULATIVE_READY" then emit_if client "speculative_ready" msg
  else if is_type msg "RESPONSE_INTERRUPTED" then emit_if client "response_interrupted" msg
  else if is_type msg "VOICE_CHANGED" then emit_if client "voice_changed" msg
  else if is_type msg "AVAILABLE_VOICES" then emit_if client "available_voices" msg
  else if is_type msg "ERROR" then
    console_error
      (String.append "Python error: "
         (match js_or (get_field "message" msg) (get_field "error" msg) with
          | Some v => js_string_of v
          | None => "undefined"
          end)) ;;
    emit_if client "error"
      (obj [("message", js_or (get_field "message" msg) (get_field "error" msg))])
  else ret tt.

End VoiceGateway.

(* ===================================================================== *)
(** * The relay as a reactive system *)
(* ===================================================================== *)

Module Relay.
Import VoiceGateway.

(** The messages a frontend client sends ([@SubscribeMessage]). *)
Inductive ClientMessage :=
| text_input (text : string)
| text_only_input (text : string)
| voice_input (audio : string) (format : option string)
| audio_chunk (chunkBase64 : string)
| interim_speech (text : string)
| create_session
| change_voice (voiceId : string)
| get_voices
| repeat_last (responseId : string).

Definition subscribed (client : string) (m : ClientMessage) : M unit :=
  match m with
  | text_input text => handleTextInput client text
  | text_only_input text => handleTextOnlyInput client text
  | voice_input audio format => handleVoiceInput client audio format
  | audio_chunk chunkBase64 => handleAudioChunk client chunkBase64
  | interim_speech text => handleInterimSpeech client text
  | create_session => handleCreateSession client
  | change_voice voiceId => handleChangeVoice client voiceId
  | get_voices => handleGetVoices client
  | repeat_last responseId => repeatLast client responseId
  end.

(** What can happen to the relay. *)
Inductive Event :=
| Connect (client : string)
| Disconnect (client : string)
| FromClient (client : string) (m : ClientMessage)
| FromPython (event : string) (data : json)
| PythonLink (sid : option string)      (* the link comes up with this id, or goes down *)
| RedisLink (up : bool)
| Elapse (ms : N).

Definition is_connected_client (client : string) (w : World) : bool :=
  existsb (String.eqb client) (sockets w).

(** The Socket.IO server keeps its registry: a socket is added before
    [handleConnection] and removed before [handleDisconnect] run.  A handler
    is run here from its first statement to its last, as if nothing was
    handled while it awaits; [Interleaved] below lifts this for
    [handleAudioChunk]. *)
Definition react (e : Event) : M unit :=
  match e with
  | Connect client =>
    modify (fun w => if is_connected_client client w then w
                     else set_sockets (sockets w ++ [client]) w) ;;
    handleConnection client
  | Disconnect client =>
    modify (fun w => set_sockets
                       (List.filter (fun id => negb (String.eqb id client)) (sockets w)) w) ;;
    handleDisconnect client
  | FromClient client m =>
    known <- read (is_connected_client client) ;;
    if known then subscribed client m else ret tt
  | FromPython event data =>
    c <- PythonSocket.isConnected ;;
    if c then PythonSocket.on handlePythonMessage event data else ret tt
  | PythonLink sid =>
    modify (fun w =>
              match socket w with
              | Some _ =>
                set_socket (Some (mkSocket (match sid with Some _ => true | None => false end)
                                           sid)) w
              | None => w
              end)
  | RedisLink up =>
    modify (fun w => set_redis (mkRedis up (redis_data (redis w))) w)
  | Elapse ms => modify (later ms)
  end.

(** One event, handled to completion; an exception nobody caught is seen. *)
Definition step (e : Event) (w : World) : World * list Action :=
  let o := react e w in
  (world o, out o ++ match res o with Ok _ => [] | Throw err => [Unhandled err] end).

(** The relay after both modules are initialised: the Python socket exists
    and is not yet connected, the gateway has registered its handler. *)
Definition boot (l : Library) (e : gmap string string) : World :=
  mkWorld 0 e l (mkRedis true ∅) ∅ [] None (Some (mkSocket false None)) true.

Fixpoint run (tr : list Event) (w : World) : World :=
  match tr with
  | [] => w
  | e :: tr' => run tr' (fst (step e w))
  end.

Fixpoint run_log (tr : list Event) (w : World) : list (Event * list Action) :=
  match tr with
  | [] => []
  | e :: tr' => (e, snd (step e w)) :: run_log tr' (fst (step e w))
  end.

End Relay.

(* ===================================================================== *)
(** * A handler suspended at its awaits *)
(* ===================================================================== *)

(** [Relay.react] runs a handler from its first statement to its last.  In
    the relay a handler gives way at every [await], and other events are
    handled before it resumes.  Every handler but one writes
    [activeFrontendClient] in its first synchronous stretch, before any
    [await], so its effect on the routing state is the one [Relay.react]
    gives it at the instant the event arrives.  The exception is
    [handleAudioChunk], which records the sender only after it has awaited
    [isDuplicate].  Here that handler, and [isDuplicate] under it, are split
    at their two awaits ([redis.get], [redis.set]); a command takes effect
    in the store when it is issued, its answer is taken up when the call
    resumes. *)
Module Interleaved.
Import VoiceGateway.

(** A call of [handleAudioChunk] that waits for the store. *)
Inductive Suspended :=
| AfterGet (client chunkBase64 : string) (exists_ : option string)
| AfterSet (client chunkBase64 : string).

Record State := mkState {
  relay : World;
  waiting : list Suspended
}.

Inductive Event :=
| Atomic (e : Relay.Event)
| ChunkArrives (client chunkBase64 : string)
| Resumes (i : nat).

(** The key [isDuplicate] computes for a chunk. *)
Definition chunk_key (client chunkBase64 : string) : M string :=
  audioBuffer <- read (fun w => base64_decode (lib w) chunkBase64) ;;
  h <- AudioDedupCache.hash audioBuffer ;;
  ret (AudioDedupCache.key client h).

(** Up to the first await: [redis.get] is issued. *)
Definition until_get (client chunkBase64 : string) : M (option Suspended) :=
  key <- chunk_key client chunkBase64 ;;
  exists_ <- Redis.get key ;;
  ret (Some (AfterGet client chunkBase64 exists_)).

(** From the answer of [redis.get] to the second await, or to the end of the
    handler if the chunk is a duplicate. *)
Definition after_get (client chunkBase64 : string) (exists_ : option string)
  : M (option Suspended) :=
  if str_truthy exists_ then ret None
  else
    key <- chunk_key client chunkBase64 ;;
    Redis.set_EX key "1" 2 ;;
    ret (Some (AfterSet client chunkBase64)).

(** From the answer of [redis.set] to the end of the handler. *)
Definition after_set (client chunkBase64 : string) : M (option Suspended) :=
  modify (set_active (Some client)) ;;
  PythonSocket.emit "audio_chunk"
    (obj [("sessionId", Some (JStr client)); ("audio", Some (JStr chunkBase64))]) ;;
  ret None.

Definition resume (s : Suspended) : M (option Suspended) :=
  match s with
  | AfterGet client chunkBase64 exists_ => after_get client chunkBase64 exists_
  | AfterSet client chunkBase64 => after_set client chunkBase64
  end.

(** A stretch of a handler: it ends the call, suspends it again, or throws. *)
Definition stretch (m : M (option Suspended)) (others : list Suspended) (w : World)
  : State * list Action :=
  let o := m w in
  match res o with
  | Ok (Some s) => (mkState (world o) (others ++ [s]), out o)
  | Ok None => (mkState (world o) others, out o)
  | Throw err => (mkState (world o) others, out o ++ [Unhandled err])
  end.

Fixpoint without (i : nat) (l : list Suspended) : list Suspended :=
  match l, i with
  | [], _ => []
  | _ :: r, O => r
  | x :: r, S i' => x :: without i' r
  end.

Definition step (e : Event) (st : State) : State * list Action :=
  match e with
  | Atomic e' =>
    let (w', acts) := Relay.step e' (relay st) in (mkState w' (waiting st), acts)
  | ChunkArrives client chunkBase64 =>
    if Relay.is_connected_client client (relay st)
    then stretch (until_get client chunkBase64) (waiting st) (relay st)
    else (st, [])
  | Resumes i =>
    match nth_error (waiting st) i with
    | Some s => stretch (resume s) (without i (waiting st)) (relay st)
    | None => (st, [])
    end
  end.

Fixpoint run (tr : list Event) (st : State) : State :=
  match tr with
  | [] => st
  | e :: tr' => run tr' (fst (step e st))
  end.

(** A chunk arrives and its call is resumed twice, nothing in between. *)
Definition uninterrupted (client chunkBase64 : string) : list Event :=
  [ChunkArrives client chunkBase64; Resumes 0; Resumes 0].

(** A client disconnects while its chunk waits for [redis.set]. *)
Definition leaves_meanwhile (client other chunkBase64 : string) : list Event :=
  [ Atomic (Relay.Connect client); Atomic (Relay.Connect other);
    ChunkArrives client chunkBase64; Resumes 0;
    Atomic (Relay.Disconnect client); Resumes 0 ].

End Interleaved.

(* ===================================================================== *)
(** * Ownership of upstream replies *)
(* ===================================================================== *)

(** The wire protocol carries no correlation identifier.  To state to whom a
    reply belongs, a trace tags each reply with the session on whose behalf
    the upstream produced it; the relay never sees the tag. *)
Module Routing.
Import Relay.

Inductive Stimulus :=
| Happens (e : Event)
| Replies (owner : string) (event : string) (data : json).

Definition event_of (s : Stimulus) : Event :=
  match s with
  | Happens e => e
  | Replies _ event data => FromPython event data
  end.

Definition is_PythonEmit (a : Action) : bool :=
  match a with PythonEmit _ _ => true | _ => false end.

Definition recipients (acts : list Action) : list string :=
  flat_map (fun a => match a with ClientEmit c _ _ => [c] | _ => [] end) acts.

(** Sessions with a request forwarded upstream and still open. *)
Definition pending_after (s : Stimulus) (acts : list Action) (pending : list string)
  : list string :=
  match s with
  | Happens (FromClient c _) => if existsb is_PythonEmit acts then c :: pending else pending
  | Happens (Disconnect c) => List.filter (fun id => negb (String.eqb id c)) pending
  | _ => pending
  end.

(** Every reply is tagged with a session that has a request outstanding. *)
Fixpoint well_tagged (tr : list Stimulus) (w : World) (pending : list string) : bool :=
  match tr with
  | [] => true
  | s :: tr' =>
    let (w', acts) := step (event_of s) w in
    match s with
    | Replies owner _ _ => existsb (String.eqb owner) pending
    | Happens _ => true
    end && well_tagged tr' w' (pending_after s acts pending)
  end.

(** The pairs (owner of a reply, client it was emitted to) of a run. *)
Fixpoint deliveries (tr : list Stimulus) (w : World) : list (string * string) :=
  match tr with
  | [] => []
  | s :: tr' =>
    let (w', acts) := step (event_of s) w in
    match s with
    | Replies owner _ _ => map (fun r => (owner, r)) (recipients acts)
    | Happens _ => []
    end ++ deliveries tr' w'
  end.

(** The routing property of the specification, at one trace: a reply is
    emitted to the session that owns it and to no other. *)
Definition delivered_only_to_owner (l : Library) (tr : list Stimulus) : Prop :=
  well_tagged tr (boot l ∅) [] = true ->
  forall owner recipient,
    In (owner, recipient) (deliveries tr (boot l ∅)) -> recipient = owner.

End Routing.

(* ===================================================================== *)
(** * The two session caches, side by side *)
(* ===================================================================== *)

Module SessionCacheRefinement.

Inductive Op :=
| OpSet (sessionId : string) (payload : json)
| OpGet (sessionId : string)
| OpElapse (ms : N).

(** The operation on the cache with the fallback map. *)
Definition fallback (op : Op) : M json :=
  match op with
  | OpSet sessionId payload => SessionCache.set sessionId payload ;; ret JNull
  | OpGet sessionId => SessionCache.get sessionId
  | OpElapse ms => modify (later ms) ;; ret JNull
  end.

(** The operation on the store-only cache. *)
Definition store_only (op : Op) : M json :=
  match op with
  | OpSet sessionId payload => SessionCacheStoreOnly.set sessionId payload ;; ret JNull
  | OpGet sessionId => SessionCacheStoreOnly.get sessionId
  | OpElapse ms => modify (later ms) ;; ret JNull
  end.

(** What a caller observes of a sequence of operations. *)
Fixpoint observe (impl : Op -> M json) (ops : list Op) (w : World) : list (result json) :=
  match ops with
  | [] => []
  | op :: ops' => res (impl op w) :: observe impl ops' (world (impl op w))
  end.

(** Every [get] comes before the 1800 s of the latest [set] of its session
    have elapsed; [last] maps a session to the instant of that [set]. *)
Fixpoint within_ttl (ops : list Op) (t : Z) (last : gmap string Z) : bool :=
  match ops with
  | [] => true
  | OpSet sessionId _ :: ops' => within_ttl ops' t (<[sessionId := t]> last)
  | OpGet sessionId :: ops' =>
    match last !! sessionId with
    | Some t0 => t <? t0 + 1800 * 1000
    | None => true
    end && within_ttl ops' t last
  | OpElapse ms :: ops' => within_ttl ops' (t + Z.of_N ms) last
  end.

End SessionCacheRefinement.

(* ===================================================================== *)
(** * Properties named by the specification, and sample inputs *)
(* ===================================================================== *)

(** Expiry of a role as the specification states it: once [ttl] seconds have
    elapsed since [set], [get] answers [absent]. *)
Definition forgets_after {V R : Type}
           (set : string -> V -> M unit) (get : string -> M R) (absent : R) (ttl : Z) : Prop :=
  forall (w : World) (key : string) (value : V) (ms : N),
    redis_up (redis w) = true ->
    ttl * 1000 <= Z.of_N ms ->
    res (get key (later ms (world (set key value w)))) = Ok absent.

(** A library whose engine is down; hashing and base64 are placeholders. *)
Definition sample_library : Library :=
  mkLibrary (fun _ _ => 0%N) (fun s => s) (fun s => s)
            (fun _ _ => PollyRejects (Error "service unavailable")).

(** The relay right after start, with an empty environment. *)
Definition fresh : World := Relay.boot sample_library ∅.

(** The same with the Redis server unreachable. *)
Definition fresh_without_redis : World :=
  fst (Relay.step (Relay.RedisLink false) fresh).

(** The error with which [synthesizeSpeech] fails on a reply of the engine,
    if it does. *)
Definition synthesis_error (r : PollyReply) : option js_error :=
  match r with
  | PollyRejects e => Some e
  | PollyResponds None => Some (Error "No audio stream in response")
  | PollyResponds (Some _) => None
  end.

(** The voice [emitPollyAudio] asks for. *)
Definition polly_voice (w : World) : string := str_or (env w !! "POLLY_VOICE_ID") "Joey".

(** The text of a cached exact response, as [handleTextInput] extracts it. *)
Definition cached_text (cached : json) : option json :=
  match cached with
  | JStr _ => Some cached
  | _ => js_or (get_field "text" cached) (get_field "response" cached)
  end.

(** [m] does only actions that satisfy [P], whatever the world. *)
Definition emits {A} (P : Action -> Prop) (m : M A) : Prop :=
  forall w, Forall P (out (m w)).

(** [m] leaves the component [f] of the world as it found it. *)
Definition preserves {X A} (f : World -> X) (m : M A) : Prop :=
  forall w, f (world (m w)) = f w.

(** An action that is not an emission to a client other than [client]. *)
Definition to_client (client : option string) (a : Action) : Prop :=
  match a with
  | ClientEmit c _ _ => client = Some c
  | _ => True
  end.

(** The messages of [msgs] handed to [dispatch] one after the other. *)
Fixpoint dispatch_each (handler : json -> M unit) (msgs : list json) : M unit :=
  match msgs with
  | [] => ret tt
  | msg :: rest => PythonSocket.dispatch handler msg ;; dispatch_each handler rest
  end.

(** The handler run on every message of [msgs] in turn, each run starting
    in the world the previous one left, a thrown error being logged. *)
Fixpoint handled_each (handler : json -> M unit) (msgs : list json) (w : World)
  : World * list Action :=
  match msgs with
  | [] => (w, [])
  | msg :: rest =>
    let o := handler msg w in
    let logged :=
        match res o with
        | Ok _ => []
        | Throw err =>
          [LogError (String.append "Error in Python message handler: " (message err))]
        end in
    let (w', acts) := handled_each handler rest (world o) in
    (w', out o ++ logged ++ acts)
  end.

(** Two clients with a request each on the single link; then the reply to
    the first request arrives. *)
Definition cross_talk : list Routing.Stimulus :=
  [ Routing.Happens (Relay.PythonLink (Some "py-1"));
    Routing.Happens (Relay.Connect "A");
    Routing.Happens (Relay.Connect "B");
    Routing.Happens (Relay.FromClient "A" (Relay.text_input "hi"));
    Routing.Happens (Relay.FromClient "B" (Relay.text_input "yo"));
    Routing.Replies "A" "text_response"
      (JObj [("response", JStr "hello A"); ("type", JStr "response")]) ].


(** The world in which the reply of [cross_talk] arrives. *)
Definition before_reply : World :=
  Relay.run
    [ Relay.PythonLink (Some "py-1"); Relay.Connect "A"; Relay.Connect "B";
      Relay.FromClient "A" (Relay.text_input "hi");
      Relay.FromClient "B" (Relay.text_input "yo") ]
    fresh.

(** Every non-empty text in the store is one that [JSON.parse] accepts. *)
Definition parseable (r : RedisServer) : Prop :=
  forall k d e, redis_data r !! k = Some (d, e) ->
                d <> EmptyString -> is_Some (JSON_parse d).

(** The two session caches as the specification relates them: the same
    answers on every sequence of operations, as long as the store accepts
    every command. *)
Definition equivalent_while_store_succeeds : Prop :=
  forall (w : World) (ops : list SessionCacheRefinement.Op),
    redis_up (redis w) = true -> memory w = ∅ -> parseable (redis w) ->
    SessionCacheRefinement.observe SessionCacheRefinement.fallback ops w
    = SessionCacheRefinement.observe SessionCacheRefinement.store_only ops w.

(** A session read back 1800 s after it was written. *)
Definition read_after_expiry : list SessionCacheRefinement.Op :=
  [ SessionCacheRefinement.OpSet "s1" (JObj [("connectedAt", JNum 0)]);
    SessionCacheRefinement.OpElapse 1800000;
    SessionCacheRefinement.OpGet "s1" ].

(** A world whose caches hold a session for client A and an answer to "hi". *)
Definition warm : World :=
  world (ExactResponseCache.set "en" "hi" (JStr "hello")
           (world (SessionCache.set "A" (JObj [("connectedAt", JNum 0)]) fresh))).

(* ===================================================================== *)
(** * Functions and relations used to state the properties *)
(* ===================================================================== *)

(** What [SessionCache.get] returns, as a function of the world. *)
Definition session_value (sessionId : string) (w : World) : json :=
  let mem := match memory w !! sessionId with Some v => v | None => JNull end in
  if redis_up (redis w) then
    match Redis.live (redis w) (now w) (SessionCache.key sessionId) with
    | Some d =>
      if String.eqb d EmptyString then mem
      else match JSON_parse d with Some v => v | None => mem end
    | None => mem
    end
  else mem.

(** What a [get] of the shape [data ? JSON.parse(data) : null] returns. *)
Definition parsed_result (key : string) (w : World) : result json :=
  if redis_up (redis w) then
    match Redis.live (redis w) (now w) key with
    | Some d =>
      if String.eqb d EmptyString then Ok JNull
      else match JSON_parse d with
           | Some v => Ok v
           | None => Throw (SyntaxError "Unexpected token in JSON")
           end
    | None => Ok JNull
    end
  else Throw Redis.unavailable.

(** The world a successful [SET key value EX ttl] leaves, [ms] later. *)
Definition written (key value : string) (ttl : Z) (ms : N) (w : World) : World :=
  later ms
    (set_redis (mkRedis true (<[key := (value, now w + ttl * 1000)]> (redis_data (redis w)))) w).

(** A string without a colon in it, as [n.toString(16)] is. *)
Definition colon_free (s : string) : Prop :=
  forall a b, s <> String.append a (String ":" b).

(** The hash [isDuplicate] takes of a chunk. *)
Definition chunk_hash (chunk : string) (w : World) : string :=
  to_hex (xxh32 (lib w) chunk 0xabcd mod 2 ^ 32)%N.

(** The key under which a chunk is marked. *)
Definition marker (sessionId chunk : string) (w : World) : string :=
  AudioDedupCache.key sessionId (to_hex (xxh32 (lib w) chunk 0xabcd mod 2 ^ 32)%N).

(** Whether a message of [client], handled in [w], makes its sender the
    active client: every message does, except [repeat_last], and except an
    [audio_chunk] that is a duplicate or whose duplicate check the store
    rejects. *)
Definition marks_active (client : string) (m : Relay.ClientMessage) (w : World) : bool :=
  match m with
  | Relay.repeat_last _ => false
  | Relay.audio_chunk chunkBase64 =>
    redis_up (redis w) &&
    negb (str_truthy (Redis.live (redis w) (now w)
                                 (marker client (base64_decode (lib w) chunkBase64) w)))
  | _ => true
  end.

(** The client recorded in [activeFrontendClient] once [e] has been handled
    in [w]. *)
Definition active_after (e : Relay.Event) (w : World) : option string :=
  match e with
  | Relay.Connect client => Some client
  | Relay.Disconnect client =>
    match activeFrontendClient w with
    | Some a =>
      if String.eqb a client
      then List.find (fun id => negb (String.eqb id client)) (sockets w)
      else Some a
    | None => None
    end
  | Relay.FromClient client m =>
    if Relay.is_connected_client client w && marks_active client m w
    then Some client
    else activeFrontendClient w
  | _ => activeFrontendClient w
  end.

(** Whether the link to Python is up, read off the world. *)
Definition link_up (w : World) : bool :=
  match socket w with Some s => connected s | None => false end.

(** The client [getActiveClient] finds in a world. *)
Definition active_client (w : World) : option string :=
  match res (VoiceGateway.getActiveClient w) with
  | Ok c => c
  | Throw _ => None
  end.

(** The simulation: the two caches sit on the same store at the same
    instant, and whatever the fallback map holds for a session is in the
    store too, written at the instant [last] records. *)
Record related (last : gmap string Z) (wf ws : World) : Prop := {
  same_store : redis wf = redis ws;
  same_clock : now wf = now ws;
  store_up : redis_up (redis wf) = true;
  store_parseable : parseable (redis wf);
  map_in_store :
    forall sessionId payload,
      memory wf !! sessionId = Some payload ->
      exists t0, last !! sessionId = Some t0 /\
                 redis_data (redis wf) !! SessionCache.key sessionId
                 = Some (JSON_stringify payload, t0 + 1800 * 1000)
}.

(* ===================================================================== *)
(** * Further properties of the relay: what they are stated with *)
(* ===================================================================== *)

(** The routing state is consistent: the active client, if any, is a
    registered socket, and some client is active whenever one is registered. *)
Definition routing_consistent (w : World) : Prop :=
  (forall a, activeFrontendClient w = Some a -> In a (sockets w)) /\
  (sockets w <> [] -> activeFrontendClient w <> None).

(** An action that is not a send to the upstream. *)
Definition not_upstream (a : Action) : Prop :=
  match a with PythonEmit _ _ => False | _ => True end.

(** An action that is neither a send to the upstream nor a call of the
    synthesis engine. *)
Definition local_only (a : Action) : Prop :=
  match a with PythonEmit _ _ | PollySend _ _ => False | _ => True end.

(** While [I] holds of the world, [m] does only actions that satisfy [P],
    and it keeps [I]. *)
Definition emits_while {A} (I : World -> Prop) (P : Action -> Prop) (m : M A) : Prop :=
  forall w, I w -> Forall P (out (m w)) /\ I (world (m w)).

(** The link to Python is down. *)
Definition link_down (w : World) : Prop := link_up w = false.

(** The fields [handleTextInput] finds in what the session cache returned
    ([stored || {}]), when it is something a property can be assigned on. *)
Definition record_fields (stored : json) : option (list (string * json)) :=
  if truthy stored then
    match stored with
    | JObj l => Some l
    | _ => None
    end
  else Some [].

(** [typeof v === 'string'] *)
Definition is_string (v : json) : bool :=
  match v with JStr _ => true | _ => false end.

(** [msg.response || msg.message || ''] *)
Definition response_text (msg : json) : option json :=
  js_or (js_or (get_field "response" msg) (get_field "message" msg))
        (Some (JStr EmptyString)).

(** The events of Python that the gateway hands on under the same name and
    with the same payload, and the type each is dispatched under. *)
Definition passed_through : list (string * string) :=
  [ ("query_received", "QUERY_RECEIVED");
    ("audio_start", "AUDIO_START");
    ("audio_end", "AUDIO_END");
    ("audio_interrupted", "AUDIO_INTERRUPTED");
    ("transcription_start", "TRANSCRIPTION_START");
    ("transcription_complete", "TRANSCRIPTION_COMPLETE");
    ("speculative_ready", "SPECULATIVE_READY");
    ("response_interrupted", "RESPONSE_INTERRUPTED");
    ("voice_changed", "VOICE_CHANGED");
    ("available_voices", "AVAILABLE_VOICES") ].

(** What [emitPollyAudio] does after it has called the engine. *)
Definition after_synthesis (client : string) (w : World) (reply : PollyReply)
  : list Action :=
  match reply with
  | PollyResponds (Some chunks) =>
    [ClientEmit client "tts_audio"
       (JObj [("audio", JStr (base64_encode (lib w) (String.concat EmptyString chunks)));
              ("format", JStr "mp3")])]
  | _ =>
    match synthesis_error reply with
    | Some e =>
      [LogError (String.append "Polly TTS error: " (message e));
       LogError (String.append "[Polly] TTS error: " (message e))]
    | None => []
    end
  end.

(** The payload of the [text_response] the gateway emits for a message of
    Python with text [responseText]. *)
Definition text_response_payload (msg : json) (responseText : option json) : json :=
  obj [("response", responseText);
       ("message", responseText);
       ("type", js_or (get_field "python_type" msg) (Some (JStr "response")));
       ("show_chatbox", get_field "show_chatbox" msg);
       ("current_field", get_field "current_field" msg);
       ("contact_form_state", get_field "contact_form_state" msg)].

(** The payload of the [stream_complete] that follows it. *)
Definition stream_complete_payload (msg : json) (responseText : option json) : json :=
  obj [("fullResponse", responseText);
       ("metadata", Some (obj [("intent", get_field "intent" msg)]))].

(** The world [handleTextInput] leaves once it has recorded the query in a
    session record with fields [fields]. *)
Definition query_recorded (client text : string) (fields : list (string * json))
           (w : World) : World :=
  world (SessionCache.set client (JObj (put "lastQuery" (JStr text) fields))
                          (set_active (Some client) w)).

(** The part of [handleTextInput] that follows the cache lookup. *)
Definition text_input_rest (client text : string) (cached : json) : M unit :=
  if truthy cached then
    VoiceGateway.client_emit client "text_response"
      (obj [("response", cached_text cached); ("message", cached_text cached);
            ("type", Some (JStr "cached"))]) ;;
    VoiceGateway.client_emit client "stream_complete"
      (obj [("fullResponse", cached_text cached);
            ("metadata", Some (obj [("cached", Some (JBool true))]))]) ;;
    VoiceGateway.emitPollyAudio client (cached_text cached)
  else
    c <- PythonSocket.isConnected ;;
    if negb c then
      VoiceGateway.client_emit client "error"
        (obj [("message", Some (JStr "AI service not available. Retrying…"))])
    else PythonSocket.sendTextQuery client text.


(** The world in which [handleAudioChunk] has marked and forwarded a chunk. *)
Definition chunk_marked (client chunkBase64 : string) (w : World) : World :=
  set_active (Some client)
    (written (marker client (base64_decode (lib w) chunkBase64) w) "1" 2 0 w).

(** What [PythonSocket.emit] does with an event, by the state of the link. *)
Definition sent_or_logged (event : string) (data : json) (w : World) : list Action :=
  if link_up w then [PythonEmit event data]
  else [LogError (String.append "Cannot emit '"
                                (String.append event "' - not connected to Python"))].

(** The store holds no audio for [repeat_last] to replay. *)
Definition no_relay_audio (w : World) : Prop :=
  forall responseId, redis_data (redis w) !! TtsRelayCache.key responseId = None.

(** The store as it is, reachable or not. *)
Definition with_store (up : bool) (w : World) : World :=
  set_redis (mkRedis up (redis_data (redis w))) w.

(** The world [handleConnection] and [handleCreateSession] leave: the
    client is active and its record is the instant of the call. *)
Definition session_opened (client : string) (w : World) : World :=
  world (SessionCache.set client (JObj [("connectedAt", JNum (now w))])
                          (set_active (Some client) w)).

(** What a list of actions sends to Python. *)
Definition upstream (l : list Action) : list (string * json) :=
  flat_map (fun a => match a with PythonEmit event data => [(event, data)] | _ => [] end) l.

(** The payload of the [audio_chunk] the gateway emits for an audio chunk
    of Python with payload [data]. *)
Definition audio_chunk_payload (data : json) : json :=
  obj [("data", get_field "data" data);
       ("chunk_id", get_field "chunk_id" data);
       ("format", js_or (get_field "format" data) (Some (JStr "mp3")));
       ("cached", get_field "cached" data)].

(** [msg.message || msg.error], as the payload of [error] and as logged. *)
Definition error_payload (data : json) : json :=
  obj [("message", js_or (get_field "message" data) (get_field "error" data))].

Definition error_logged (data : json) : string :=
  String.append "Python error: "
    (match js_or (get_field "message" data) (get_field "error" data) with
     | Some v => js_string_of v
     | None => "undefined"
     end).

(** A property name that is not the index of an element: it does not start
    with a digit. *)
Definition named (k : string) : bool :=
  match k with
  | String c _ => negb (is_digit c)
  | EmptyString => true
  end.
(* ===================================================================== *)
(** * Facts about the JSON codec *)
(* ===================================================================== *)

Module JsonFacts.
Import Json JsonCodec.

Lemma parse_escape_char c r :
  parse_chars Plain (escape_char c ++ r) = cons_char c (parse_chars Plain r).
Proof.
  destruct c as [b0 b1 b2 b3 b4 b5 b6 b7].
  destruct b0, b1, b2, b3, b4, b5, b6, b7; reflexivity.
Qed.

Lemma parse_chars_escape cs rest :
  parse_chars Plain (escape cs ++ quote :: rest) = Some (cs, rest).
Proof.
  induction cs as [|c cs IH]; cbn [escape app].
  - reflexivity.
  - now rewrite <- app_assoc, parse_escape_char, IH.
Qed.

Lemma parse_string_print s rest :
  parse_string (print_string s ++ rest) = Some (s, rest).
Proof.
  unfold print_string, parse_string. cbn [app].
  change (Ascii.eqb quote quote) with true. cbv iota.
  rewrite <- app_assoc. cbn [app]. rewrite parse_chars_escape.
  unfold chars. now rewrite string_of_list_ascii_of_string.
Qed.

Lemma is_digit_not c x :
  is_digit c = true -> is_digit x = false -> Ascii.eqb c x = false.
Proof.
  intros Hc Hx. destruct (Ascii.eqb_spec c x) as [->|]; [congruence | reflexivity].
Qed.

Lemma span_digits_all ds rest :
  Forall (fun c => is_digit c = true) ds -> follow_ok rest = true ->
  span_digits (ds ++ rest) = (ds, rest).
Proof.
  intros Hds Hrest. induction Hds as [|c ds Hc _ IH]; cbn [app span_digits].
  - destruct rest as [|c r]; [reflexivity|]. cbn in Hrest.
    cbn [span_digits]. now destruct (is_digit c).
  - now rewrite Hc, IH.
Qed.

Lemma uint_digits d :
  Forall (fun c => is_digit c = true) (chars (NilEmpty.string_of_uint d)).
Proof.
  induction d; cbn; constructor; auto.
Qed.


Lemma digit_not_minus c : is_digit c = true -> Ascii.eqb c minus = false.
Proof. intros H. now apply is_digit_not. Qed.

Lemma list_ascii_app_string a b :
  string_of_list_ascii (a ++ chars b) = String.append (string_of_list_ascii a) b.
Proof.
  induction a as [|c a IH]; cbn.
  - unfold chars. apply string_of_list_ascii_of_string.
  - now rewrite IH.
Qed.

Lemma canonical_numeral p :
  no_leading_zero (chars (NilZero.string_of_uint (Pos.to_uint p))) = true.
Proof.
  assert (Hn : Pos.to_uint p = unorm (Pos.to_uint p)).
  { pose proof (DecimalPos.Unsigned.to_of (Pos.to_uint p)) as H.
    now rewrite DecimalPos.Unsigned.of_to in H. }
  destruct (Pos.to_uint p) as [|d|d|d|d|d|d|d|d|d|d] eqn:E; try reflexivity.
  exfalso. unfold unorm in Hn. rewrite DecimalFacts.nzhead_D0 in Hn.
  destruct (nzhead d) eqn:Ez; try discriminate Hn.
  - injection Hn as ->. apply (DecimalPos.Unsigned.to_uint_nonzero p). exact E.
  - apply (DecimalFacts.nzhead_nonzero d d). congruence.
Qed.

Lemma nonneg_number d rest :
  d <> Nil -> no_leading_zero (chars (NilZero.string_of_uint d)) = true ->
  follow_ok rest = true ->
  parse_number (chars (NilZero.string_of_uint d) ++ rest) = Some (Z.of_uint d, rest).
Proof.
  intros Hd Hz Hrest.
  assert (Hall : Forall (fun c => is_digit c = true) (chars (NilZero.string_of_uint d))).
  { destruct d; try apply uint_digits. congruence. }
  pose proof (NilZero.usu d Hd) as Hu.
  destruct (chars (NilZero.string_of_uint d)) as [|c ds] eqn:E.
  - exfalso. destruct d; cbn in E; congruence.
  - pose proof (Forall_inv Hall) as Hc. cbn beta in Hc.
    unfold parse_number. cbn [app].
    rewrite (digit_not_minus c Hc).
    change (c :: ds ++ rest) with ((c :: ds) ++ rest).
    rewrite (span_digits_all _ _ Hall Hrest). rewrite Hz. cbn [app].
    rewrite <- E. unfold chars. rewrite string_of_list_ascii_of_string.
    unfold NilZero.int_of_string.
    destruct (NilZero.string_of_uint d) as [|a s'] eqn:Es; [discriminate|].
    cbn in E. injection E as -> _.
    pose proof (digit_not_minus c Hc) as Hm. unfold minus in Hm.
    rewrite Hm, Hu. reflexivity.
Qed.

Lemma neg_number d rest :
  d <> Nil -> no_leading_zero (chars (NilZero.string_of_uint d)) = true ->
  follow_ok rest = true ->
  parse_number (minus :: chars (NilZero.string_of_uint d) ++ rest)
  = Some (Z.of_int (Neg d), rest).
Proof.
  intros Hd Hz Hrest.
  assert (Hall : Forall (fun c => is_digit c = true) (chars (NilZero.string_of_uint d))).
  { destruct d; try apply uint_digits. congruence. }
  unfold parse_number. change (Ascii.eqb minus minus) with true. cbv iota.
  rewrite (span_digits_all _ _ Hall Hrest). rewrite Hz.
  change ([minus] ++ chars (NilZero.string_of_uint d))
    with (minus :: chars (NilZero.string_of_uint d)).
  cbn [string_of_list_ascii]. unfold chars. rewrite string_of_list_ascii_of_string.
  unfold NilZero.int_of_string. change (Ascii.eqb minus "-"%char) with true. cbv iota.
  rewrite (NilZero.usu d Hd). reflexivity.
Qed.

Lemma parse_number_print z rest :
  follow_ok rest = true -> parse_number (print_number z ++ rest) = Some (z, rest).
Proof.
  intros Hrest. unfold print_number. destruct z as [|p|p]; cbn [Z.to_int NilZero.string_of_int].
  - now destruct rest as [|c r]; [|cbn in Hrest |- *; destruct (is_digit c)].
  - rewrite nonneg_number;
      [|apply DecimalPos.Unsigned.to_uint_nonnil|apply canonical_numeral|assumption].
    f_equal. f_equal. apply (DecimalZ.of_to (Z.pos p)).
  - change (chars (String "-" ?s)) with (minus :: chars s).
    cbn [chars list_ascii_of_string app].
    change (list_ascii_of_string ?s) with (chars s).
    rewrite neg_number;
      [|apply DecimalPos.Unsigned.to_uint_nonnil|apply canonical_numeral|assumption].
    f_equal. f_equal. apply (DecimalZ.of_to (Z.neg p)).
Qed.


Lemma number_head z :
  exists c r, print_number z = c :: r /\ (is_digit c || Ascii.eqb c minus) = true.
Proof.
  unfold print_number. destruct z as [|p|p]; cbn [Z.to_int NilZero.string_of_int].
  - now exists "0"%char, [].
  - pose proof (DecimalPos.Unsigned.to_uint_nonnil p) as Hn.
    pose proof (uint_digits (Pos.to_uint p)) as Hd.
    destruct (Pos.to_uint p) eqn:E; try congruence;
      cbn in Hd |- *; eexists _, _; (split; [reflexivity|]); reflexivity.
  - now eexists minus, _.
Qed.

Section SeqFacts.
Context {A : Type} (pe : list ascii -> option (A * list ascii))
          (pr : A -> list ascii) (close : ascii).
Hypothesis close_not_digit : is_digit close = false.
Hypothesis close_not_comma : Ascii.eqb comma close = false.

Definition elem_ok (x : A) : Prop :=
    (exists c r, pr x = c :: r /\ Ascii.eqb c close = false) /\
    (forall rest, follow_ok rest = true -> pe (pr x ++ rest) = Some (x, rest)).

Lemma follow_tail r rest : follow_ok (print_tail pr close r ++ rest) = true.
  Proof using close_not_digit.
    destruct r; cbn; [now rewrite close_not_digit | reflexivity].
  Qed.

Lemma parse_tail_print r : forall n rest,
    Forall elem_ok r -> (length r < n)%nat ->
    parse_tail pe close n (print_tail pr close r ++ rest) = Some (r, rest).
  Proof using close_not_digit close_not_comma.
    induction r as [|y r IH]; intros n rest Hall Hn;
      (destruct n as [|n]; [cbn in Hn; lia|]); cbn [print_tail app parse_tail].
    - now rewrite Ascii.eqb_refl.
    - rewrite close_not_comma, Ascii.eqb_refl.
      pose proof (Forall_inv Hall) as [_ Hy].
      rewrite <- app_assoc, Hy by apply follow_tail.
      rewrite IH; [reflexivity | now apply Forall_inv_tail in Hall | cbn in Hn; lia].
  Qed.

Lemma parse_seq_print l n rest :
    Forall elem_ok l -> (length l <= n)%nat ->
    parse_seq pe close n (print_seq pr close l ++ rest) = Some (l, rest).
  Proof using close_not_digit close_not_comma.
    intros Hall Hn. destruct l as [|x r]; cbn [print_seq app parse_seq].
    - now rewrite Ascii.eqb_refl.
    - pose proof (Forall_inv Hall) as [(c & t & Hpr & Hc) Hx].
      rewrite <- app_assoc.
      assert (Hshape : pr x ++ print_tail pr close r ++ rest
                       = c :: t ++ print_tail pr close r ++ rest) by now rewrite Hpr.
      unfold parse_seq. rewrite Hshape. cbv beta iota. rewrite Hc.
      rewrite <- Hshape. rewrite Hx by apply follow_tail.
      rewrite parse_tail_print;
        [reflexivity | now apply Forall_inv_tail in Hall | cbn in Hn; lia].
  Qed.

Lemma print_seq_length (f : A -> nat) l :
    Forall (fun x => (f x <= length (pr x))%nat) l ->
    (list_sum (map f l) < length (print_seq pr close l))%nat.
  Proof using Type.
    intros Hall. destruct l as [|x r]; cbn [print_seq map]; [cbn; lia|].
    change (list_sum (f x :: map f r)) with (f x + list_sum (map f r))%nat.
    rewrite length_app. pose proof (Forall_inv Hall) as Hx. cbn beta in Hx.
    apply Forall_inv_tail in Hall.
    enough (list_sum (map f r) < length (print_tail pr close r))%nat by lia.
    induction Hall as [|y r Hy _ IH]; cbn [print_tail map length]; [cbn; lia|].
    change (list_sum (f y :: map f r)) with (f y + list_sum (map f r))%nat.
    rewrite length_app. lia.
  Qed.
End SeqFacts.

Lemma size_pos v : (1 <= size v)%nat.
Proof. destruct v; cbn; lia. Qed.

Lemma list_sum_bounds {A} (f : A -> nat) (l : list A) :
  (forall x, 1 <= f x)%nat ->
  (length l <= list_sum (map f l))%nat /\
  Forall (fun x => (f x <= list_sum (map f l))%nat) l.
Proof.
  intros Hf. induction l as [|x l [IH1 IH2]]; cbn [map length];
    [split; [cbn; lia|constructor]|].
  change (list_sum (f x :: map f l)) with (f x + list_sum (map f l))%nat.
  pose proof (Hf x). split; [lia|]. constructor; [lia|].
  eapply Forall_impl; [exact IH2|]. cbn beta. intros; lia.
Qed.

Lemma print_head v :
  exists c r, print v = c :: r /\ Ascii.eqb c "]"%char = false.
Proof.
  destruct v as [|[|]|z|s|l|l]; try (now eexists _, _).
  destruct (number_head z) as (c & r & E & Hc). exists c, r. split; [exact E|].
  apply orb_true_iff in Hc as [Hc|Hc].
  - now apply is_digit_not.
  - apply Ascii.eqb_eq in Hc. now subst c.
Qed.

Theorem parse_print v : forall fuel rest,
  (size v <= fuel)%nat -> follow_ok rest = true ->
  parse_value fuel (print v ++ rest) = Some (v, rest).
Proof.
  induction v as [|b|z|s|l IH|l IH] using json_ind'; intros fuel rest Hfuel Hrest;
    (destruct fuel as [|f]; [pose proof (size_pos JNull); cbn in Hfuel; lia|]).
  - reflexivity.
  - destruct b; reflexivity.
  - cbn [print]. destruct (number_head z) as (c & r & E & Hc).
    pose proof (parse_number_print z rest Hrest) as Hp.
    rewrite E in Hp |- *. cbn [app parse_value] in Hp |- *.
    now rewrite Hc, Hp.
  - cbn [print]. pose proof (parse_string_print s rest) as Hp.
    unfold print_string in Hp |- *. cbn [app parse_value] in Hp |- *.
    change (is_digit quote || Ascii.eqb quote minus) with false. cbv iota.
    change (Ascii.eqb quote quote) with true. cbv iota.
    now rewrite Hp.
  - cbn [print app parse_value].
    change (is_digit "["%char || Ascii.eqb "["%char minus) with false.
    change (Ascii.eqb "["%char quote) with false.
    change (Ascii.eqb "["%char "["%char) with true. cbv iota.
    cbn [size] in Hfuel.
    destruct (list_sum_bounds size l size_pos) as [Hlen Hsz].
    rewrite (parse_seq_print (parse_value f) print "]"%char); try reflexivity; [|lia].
    rewrite Forall_forall in IH, Hsz. apply Forall_forall. intros x Hx. split.
    + apply print_head.
    + intros rest' Hrest'. apply IH; [exact Hx | | exact Hrest'].
      specialize (Hsz x Hx). cbn beta in Hsz. lia.
  - cbn [print app parse_value].
    change (is_digit "{"%char || Ascii.eqb "{"%char minus) with false.
    change (Ascii.eqb "{"%char quote) with false.
    change (Ascii.eqb "{"%char "["%char) with false.
    change (Ascii.eqb "{"%char "{"%char) with true. cbv iota.
    cbn [size] in Hfuel.
    destruct (list_sum_bounds (fun kv => size (snd kv)) l (fun kv => size_pos (snd kv)))
      as [Hlen Hsz].
    rewrite (parse_seq_print (parse_member (parse_value f))
               (fun kv => print_string (fst kv) ++ colon :: print (snd kv)) "}"%char);
      try reflexivity; [|lia].
    rewrite Forall_forall in IH, Hsz. apply Forall_forall. intros [k x] Hx. split.
    + now eexists _, _.
    + intros rest' Hrest'. cbn [fst snd]. unfold parse_member.
      rewrite <- app_assoc, parse_string_print. cbn [app].
      change (Ascii.eqb colon colon) with true. cbv iota.
      rewrite (IH (k, x) Hx); [reflexivity | | exact Hrest'].
      specialize (Hsz (k, x) Hx). cbv beta in Hsz. cbn [snd] in Hsz |- *. lia.
Qed.

Lemma size_le_print v : (size v <= length (print v))%nat.
Proof.
  induction v as [|b|z|s|l IH|l IH] using json_ind'.
  - cbn. lia.
  - destruct b; cbn; lia.
  - destruct (number_head z) as (c & r & E & _). cbn [print size]. rewrite E. cbn. lia.
  - cbn. lia.
  - cbn [print size length].
    pose proof (print_seq_length print "]"%char size l IH). lia.
  - cbn [print size length].
    pose proof (print_seq_length
                  (fun kv => print_string (fst kv) ++ colon :: print (snd kv))
                  "}"%char (fun kv => size (snd kv)) l) as H.
    enough (list_sum (map (λ kv : string * json, size kv.2) l) <
         length
           (print_seq (λ kv : string * json, print_string kv.1 ++ colon :: print kv.2) "}" l))%nat by lia.
    apply H. eapply Forall_impl; [exact IH|]. intros [k x] Hx. cbn [fst snd] in *.
    rewrite length_app. cbn. lia.
Qed.

Lemma length_string_of_list l : String.length (string_of_list_ascii l) = length l.
Proof. induction l; cbn; congruence. Qed.

(** [JSON.parse(JSON.stringify(v))] is [v]. *)
Theorem JSON_roundtrip v : JSON_parse (JSON_stringify v) = Some v.
Proof.
  unfold JSON_parse, JSON_stringify, chars.
  rewrite list_ascii_of_string_of_list_ascii, length_string_of_list.
  rewrite <- (app_nil_r (print v)) at 2.
  rewrite parse_print; [reflexivity | | reflexivity].
  pose proof (size_le_print v). lia.
Qed.

(** The text of a value is never the empty string, hence always truthy. *)
Lemma JSON_stringify_nonempty v : String.eqb (JSON_stringify v) EmptyString = false.
Proof.
  unfold JSON_stringify. destruct (print_head v) as (c & r & E & _). now rewrite E.
Qed.

End JsonFacts.

(* ===================================================================== *)
(** * Running the monad *)
(* ===================================================================== *)

Local Open Scope js_scope.

Lemma bind_ok {A B} (m : M A) (k : A -> M B) w a :
  res (m w) = Ok a ->
  res (bind m k w) = res (k a (world (m w))) /\
  world (bind m k w) = world (k a (world (m w))) /\
  out (bind m k w) = out (m w) ++ out (k a (world (m w))).
Proof. intros H. unfold bind. now rewrite H. Qed.

Lemma bind_throw {A B} (m : M A) (k : A -> M B) w e :
  res (m w) = Throw e ->
  res (bind m k w) = Throw e /\
  world (bind m k w) = world (m w) /\
  out (bind m k w) = out (m w).
Proof. intros H. unfold bind. now rewrite H. Qed.

Lemma outcome_eq {A} (o o' : Outcome A) :
  res o = res o' -> world o = world o' -> out o = out o' -> o = o'.
Proof. destruct o, o'; cbn; congruence. Qed.

Lemma bind_quiet {A B} (m : M A) (k : A -> M B) w a w' :
  m w = mkOutcome (Ok a) w' [] -> bind m k w = k a w'.
Proof. intros H. unfold bind. rewrite H. cbn. now destruct (k a w'). Qed.

Lemma bind_thrown {A B} (m : M A) (k : A -> M B) w e w' o :
  m w = mkOutcome (Throw e) w' o -> bind m k w = mkOutcome (Throw e) w' o.
Proof. intros H. unfold bind. now rewrite H. Qed.

Lemma bind_emit {B} client event payload (k : unit -> M B) w :
  bind (VoiceGateway.client_emit client event payload) k w
  = mkOutcome (res (k tt w)) (world (k tt w))
              (ClientEmit client event payload :: out (k tt w)).
Proof. reflexivity. Qed.

(* ===================================================================== *)
(** * The Redis client *)
(* ===================================================================== *)

Lemma redis_get_up key w :
  redis_up (redis w) = true ->
  Redis.get key w = mkOutcome (Ok (Redis.live (redis w) (now w) key)) w [].
Proof. intros H. unfold Redis.get. now rewrite H. Qed.

Lemma redis_get_down key w :
  redis_up (redis w) = false ->
  Redis.get key w = mkOutcome (Throw Redis.unavailable) w [].
Proof. intros H. unfold Redis.get. now rewrite H. Qed.

Lemma redis_set_up key v ttl w :
  redis_up (redis w) = true ->
  Redis.set_EX key v ttl w =
  mkOutcome (Ok tt)
    (set_redis (mkRedis true (<[key := (v, now w + ttl * 1000)]> (redis_data (redis w)))) w)
    [].
Proof. intros H. unfold Redis.set_EX. now rewrite H. Qed.

Lemma redis_set_down key v ttl w :
  redis_up (redis w) = false ->
  Redis.set_EX key v ttl w = mkOutcome (Throw Redis.unavailable) w [].
Proof. intros H. unfold Redis.set_EX. now rewrite H. Qed.

(** Reading a key just written, [ms] milliseconds later. *)
Lemma live_after_set key v ttl ms w :
  Redis.live
    (mkRedis true (<[key := (v, now w + ttl * 1000)]> (redis_data (redis w))))
    (now w + Z.of_N ms) key
  = if Z.of_N ms <? ttl * 1000 then Some v else None.
Proof.
  unfold Redis.live. cbn [redis_data]. rewrite lookup_insert_eq.
  destruct (Z.ltb_spec (Z.of_N ms) (ttl * 1000)), (Z.ltb_spec (now w + Z.of_N ms) (now w + ttl * 1000));
    (reflexivity || lia).
Qed.

Lemma parse_stringify_ok v w :
  JSON_parse_or_throw (JSON_stringify v) w = mkOutcome (Ok v) w [].
Proof. unfold JSON_parse_or_throw. now rewrite JsonFacts.JSON_roundtrip. Qed.

Lemma stringify_truthy v : str_truthy (Some (JSON_stringify v)) = true.
Proof. cbn. now rewrite JsonFacts.JSON_stringify_nonempty. Qed.

(* ===================================================================== *)
(** * The cache classes, method by method *)
(* ===================================================================== *)

(** The fallback cache never throws, and reading it changes nothing. *)
Lemma session_get_total sessionId w :
  SessionCache.get sessionId w = mkOutcome (Ok (session_value sessionId w)) w [].
Proof.
  unfold SessionCache.get, session_value, try_catch, bind, Redis.get,
    SessionCache.memory_get, read, JSON_parse_or_throw.
  destruct (redis_up (redis w)); cbn; [|reflexivity].
  destruct (Redis.live (redis w) (now w) (SessionCache.key sessionId)) as [d|]; cbn;
    [|reflexivity].
  destruct (String.eqb d EmptyString); cbn; [reflexivity|].
  destruct (JSON_parse d); reflexivity.
Qed.

Lemma session_set_total sessionId payload w :
  SessionCache.set sessionId payload w =
  mkOutcome (Ok tt)
    (if redis_up (redis w)
     then set_redis
            (mkRedis true
               (<[SessionCache.key sessionId :=
                    (JSON_stringify payload, now w + 1800 * 1000)]>
                  (redis_data (redis w))))
            (set_memory (<[sessionId := payload]> (memory w)) w)
     else set_memory (<[sessionId := payload]> (memory w)) w)
    [].
Proof.
  unfold SessionCache.set, try_catch, bind, modify, Redis.set_EX, ret. cbn.
  destruct (redis_up (redis w)) eqn:E; cbn; rewrite ?E; reflexivity.
Qed.

Lemma store_only_set_up sessionId payload w :
  redis_up (redis w) = true ->
  SessionCacheStoreOnly.set sessionId payload w =
  mkOutcome (Ok tt)
    (set_redis
       (mkRedis true
          (<[SessionCacheStoreOnly.key sessionId :=
               (JSON_stringify payload, now w + 1800 * 1000)]>
             (redis_data (redis w)))) w)
    [].
Proof. intros H. unfold SessionCacheStoreOnly.set. now rewrite redis_set_up. Qed.

(** A JSON-valued [get] of the shape [data ? JSON.parse(data) : null]. *)
Lemma parsed_get_up key w :
  redis_up (redis w) = true ->
  (data <- Redis.get key ;;
   if str_truthy data
   then JSON_parse_or_throw (match data with Some d => d | None => EmptyString end)
   else ret JNull) w
  = match Redis.live (redis w) (now w) key with
    | Some d =>
      if String.eqb d EmptyString then mkOutcome (Ok JNull) w []
      else match JSON_parse d with
           | Some v => mkOutcome (Ok v) w []
           | None => mkOutcome (Throw (SyntaxError "Unexpected token in JSON")) w []
           end
    | None => mkOutcome (Ok JNull) w []
    end.
Proof.
  intros H. unfold bind. rewrite redis_get_up by exact H. cbn.
  destruct (Redis.live (redis w) (now w) key) as [d|]; cbn; [|reflexivity].
  destruct (String.eqb d EmptyString); cbn; [reflexivity|].
  unfold JSON_parse_or_throw. destruct (JSON_parse d); reflexivity.
Qed.

Lemma exact_get_total lang text w :
  ExactResponseCache.get lang text w
  = mkOutcome (parsed_result (ExactResponseCache.key lang text) w) w [].
Proof.
  unfold ExactResponseCache.get, parsed_result.
  destruct (redis_up (redis w)) eqn:E.
  - rewrite (parsed_get_up _ w E).
    destruct (Redis.live (redis w) (now w) (ExactResponseCache.key lang text)) as [d|];
      [|reflexivity].
    destruct (String.eqb d EmptyString); [reflexivity|].
    destruct (JSON_parse d); reflexivity.
  - unfold bind. now rewrite (redis_get_down _ w E).
Qed.

Lemma live_written key value ttl ms w :
  Redis.live (redis (written key value ttl ms w)) (now (written key value ttl ms w)) key
  = if Z.of_N ms <? ttl * 1000 then Some value else None.
Proof. unfold written, later. cbn. apply live_after_set. Qed.

Lemma up_written key value ttl ms w : redis_up (redis (written key value ttl ms w)) = true.
Proof. reflexivity. Qed.

Lemma later_written key value ttl d1 d2 w :
  later d2 (written key value ttl d1 w) = written key value ttl (d1 + d2) w.
Proof.
  unfold written, later, set_now, set_redis. cbn. f_equal. lia.
Qed.

(* ===================================================================== *)
(** * C3: cache round trip *)
(* ===================================================================== *)

Section RoundTrip.
Variable w : World.
Hypothesis up : redis_up (redis w) = true.

Lemma exact_round_trip lang text response ms :
    Z.of_N ms < 60 * 1000 ->
    res (ExactResponseCache.get lang text
           (later ms (world (ExactResponseCache.set lang text response w))))
    = Ok response.
  Proof using up.
    intros Hms. unfold ExactResponseCache.set. rewrite redis_set_up by exact up.
    cbn [world]. fold (written (ExactResponseCache.key lang text)
                               (JSON_stringify response) 60 ms w).
    unfold ExactResponseCache.get. rewrite parsed_get_up by apply up_written.
    rewrite live_written. destruct (Z.ltb_spec (Z.of_N ms) (60 * 1000)); [|lia].
    now rewrite JsonFacts.JSON_stringify_nonempty, JsonFacts.JSON_roundtrip.
  Qed.

Lemma store_only_round_trip sessionId payload ms :
    Z.of_N ms < 1800 * 1000 ->
    res (SessionCacheStoreOnly.get sessionId
           (later ms (world (SessionCacheStoreOnly.set sessionId payload w))))
    = Ok payload.
  Proof using up.
    intros Hms. rewrite store_only_set_up by exact up.
    cbn [world]. fold (written (SessionCacheStoreOnly.key sessionId)
                               (JSON_stringify payload) 1800 ms w).
    unfold SessionCacheStoreOnly.get. rewrite parsed_get_up by apply up_written.
    rewrite live_written. destruct (Z.ltb_spec (Z.of_N ms) (1800 * 1000)); [|lia].
    now rewrite JsonFacts.JSON_stringify_nonempty, JsonFacts.JSON_roundtrip.
  Qed.

Lemma session_round_trip sessionId payload ms :
    Z.of_N ms < 1800 * 1000 ->
    res (SessionCache.get sessionId
           (later ms (world (SessionCache.set sessionId payload w))))
    = Ok payload.
  Proof using up.
    intros Hms. rewrite session_set_total, session_get_total, up. cbn [world res].
    unfold session_value.
    change (redis_up (redis (later ms ?x))) with (redis_up (redis x)). cbn [redis_up redis set_redis].
    unfold later. cbn [now redis set_now set_redis set_memory].
    rewrite live_after_set. destruct (Z.ltb_spec (Z.of_N ms) (1800 * 1000)); [|lia].
    now rewrite JsonFacts.JSON_stringify_nonempty, JsonFacts.JSON_roundtrip.
  Qed.

Lemma stt_round_trip audioHash transcript ms :
    Z.of_N ms < 300 * 1000 ->
    res (SttRawCache.get audioHash
           (later ms (world (SttRawCache.set audioHash transcript w))))
    = Ok (Some transcript).
  Proof using up.
    intros Hms. unfold SttRawCache.set. rewrite redis_set_up by exact up.
    cbn [world]. fold (written (SttRawCache.key audioHash) transcript 300 ms w).
    unfold SttRawCache.get. rewrite redis_get_up by apply up_written. cbn [res].
    rewrite live_written. now destruct (Z.ltb_spec (Z.of_N ms) (300 * 1000)); [|lia].
  Qed.

Lemma tts_round_trip responseId audio ms :
    Z.of_N ms < 300 * 1000 ->
    res (TtsRelayCache.get responseId
           (later ms (world (TtsRelayCache.set responseId audio w))))
    = Ok (Some audio).
  Proof using up.
    intros Hms. unfold TtsRelayCache.set. rewrite redis_set_up by exact up.
    cbn [world]. fold (written (TtsRelayCache.key responseId) audio 300 ms w).
    unfold TtsRelayCache.get, Redis.getBuffer.
    rewrite redis_get_up by apply up_written. cbn [res].
    rewrite live_written. now destruct (Z.ltb_spec (Z.of_N ms) (300 * 1000)); [|lia].
  Qed.
End RoundTrip.

(** Claim C3.  For every cache role, key and value: while the store accepts
    commands, [set(key, value)] followed by [get(key)] before the TTL of the
    role has elapsed (1800 s session, 60 s exact response, 300 s raw
    transcript, 300 s audio relay) returns the value that was stored. *)
Theorem cache_round_trip (w : World) :
  redis_up (redis w) = true ->
  (forall sessionId payload ms, Z.of_N ms < 1800 * 1000 ->
     res (SessionCache.get sessionId
            (later ms (world (SessionCache.set sessionId payload w)))) = Ok payload) /\
  (forall sessionId payload ms, Z.of_N ms < 1800 * 1000 ->
     res (SessionCacheStoreOnly.get sessionId
            (later ms (world (SessionCacheStoreOnly.set sessionId payload w)))) = Ok payload) /\
  (forall lang text response ms, Z.of_N ms < 60 * 1000 ->
     res (ExactResponseCache.get lang text
            (later ms (world (ExactResponseCache.set lang text response w)))) = Ok response) /\
  (forall audioHash transcript ms, Z.of_N ms < 300 * 1000 ->
     res (SttRawCache.get audioHash
            (later ms (world (SttRawCache.set audioHash transcript w)))) = Ok (Some transcript)) /\
  (forall responseId audio ms, Z.of_N ms < 300 * 1000 ->
     res (TtsRelayCache.get responseId
            (later ms (world (TtsRelayCache.set responseId audio w)))) = Ok (Some audio)).
Proof.
  intros up. repeat split; intros.
  - now apply session_round_trip.
  - now apply store_only_round_trip.
  - now apply exact_round_trip.
  - now apply stt_round_trip.
  - now apply tts_round_trip.
Qed.

(* ===================================================================== *)
(** * C4: expiry *)
(* ===================================================================== *)

Section Expiry.
Variable w : World.
Hypothesis up : redis_up (redis w) = true.

Lemma exact_expires lang text response ms :
    60 * 1000 <= Z.of_N ms ->
    res (ExactResponseCache.get lang text
           (later ms (world (ExactResponseCache.set lang text response w))))
    = Ok JNull.
  Proof using up.
    intros Hms. unfold ExactResponseCache.set. rewrite redis_set_up by exact up.
    cbn [world]. fold (written (ExactResponseCache.key lang text)
                               (JSON_stringify response) 60 ms w).
    unfold ExactResponseCache.get. rewrite parsed_get_up by apply up_written.
    rewrite live_written. now destruct (Z.ltb_spec (Z.of_N ms) (60 * 1000)); [lia|].
  Qed.

Lemma store_only_expires sessionId payload ms :
    1800 * 1000 <= Z.of_N ms ->
    res (SessionCacheStoreOnly.get sessionId
           (later ms (world (SessionCacheStoreOnly.set sessionId payload w))))
    = Ok JNull.
  Proof using up.
    intros Hms. rewrite store_only_set_up by exact up.
    cbn [world]. fold (written (SessionCacheStoreOnly.key sessionId)
                               (JSON_stringify payload) 1800 ms w).
    unfold SessionCacheStoreOnly.get. rewrite parsed_get_up by apply up_written.
    rewrite live_written. now destruct (Z.ltb_spec (Z.of_N ms) (1800 * 1000)); [lia|].
  Qed.

  (** The fallback map has no TTL: the session cache goes on answering. *)
Lemma session_outlives_ttl sessionId payload ms :
    1800 * 1000 <= Z.of_N ms ->
    res (SessionCache.get sessionId
           (later ms (world (SessionCache.set sessionId payload w))))
    = Ok payload.
  Proof using up.
    intros Hms. rewrite session_set_total, session_get_total, up. cbn [world res].
    unfold session_value, later.
    cbn [now redis redis_up memory set_now set_redis set_memory].
    rewrite live_after_set. destruct (Z.ltb_spec (Z.of_N ms) (1800 * 1000)); [lia|].
    now rewrite lookup_insert_eq.
  Qed.

Lemma stt_expires audioHash transcript ms :
    300 * 1000 <= Z.of_N ms ->
    res (SttRawCache.get audioHash
           (later ms (world (SttRawCache.set audioHash transcript w))))
    = Ok None.
  Proof using up.
    intros Hms. unfold SttRawCache.set. rewrite redis_set_up by exact up.
    cbn [world]. fold (written (SttRawCache.key audioHash) transcript 300 ms w).
    unfold SttRawCache.get. rewrite redis_get_up by apply up_written. cbn [res].
    rewrite live_written. now destruct (Z.ltb_spec (Z.of_N ms) (300 * 1000)); [lia|].
  Qed.

Lemma tts_expires responseId audio ms :
    300 * 1000 <= Z.of_N ms ->
    TtsRelayCache.get responseId
      (later ms (world (TtsRelayCache.set responseId audio w)))
    = mkOutcome (Ok None) (later ms (world (TtsRelayCache.set responseId audio w))) [].
  Proof using up.
    intros Hms. unfold TtsRelayCache.set. rewrite redis_set_up by exact up.
    cbn [world]. fold (written (TtsRelayCache.key responseId) audio 300 ms w).
    unfold TtsRelayCache.get, Redis.getBuffer.
    rewrite redis_get_up by apply up_written.
    rewrite live_written. now destruct (Z.ltb_spec (Z.of_N ms) (300 * 1000)); [lia|].
  Qed.

Lemma repeat_last_after_ttl client responseId audio ms :
    300 * 1000 <= Z.of_N ms ->
    out (VoiceGateway.repeatLast client responseId
           (later ms (world (TtsRelayCache.set responseId audio w)))) = [] /\
    res (VoiceGateway.repeatLast client responseId
           (later ms (world (TtsRelayCache.set responseId audio w)))) = Ok tt.
  Proof using up.
    intros Hms. unfold VoiceGateway.repeatLast, bind.
    rewrite tts_expires by exact Hms. cbn. split; reflexivity.
  Qed.
End Expiry.

(** Claim C4 (amended).  Once the TTL of a role has elapsed since the last
    [set], [get] returns absent for the store-only session cache, the exact
    response cache, the raw transcript cache and the audio relay cache, and a
    [repeat_last] then emits nothing.  The session cache with the fallback
    map is the exception: it goes on returning the payload last set in this
    process. *)
Theorem cache_expiry (w : World) :
  redis_up (redis w) = true ->
  (forall sessionId payload ms, 1800 * 1000 <= Z.of_N ms ->
     res (SessionCacheStoreOnly.get sessionId
            (later ms (world (SessionCacheStoreOnly.set sessionId payload w)))) = Ok JNull) /\
  (forall lang text response ms, 60 * 1000 <= Z.of_N ms ->
     res (ExactResponseCache.get lang text
            (later ms (world (ExactResponseCache.set lang text response w)))) = Ok JNull) /\
  (forall audioHash transcript ms, 300 * 1000 <= Z.of_N ms ->
     res (SttRawCache.get audioHash
            (later ms (world (SttRawCache.set audioHash transcript w)))) = Ok None) /\
  (forall responseId audio ms, 300 * 1000 <= Z.of_N ms ->
     res (TtsRelayCache.get responseId
            (later ms (world (TtsRelayCache.set responseId audio w)))) = Ok None) /\
  (forall client responseId audio ms, 300 * 1000 <= Z.of_N ms ->
     out (VoiceGateway.repeatLast client responseId
            (later ms (world (TtsRelayCache.set responseId audio w)))) = [] /\
     res (VoiceGateway.repeatLast client responseId
            (later ms (world (TtsRelayCache.set responseId audio w)))) = Ok tt) /\
  (forall sessionId payload ms, 1800 * 1000 <= Z.of_N ms ->
     res (SessionCache.get sessionId
            (later ms (world (SessionCache.set sessionId payload w)))) = Ok payload).
Proof.
  intros up. repeat apply conj; intros.
  - now apply store_only_expires.
  - now apply exact_expires.
  - now apply stt_expires.
  - now rewrite tts_expires.
  - now apply repeat_last_after_ttl.
  - now apply session_outlives_ttl.
Qed.

Lemma cache_expiry_witness :
  redis_up (redis fresh) = true /\
  res (TtsRelayCache.get "r1"
         (later 300000 (world (TtsRelayCache.set "r1" "mp3-bytes" fresh)))) = Ok None.
Proof.
  split; [reflexivity|].
  destruct (cache_expiry fresh eq_refl) as (_ & _ & _ & H & _).
  apply (H "r1" "mp3-bytes" 300000%N). discriminate.
Defined.

(** Claim C4 as stated fails for the session role: 1800 s and one
    millisecond after [set], [get] still returns the payload. *)
Lemma session_cache_never_forgets :
  ~ forgets_after SessionCache.set SessionCache.get JNull 1800.
Proof.
  intros H.
  specialize (H fresh "s1" (JObj [("connectedAt", JNum 0)]) 1800001%N eq_refl).
  rewrite session_outlives_ttl in H by (reflexivity || lia).
  specialize (H ltac:(lia)). discriminate H.
Qed.

Lemma cache_round_trip_witness :
  redis_up (redis fresh) = true /\
  res (SessionCache.get "s1"
         (later 1799999
            (world (SessionCache.set "s1" (JObj [("connectedAt", JNum 0)]) fresh))))
  = Ok (JObj [("connectedAt", JNum 0)]).
Proof.
  split; [reflexivity|].
  destruct (cache_round_trip fresh eq_refl) as (H & _).
  exact (H "s1" (JObj [("connectedAt", JNum 0)]) 1799999%N eq_refl).
Defined.

(* ===================================================================== *)
(** * C5: duplicate suppression *)
(* ===================================================================== *)

Lemma isDuplicate_up sessionId chunk w :
  redis_up (redis w) = true ->
  AudioDedupCache.isDuplicate sessionId chunk w =
  if str_truthy (Redis.live (redis w) (now w) (marker sessionId chunk w))
  then mkOutcome (Ok true) w []
  else mkOutcome (Ok false) (written (marker sessionId chunk w) "1" 2 0 w) [].
Proof.
  intros up. unfold AudioDedupCache.isDuplicate, AudioDedupCache.hash, bind, read.
  cbn [res world out]. rewrite redis_get_up by exact up. cbn [res world out].
  fold (marker sessionId chunk w).
  destruct (str_truthy (Redis.live (redis w) (now w) (marker sessionId chunk w)));
    [reflexivity|].
  cbn [res world out]. rewrite redis_set_up by exact up. cbn.
  unfold written, later. cbn. rewrite Z.add_0_r.
  destruct w; reflexivity.
Qed.

(** A key of the store that is not the one written keeps its entry. *)
Lemma live_written_other key value ttl ms w key' :
  key' <> key ->
  Redis.live (redis (written key value ttl ms w)) (now (written key value ttl ms w)) key'
  = Redis.live (redis w) (now w + Z.of_N ms) key'.
Proof.
  intros Hne. unfold written, later, Redis.live. cbn.
  now rewrite lookup_insert_ne by congruence.
Qed.

(** An entry that has expired stays expired. *)
Lemma live_none_later r t t' key :
  Redis.live r t key = None -> t <= t' -> Redis.live r t' key = None.
Proof.
  unfold Redis.live. destruct (redis_data r !! key) as [[v e]|]; [|reflexivity].
  destruct (Z.ltb_spec t e); [discriminate|]. intros _ Ht.
  now destruct (Z.ltb_spec t' e); [lia|].
Qed.

Lemma hex_colon_free n : colon_free (to_hex n).
Proof.
  unfold to_hex.
  assert (H : forall d, colon_free (HexadecimalString.NilEmpty.string_of_uint d)).
  { induction d; intros a b E; destruct a as [|c a]; cbn in E; try discriminate E;
      injection E as _ E; exact (IHd _ _ E). }
  unfold HexadecimalString.NilZero.string_of_uint.
  destruct (N.to_hex_uint n) as [|d|d|d|d|d|d|d|d|d|d|d|d|d|d|d|d];
    try match goal with
        | |- colon_free (HexadecimalString.NilEmpty.string_of_uint ?u) => apply (H u)
        end.
  intros a b E. destruct a as [|c [|c' a]]; cbn in E; discriminate E.
Qed.

Lemma scope_and_hash_injective s s' h h' :
  colon_free h -> colon_free h' ->
  String.append s (String ":" h) = String.append s' (String ":" h') ->
  s = s' /\ h = h'.
Proof.
  revert s'. induction s as [|c s IH]; intros [|c' s'] Hh Hh' E; cbn in E.
  - injection E as ->. now split.
  - injection E as <- E. exfalso. exact (Hh _ _ E).
  - injection E as -> E. exfalso. symmetry in E. exact (Hh' _ _ E).
  - injection E as -> E. destruct (IH s' Hh Hh' E) as [-> ->]. now split.
Qed.

(** Markers are per scope and per hash of the content. *)
Lemma marker_injective sessionId chunk sessionId' chunk' w :
  marker sessionId chunk w = marker sessionId' chunk' w ->
  sessionId = sessionId' /\ chunk_hash chunk w = chunk_hash chunk' w.
Proof.
  unfold marker, AudioDedupCache.key, chunk_hash. intros E.
  cbn [String.append] in E.
  repeat (injection E as E).
  apply scope_and_hash_injective in E; [exact E| |]; apply hex_colon_free.
Qed.

(** Claim C5.  With no marker present, the first [isDuplicate(scope, bytes)]
    returns false and records the marker; a second call with the same scope
    and bytes less than 2 s later returns true (and leaves the marker as it
    is); a call 2 s or more after the marker was written returns false
    again.  The marker is that of the scope and of the content, taken by its
    32-bit hash: two calls share a marker only if they have the same scope
    and contents of the same hash, and a call for another scope, or for a
    content of another hash, that has no marker of its own is not
    suppressed by this one. *)
Theorem dedup_window (w : World) (sessionId chunk : string) (d1 d2 : N) :
  redis_up (redis w) = true ->
  Redis.live (redis w) (now w) (marker sessionId chunk w) = None ->
  let first := AudioDedupCache.isDuplicate sessionId chunk w in
  let second := AudioDedupCache.isDuplicate sessionId chunk (later d1 (world first)) in
  res first = Ok false /\
  Redis.live (redis (world first)) (now w) (marker sessionId chunk w) = Some "1" /\
  (Z.of_N d1 < 2 * 1000 ->
     res second = Ok true /\
     (2 * 1000 <= Z.of_N d1 + Z.of_N d2 ->
        res (AudioDedupCache.isDuplicate sessionId chunk (later d2 (world second)))
        = Ok false)) /\
  (2 * 1000 <= Z.of_N d1 -> res second = Ok false) /\
  (forall sessionId' chunk',
     marker sessionId' chunk' w = marker sessionId chunk w ->
     sessionId' = sessionId /\ chunk_hash chunk' w = chunk_hash chunk w) /\
  (forall sessionId' chunk',
     sessionId' <> sessionId \/ chunk_hash chunk' w <> chunk_hash chunk w ->
     Redis.live (redis w) (now w) (marker sessionId' chunk' w) = None ->
     res (AudioDedupCache.isDuplicate sessionId' chunk' (later d1 (world first)))
     = Ok false).
Proof.
  intros up fresh_key first second. subst first second.
  rewrite (isDuplicate_up sessionId chunk w up), fresh_key. cbn [str_truthy res world].
  assert (Hw : world (mkOutcome (Ok false) (written (marker sessionId chunk w) "1" 2 0 w) [])
               = written (marker sessionId chunk w) "1" 2 0 w) by reflexivity.
  split; [reflexivity|]. split.
  { pose proof (live_written (marker sessionId chunk w) "1" 2 0 w) as L.
    unfold written, later in L |- *. cbn in L |- *. rewrite Z.add_0_r in L. exact L. }
  assert (Hlater : forall d,
    later d (written (marker sessionId chunk w) "1" 2 0 w)
    = written (marker sessionId chunk w) "1" 2 d w).
  { intros d. now rewrite later_written. }
  assert (Hmark : forall d,
    marker sessionId chunk (written (marker sessionId chunk w) "1" 2 d w)
    = marker sessionId chunk w) by reflexivity.
  rewrite Hlater. split; [|split; [|split]].
  - intros Hd1.
    rewrite isDuplicate_up by apply up_written.
    rewrite Hmark, live_written.
    destruct (Z.ltb_spec (Z.of_N d1) (2 * 1000)); [|lia].
    cbn [str_truthy String.eqb negb res world]. split; [reflexivity|].
    intros Hd2.
    rewrite later_written, isDuplicate_up by apply up_written.
    rewrite Hmark, live_written.
    now destruct (Z.ltb_spec (Z.of_N (d1 + d2)) (2 * 1000)); [lia|].
  - intros Hd1.
    rewrite isDuplicate_up by apply up_written.
    rewrite Hmark, live_written.
    now destruct (Z.ltb_spec (Z.of_N d1) (2 * 1000)); [lia|].
  - intros sessionId' chunk' E. now apply marker_injective.
  - intros sessionId' chunk' Hother Hnone.
    rewrite isDuplicate_up by apply up_written.
    change (marker sessionId' chunk' (written (marker sessionId chunk w) "1" 2 d1 w))
      with (marker sessionId' chunk' w).
    rewrite live_written_other.
    + rewrite (live_none_later _ _ _ _ Hnone) by lia. reflexivity.
    + intros E. apply marker_injective in E as [E1 E2]. destruct Hother; contradiction.
Qed.

Lemma dedup_window_witness :
  redis_up (redis fresh) = true /\
  Redis.live (redis fresh) (now fresh) (marker "s1" "chunk" fresh) = None /\
  res (AudioDedupCache.isDuplicate "s1" "chunk" fresh) = Ok false /\
  res (AudioDedupCache.isDuplicate "s1" "chunk"
         (later 1999 (world (AudioDedupCache.isDuplicate "s1" "chunk" fresh)))) = Ok true /\
  res (AudioDedupCache.isDuplicate "s1" "chunk"
         (later 2000 (world (AudioDedupCache.isDuplicate "s1" "chunk" fresh)))) = Ok false /\
  res (AudioDedupCache.isDuplicate "s2" "chunk"
         (later 1999 (world (AudioDedupCache.isDuplicate "s1" "chunk" fresh)))) = Ok false.
Proof.
  pose proof (dedup_window fresh "s1" "chunk" 1999 1 eq_refl eq_refl)
    as (H1 & _ & H2 & _ & _ & H4).
  pose proof (dedup_window fresh "s1" "chunk" 2000 0 eq_refl eq_refl) as (_ & _ & _ & H3 & _).
  split; [reflexivity|]. split; [reflexivity|]. split; [exact H1|]. split; [|split].
  - apply H2. reflexivity.
  - apply H3. cbv. discriminate.
  - apply (H4 "s2" "chunk"); [left; discriminate | reflexivity].
Defined.

(* ===================================================================== *)
(** * C2: failures of the backing store *)
(* ===================================================================== *)

(** Claim C2 (the code departs from it).  While the store rejects commands,
    only the session cache with the fallback map absorbs the failure: its
    [get] answers from the map and its [set] completes.  In every other cache
    class the rejection comes out of [get] and [set] as an exception. *)
Theorem store_failure_propagates (w : World) :
  redis_up (redis w) = false ->
  (forall lang text,
     res (ExactResponseCache.get lang text w) = Throw Redis.unavailable) /\
  (forall lang text response,
     res (ExactResponseCache.set lang text response w) = Throw Redis.unavailable) /\
  (forall audioHash, res (SttRawCache.get audioHash w) = Throw Redis.unavailable) /\
  (forall audioHash transcript,
     res (SttRawCache.set audioHash transcript w) = Throw Redis.unavailable) /\
  (forall responseId, res (TtsRelayCache.get responseId w) = Throw Redis.unavailable) /\
  (forall responseId audio,
     res (TtsRelayCache.set responseId audio w) = Throw Redis.unavailable) /\
  (forall sessionId chunk,
     res (AudioDedupCache.isDuplicate sessionId chunk w) = Throw Redis.unavailable) /\
  (forall sessionId,
     res (SessionCacheStoreOnly.get sessionId w) = Throw Redis.unavailable) /\
  (forall sessionId payload,
     res (SessionCacheStoreOnly.set sessionId payload w) = Throw Redis.unavailable) /\
  (forall sessionId,
     res (SessionCache.get sessionId w)
     = Ok (match memory w !! sessionId with Some v => v | None => JNull end)) /\
  (forall sessionId payload, res (SessionCache.set sessionId payload w) = Ok tt).
Proof.
  intros down. repeat apply conj; intros.
  - unfold ExactResponseCache.get, bind. now rewrite redis_get_down.
  - unfold ExactResponseCache.set. now rewrite redis_set_down.
  - unfold SttRawCache.get. now rewrite redis_get_down.
  - unfold SttRawCache.set. now rewrite redis_set_down.
  - unfold TtsRelayCache.get, Redis.getBuffer. now rewrite redis_get_down.
  - unfold TtsRelayCache.set. now rewrite redis_set_down.
  - unfold AudioDedupCache.isDuplicate, AudioDedupCache.hash, bind, read.
    cbn [res world out]. now rewrite redis_get_down.
  - unfold SessionCacheStoreOnly.get, bind. now rewrite redis_get_down.
  - unfold SessionCacheStoreOnly.set. now rewrite redis_set_down.
  - rewrite session_get_total. unfold session_value. now rewrite down.
  - now rewrite session_set_total.
Qed.

Lemma store_failure_propagates_witness :
  redis_up (redis fresh_without_redis) = false /\
  res (ExactResponseCache.get "en" "hi" fresh_without_redis) = Throw Redis.unavailable.
Proof.
  split; [reflexivity|].
  apply (store_failure_propagates fresh_without_redis eq_refl).
Defined.

(* ===================================================================== *)
(** * C8: construction of the synthesis service *)
(* ===================================================================== *)

(** Claim C8.  The constructor of [PollyService] throws when the access key
    id or the secret access key is missing from the environment (an empty
    value counts as missing); with both present it succeeds whatever else is
    configured, the region defaulting to us-east-1. *)
Theorem polly_credentials (e : gmap string string) :
  (str_truthy (e !! "AWS_ACCESS_KEY_ID") = false \/
   str_truthy (e !! "AWS_SECRET_ACCESS_KEY") = false ->
   PollyService.constructor e
   = Throw (Error "AWS credentials not found in environment variables")) /\
  (forall id secret,
     e !! "AWS_ACCESS_KEY_ID" = Some id -> id <> EmptyString ->
     e !! "AWS_SECRET_ACCESS_KEY" = Some secret -> secret <> EmptyString ->
     PollyService.constructor e
     = Ok (PollyService.mkPollyClient
             (str_or (e !! "AWS_REGION") "us-east-1") id secret)).
Proof.
  unfold PollyService.constructor. split.
  - intros [H|H]; rewrite H; [reflexivity|].
    now destruct (str_truthy (e !! "AWS_ACCESS_KEY_ID")).
  - intros id secret Hid Hne Hsec Hne'. rewrite Hid, Hsec. cbn.
    apply String.eqb_neq in Hne, Hne'. now rewrite Hne, Hne'.
Qed.

Lemma polly_credentials_witness :
  PollyService.constructor ∅
  = Throw (Error "AWS credentials not found in environment variables") /\
  PollyService.constructor
    (<["AWS_ACCESS_KEY_ID" := "AKIA"]> (<["AWS_SECRET_ACCESS_KEY" := "s3cret"]> ∅))
  = Ok (PollyService.mkPollyClient "us-east-1" "AKIA" "s3cret").
Proof.
  split.
  - apply (polly_credentials ∅). left. reflexivity.
  - pose proof (proj2 (polly_credentials
             (<["AWS_ACCESS_KEY_ID" := "AKIA"]> (<["AWS_SECRET_ACCESS_KEY" := "s3cret"]> ∅)))
             "AKIA" "s3cret") as H.
    rewrite H; [f_equal | vm_compute; reflexivity | discriminate
                | vm_compute; reflexivity | discriminate].
Defined.

(* ===================================================================== *)
(** * C6: opening a session *)
(* ===================================================================== *)

Lemma session_set_frame sessionId payload w :
  let w' := world (SessionCache.set sessionId payload w) in
  socket w' = socket w /\ activeFrontendClient w' = activeFrontendClient w /\
  sockets w' = sockets w /\ lib w' = lib w /\ env w' = env w /\ now w' = now w /\
  messageHandler w' = messageHandler w /\ redis_up (redis w') = redis_up (redis w).
Proof.
  rewrite session_set_total. cbn [world].
  destruct (redis_up (redis w)) eqn:E; cbn; rewrite ?E; repeat split.
Qed.

(** Claim C6.  [handleConnection] first emits [status] to the client; then,
    if the link to Python is down, it emits the local greeting to that
    client and sends nothing upstream, and if the link is up it sends
    [new_session] upstream and emits no greeting.  It never throws. *)
Theorem session_open_greeting (w : World) (client : string) :
  res (VoiceGateway.handleConnection client w) = Ok tt /\
  out (VoiceGateway.handleConnection client w) =
  ClientEmit client "status"
    (JObj [("message", JStr "Connected to TechGropse Server");
           ("type", JStr "success");
           ("session_id", JStr client)])
  :: (if link_up w
      then [PythonEmit "new_session" (JObj [])]
      else [ClientEmit client "text_response"
              (JObj [("response", JStr VoiceGateway.GREETING);
                     ("message", JStr VoiceGateway.GREETING);
                     ("type", JStr "initial_greeting");
                     ("show_chatbox", JBool true);
                     ("current_field", JStr "name")])]).
Proof.
  set (w1 := set_active (Some client) w).
  set (payload := obj [("connectedAt", Some (JNum (now w1)))]).
  pose proof (session_set_frame client payload w1) as (Hs & _). cbv zeta in Hs.
  assert (Hset : res (SessionCache.set client payload w1) = Ok tt
                 /\ out (SessionCache.set client payload w1) = [])
    by (rewrite session_set_total; now split).
  destruct Hset as [Hres Hout]. change (socket w1) with (socket w) in Hs.
  split.
  all: unfold VoiceGateway.handleConnection.
  all: unfold bind at 1 2 3, modify, read; cbn [res world out].
  all: fold w1; fold payload; rewrite Hres, ?Hout; cbn [res world out app].
  all: generalize dependent (world (SessionCache.set client payload w1)); intros w2 Hs.
  all: unfold bind, VoiceGateway.client_emit, act, PythonSocket.isConnected, read,
         PythonSocket.sendNewSession, PythonSocket.emit, PythonSocket.isConnected,
         bind, read, act, console_error.
  all: cbn [res world out]; unfold link_up.
  all: destruct w2 as [n2 e2 l2 r2 m2 s2 a2 k2 h2]; cbn [socket] in Hs; subst k2.
  all: destruct (socket w) as [[[|] sid]|]; cbn; reflexivity.
Qed.

(* ===================================================================== *)
(** * C7: failure of the synthesis engine *)
(* ===================================================================== *)

Lemma exact_get_after_session_set lang text sessionId payload w :
  parsed_result (ExactResponseCache.key lang text)
                (world (SessionCache.set sessionId payload w))
  = parsed_result (ExactResponseCache.key lang text) w.
Proof.
  rewrite session_set_total. cbn [world]. unfold parsed_result.
  destruct (redis_up (redis w)) eqn:E; cbn [redis redis_up set_redis set_memory];
    rewrite ?E; [|reflexivity].
  unfold Redis.live. cbn [redis redis_data now set_redis set_memory].
  rewrite lookup_insert_ne by (cbn; discriminate). reflexivity.
Qed.

Lemma synthesize_fails text voice e w :
  synthesis_error (polly_send (lib w) text voice) = Some e ->
  PollyService.synthesizeSpeech text voice w =
  mkOutcome (Throw e) w
    [PollySend text voice; LogError (String.append "Polly TTS error: " (message e))].
Proof.
  intros H. unfold PollyService.synthesizeSpeech, try_catch, bind, act, read, throw.
  cbn [res world out].
  destruct (polly_send (lib w) text voice) as [e'|[chunks|]]; cbn in H |- *;
    try discriminate; injection H as <-; reflexivity.
Qed.

Lemma emitPollyAudio_fails client text e w :
  synthesis_error (polly_send (lib w) text (polly_voice w)) = Some e ->
  VoiceGateway.emitPollyAudio client text w =
  mkOutcome (Ok tt) w
    [PollySend text (polly_voice w);
     LogError (String.append "Polly TTS error: " (message e));
     LogError (String.append "[Polly] TTS error: " (message e))].
Proof.
  intros H. unfold VoiceGateway.emitPollyAudio, try_catch, bind, read.
  cbn [res world out]. fold (polly_voice w).
  rewrite (synthesize_fails _ _ e w H). reflexivity.
Qed.

(** Claim C7.  When the engine fails, [emitPollyAudio] returns normally: the
    failure is logged and no [tts_audio] is emitted.  In [handleTextInput],
    on a cache hit, the client has by then received [text_response] and
    [stream_complete], in this order, and the handler returns normally. *)
Theorem synthesis_failure_absorbed
        (w : World) (client text : string) (session : list (string * json))
        (cached : json) (e : js_error) :
  res (SessionCache.get client w) = Ok (JObj session) ->
  res (ExactResponseCache.get "en" text w) = Ok cached ->
  truthy cached = true ->
  synthesis_error (polly_send (lib w) (cached_text cached) (polly_voice w)) = Some e ->
  (res (VoiceGateway.emitPollyAudio client (cached_text cached) w) = Ok tt /\
   out (VoiceGateway.emitPollyAudio client (cached_text cached) w) =
   [PollySend (cached_text cached) (polly_voice w);
    LogError (String.append "Polly TTS error: " (message e));
    LogError (String.append "[Polly] TTS error: " (message e))]) /\
  res (VoiceGateway.handleTextInput client text w) = Ok tt /\
  out (VoiceGateway.handleTextInput client text w) =
  [ClientEmit client "text_response"
     (obj [("response", cached_text cached); ("message", cached_text cached);
           ("type", Some (JStr "cached"))]);
   ClientEmit client "stream_complete"
     (obj [("fullResponse", cached_text cached);
           ("metadata", Some (JObj [("cached", JBool true)]))]);
   PollySend (cached_text cached) (polly_voice w);
   LogError (String.append "Polly TTS error: " (message e));
   LogError (String.append "[Polly] TTS error: " (message e))].
Proof.
  intros Hsession Hcached Htruthy Hfail.
  split; [rewrite (emitPollyAudio_fails _ _ e w Hfail); now split|].
  rewrite session_get_total in Hsession. cbn [res] in Hsession.
  injection Hsession as Hsession.
  rewrite exact_get_total in Hcached. cbn [res] in Hcached.
  set (data := JObj (put "lastQuery" (JStr text) session)).
  set (w1 := set_active (Some client) w).
  pose proof (session_set_frame client data w1) as (_ & _ & _ & Hlib & Henv & _).
  cbv zeta in Hlib, Henv.
  pose proof (exact_get_after_session_set "en" text client data w1) as Hres.
  change (parsed_result (ExactResponseCache.key "en" text) w1)
    with (parsed_result (ExactResponseCache.key "en" text) w) in Hres.
  rewrite Hcached in Hres.
  assert (Hset : res (SessionCache.set client data w1) = Ok tt
                 /\ out (SessionCache.set client data w1) = [])
    by (rewrite session_set_total; now split).
  destruct Hset as [Hset_res Hset_out].
  assert (Hvoice : polly_voice (world (SessionCache.set client data w1)) = polly_voice w)
    by (unfold polly_voice; now rewrite Henv).
  assert (Hfail2 : synthesis_error
                     (polly_send (lib (world (SessionCache.set client data w1)))
                                 (cached_text cached)
                                 (polly_voice (world (SessionCache.set client data w1))))
                   = Some e) by (now rewrite Hvoice, Hlib).
  split.
  all: unfold VoiceGateway.handleTextInput.
  all: unfold bind at 1 2, modify; cbn [res world out].
  all: rewrite session_get_total; cbn [res world out].
  all: change (session_value client (set_active (Some client) w))
         with (session_value client w).
  all: rewrite Hsession; cbn [truthy VoiceGateway.assign_lastQuery].
  all: unfold bind at 1 2, ret at 1; cbn [res world out].
  all: fold data; fold w1; change (world (ret data w1)) with w1.
  all: rewrite Hset_res, ?Hset_out; cbn [res world out].
  all: unfold bind at 1; rewrite exact_get_total, Hres; cbn [res world out].
  all: rewrite Htruthy; fold (cached_text cached).
  all: unfold bind, VoiceGateway.client_emit, act; cbn [res world out].
  all: rewrite (emitPollyAudio_fails client (cached_text cached) e _ Hfail2).
  all: cbn [res world out app]; rewrite ?Hvoice; reflexivity.
Qed.

(* ===================================================================== *)
(** * What a method emits and what it leaves alone *)
(* ===================================================================== *)

Section Emits.
Context (P : Action -> Prop).

Lemma emits_ret {A} (a : A) : emits P (ret a).
  Proof. intros w. constructor. Qed.

Lemma emits_throw {A} e : emits P (@throw A e).
  Proof. intros w. constructor. Qed.

Lemma emits_read {A} (f : World -> A) : emits P (read f).
  Proof. intros w. constructor. Qed.

Lemma emits_modify f : emits P (modify f).
  Proof. intros w. constructor. Qed.

Lemma emits_act a : P a -> emits P (act a).
  Proof. intros H w. cbn. now constructor. Qed.

Lemma emits_bind {A B} (m : M A) (k : A -> M B) :
    emits P m -> (forall a, emits P (k a)) -> emits P (bind m k).
  Proof.
    intros Hm Hk w. unfold bind. specialize (Hm w).
    destruct (res (m w)); cbn [out]; [|exact Hm].
    apply Forall_app. split; [exact Hm | apply Hk].
  Qed.

Lemma emits_try_catch {A} (m : M A) (h : js_error -> M A) :
    emits P m -> (forall e, emits P (h e)) -> emits P (try_catch m h).
  Proof.
    intros Hm Hh w. unfold try_catch. specialize (Hm w).
    destruct (res (m w)); cbn [out]; [exact Hm|].
    apply Forall_app. split; [exact Hm | apply Hh].
  Qed.

Lemma emits_quiet {A} (m : M A) : (forall w, out (m w) = []) -> emits P m.
  Proof. intros H w. rewrite H. constructor. Qed.
End Emits.

Section Preserves.
Context {X : Type} (f : World -> X).

Lemma preserves_ret {A} (a : A) : preserves f (ret a).
  Proof. intros w. reflexivity. Qed.

Lemma preserves_throw {A} e : preserves f (@throw A e).
  Proof. intros w. reflexivity. Qed.

Lemma preserves_read {A} (g : World -> A) : preserves f (read g).
  Proof. intros w. reflexivity. Qed.

Lemma preserves_act a : preserves f (act a).
  Proof. intros w. reflexivity. Qed.

Lemma preserves_modify g : (forall w, f (g w) = f w) -> preserves f (modify g).
  Proof. intros H w. apply H. Qed.

Lemma preserves_bind {A B} (m : M A) (k : A -> M B) :
    preserves f m -> (forall a, preserves f (k a)) -> preserves f (bind m k).
  Proof.
    intros Hm Hk w. unfold bind. specialize (Hm w).
    destruct (res (m w)); cbn [world]; [|exact Hm].
    now rewrite Hk.
  Qed.

Lemma preserves_try_catch {A} (m : M A) (h : js_error -> M A) :
    preserves f m -> (forall e, preserves f (h e)) -> preserves f (try_catch m h).
  Proof.
    intros Hm Hh w. unfold try_catch. specialize (Hm w).
    destruct (res (m w)); cbn [world]; [exact Hm|].
    now rewrite Hh.
  Qed.

  (** [f] does not look at the Redis server. *)
Hypothesis blind : forall r w, f (set_redis r w) = f w.

Lemma preserves_redis_get key : preserves f (Redis.get key).
  Proof using Type. intros w. unfold Redis.get. now destruct (redis_up (redis w)). Qed.

Lemma preserves_redis_set key v ttl : preserves f (Redis.set_EX key v ttl).
  Proof using blind.
    intros w. unfold Redis.set_EX. destruct (redis_up (redis w)); cbn; [apply blind|reflexivity].
  Qed.
End Preserves.

Lemma emits_at {A} (P : Action -> Prop) (m : M A) w :
  emits P m -> Forall P (out (m w)).
Proof. intros H. apply H. Qed.

Lemma session_get_quiet sessionId w : out (SessionCache.get sessionId w) = [].
Proof. now rewrite session_get_total. Qed.

Lemma redis_set_quiet key v ttl w : out (Redis.set_EX key v ttl w) = [].
Proof. unfold Redis.set_EX. now destruct (redis_up (redis w)). Qed.

Lemma exact_set_quiet lang text response w :
  out (ExactResponseCache.set lang text response w) = [].
Proof. apply redis_set_quiet. Qed.

Ltac emits_step :=
  first
    [ apply emits_ret | apply emits_throw | apply emits_read | apply emits_modify
    | apply emits_quiet; intros; first [apply session_get_quiet | apply exact_set_quiet]
    | apply emits_act; cbn; trivial
    | apply emits_bind; [|intros]
    | apply emits_try_catch; [|intros]
    | match goal with
      | |- emits _ (if ?b then _ else _) => destruct b
      | |- emits _ (match ?x with _ => _ end) => destruct x
      end ].

(* ===================================================================== *)
(** * C1: routing of the replies of the upstream *)
(* ===================================================================== *)

Lemma active_client_spec w c :
  active_client w = Some c ->
  activeFrontendClient w = Some c /\ In c (sockets w).
Proof.
  unfold active_client, VoiceGateway.getActiveClient, read. cbn [res].
  destruct (activeFrontendClient w) as [a|]; [|discriminate].
  destruct (String.eqb a EmptyString); [discriminate|].
  destruct (existsb (String.eqb a) (sockets w)) eqn:E; [|discriminate].
  intros [= ->]. split; [reflexivity|].
  apply existsb_exists in E as (x & Hin & Hx). apply String.eqb_eq in Hx. now subst x.
Qed.

(** Once it has looked up the active client, [handlePythonMessage] emits to
    that client and to no one else. *)
Lemma python_message_recipients msg w :
  Forall (to_client (active_client w)) (out (VoiceGateway.handlePythonMessage msg w)).
Proof.
  unfold VoiceGateway.handlePythonMessage. unfold bind at 1.
  unfold VoiceGateway.getActiveClient at 1 2 3 4. cbn [read res world out app].
  fold (active_client w) || idtac.
  change (match activeFrontendClient w with
          | Some a =>
            if String.eqb a EmptyString then None
            else if existsb (String.eqb a) (sockets w) then Some a else None
          | None => None
          end) with (active_client w).
  generalize (active_client w) as client. intros client.
  apply emits_at.
  unfold VoiceGateway.emit_if, VoiceGateway.client_emit, console_error.
  repeat emits_step.
Qed.

Lemma preserves_session_get {X} (f : World -> X) sessionId :
  preserves f (SessionCache.get sessionId).
Proof. intros w. now rewrite session_get_total. Qed.

Lemma preserves_active_session_set sessionId payload :
  preserves activeFrontendClient (SessionCache.set sessionId payload).
Proof. intros w. apply (session_set_frame sessionId payload w). Qed.

Lemma preserves_exact_get {X} (f : World -> X) lang text :
  preserves f (ExactResponseCache.get lang text).
Proof. intros w. now rewrite exact_get_total. Qed.

Ltac preserves_step :=
  first
    [ apply preserves_ret | apply preserves_throw | apply preserves_read
    | apply preserves_act | apply preserves_session_get
    | apply preserves_active_session_set | apply preserves_exact_get
    | apply preserves_redis_get | apply preserves_redis_set; reflexivity
    | apply preserves_bind; [|intros]
    | apply preserves_try_catch; [|intros]
    | match goal with
      | |- preserves _ (if ?b then _ else _) => destruct b
      | |- preserves _ (match ?x with _ => _ end) => destruct x
      end ].

Lemma isDuplicate_down sessionId chunk w :
  redis_up (redis w) = false ->
  AudioDedupCache.isDuplicate sessionId chunk w = mkOutcome (Throw Redis.unavailable) w [].
Proof.
  intros down. unfold AudioDedupCache.isDuplicate, AudioDedupCache.hash.
  rewrite (bind_quiet _ _ w _ w eq_refl). apply bind_thrown. now apply redis_get_down.
Qed.

(** Who is the active client after a message of [client]: the sender if the
    message marks it, whether the handler returns or throws, and the one
    before otherwise. *)
Lemma subscribed_active client m w :
  activeFrontendClient (world (Relay.subscribed client m w))
  = if marks_active client m w then Some client else activeFrontendClient w.
Proof.
  assert (H : forall (rest : M unit) (w0 : World),
             preserves activeFrontendClient rest ->
             activeFrontendClient
               (world (bind (modify (set_active (Some client))) (fun _ => rest) w0))
             = Some client).
  { intros rest w0 Hrest. unfold bind, modify. cbn [res world out]. now rewrite Hrest. }
  assert (Hemit : forall event data, preserves activeFrontendClient (PythonSocket.emit event data)).
  { intros event data. unfold PythonSocket.emit, PythonSocket.isConnected, console_error.
    repeat preserves_step. }
  destruct m as [text|text|audio format|chunkBase64|text| |voiceId| |responseId];
    cbn [Relay.subscribed marks_active].
  1-3, 5-8:
    ( first [ unfold VoiceGateway.handleTextInput
            | unfold VoiceGateway.handleTextOnlyInput
            | unfold VoiceGateway.handleVoiceInput
            | unfold VoiceGateway.handleInterimSpeech
            | unfold VoiceGateway.handleCreateSession
            | unfold VoiceGateway.handleChangeVoice
            | unfold VoiceGateway.handleGetVoices ];
      apply H;
      unfold VoiceGateway.emitPollyAudio, PollyService.synthesizeSpeech,
        VoiceGateway.assign_lastQuery, VoiceGateway.client_emit, console_error,
        PythonSocket.sendTextQuery, PythonSocket.sendTextOnlyQuery,
        PythonSocket.sendVoiceInput, PythonSocket.sendInterimSpeech,
        PythonSocket.sendChangeVoice, PythonSocket.sendGetVoices, PythonSocket.emit,
        PythonSocket.isConnected, PythonSocket.pythonSessionId, console_error;
      repeat preserves_step ).
  - unfold VoiceGateway.handleAudioChunk.
    rewrite (bind_quiet _ _ w (base64_decode (lib w) chunkBase64) w eq_refl).
    destruct (redis_up (redis w)) eqn:up; cbn [andb].
    + pose proof (isDuplicate_up client (base64_decode (lib w) chunkBase64) w up) as Hd.
      destruct (str_truthy (Redis.live (redis w) (now w)
                              (marker client (base64_decode (lib w) chunkBase64) w)));
        rewrite (bind_quiet _ _ _ _ _ Hd); cbv beta iota; cbn [negb]; [reflexivity|].
      apply H. apply Hemit.
    + now rewrite (bind_thrown _ _ _ _ _ _
                     (isDuplicate_down client (base64_decode (lib w) chunkBase64) w up)).
  - enough (Hp : preserves activeFrontendClient (VoiceGateway.repeatLast client responseId))
      by apply Hp.
    unfold VoiceGateway.repeatLast, TtsRelayCache.get, Redis.getBuffer,
      VoiceGateway.client_emit.
    repeat preserves_step.
Qed.

Lemma connect_becomes_active client w :
  activeFrontendClient (world (Relay.react (Relay.Connect client) w)) = Some client.
Proof.
  cbn [Relay.react]. unfold bind at 1, modify at 1. cbn [res world out].
  unfold VoiceGateway.handleConnection.
  match goal with
  | |- activeFrontendClient (world (bind (modify _) (fun _ => ?rest) ?w0)) = _ =>
    assert (Hrest : preserves activeFrontendClient rest)
  end.
  { unfold VoiceGateway.client_emit, PythonSocket.sendNewSession, PythonSocket.emit,
      PythonSocket.isConnected, console_error.
    repeat preserves_step. }
  unfold bind at 1, modify at 1. cbn [res world out]. now rewrite Hrest.
Qed.


Lemma dispatch_recipients msg w :
  Forall (to_client (active_client w))
         (out (PythonSocket.dispatch VoiceGateway.handlePythonMessage msg w)).
Proof.
  unfold PythonSocket.dispatch, bind, read, try_catch. cbn [res world out].
  destruct (messageHandler w); cbn [negb]; [|constructor].
  pose proof (python_message_recipients msg w) as H.
  destruct (res (VoiceGateway.handlePythonMessage msg w)); cbn [res world out app];
    [exact H|].
  apply Forall_app. split; [exact H|]. repeat constructor.
Qed.

Lemma on_recipients event data w :
  Forall (to_client (active_client w))
         (out (PythonSocket.on VoiceGateway.handlePythonMessage event data w)).
Proof.
  unfold PythonSocket.on.
  destruct (String.eqb event "text_response").
  - destruct data; first [apply dispatch_recipients | constructor].
  - destruct (PythonSocket.listener PythonSocket.forwarded event);
      [apply dispatch_recipients | constructor].
Qed.

Lemma find_other_filter (client : string) (l : list string) :
  List.find (fun id => negb (String.eqb id client))
            (List.filter (fun id => negb (String.eqb id client)) l)
  = List.find (fun id => negb (String.eqb id client)) l.
Proof.
  induction l as [|x l IH]; [reflexivity|]. cbn.
  destruct (negb (String.eqb x client)) eqn:E; cbn; now rewrite ?E.
Qed.

(** What [Disconnect] leaves: the registry without the client and, as
    active client, the old one or the first other registered client. *)
Lemma disconnect_outcome client w :
  let w' := fst (Relay.step (Relay.Disconnect client) w) in
  sockets w' = List.filter (fun id => negb (String.eqb id client)) (sockets w) /\
  activeFrontendClient w' =
  match activeFrontendClient w with
  | Some id =>
    if String.eqb id client
    then List.find (fun id => negb (String.eqb id client)) (sockets w)
    else Some id
  | None => None
  end.
Proof.
  unfold Relay.step. cbn [fst Relay.react]. unfold bind at 1, modify at 1.
  cbn [res world out]. unfold VoiceGateway.handleDisconnect, bind, read, modify, ret.
  cbn [res world out activeFrontendClient sockets set_sockets].
  destruct (activeFrontendClient w) as [id|] eqn:Ha; cbn [res world out];
    [|cbn; now rewrite Ha].
  destruct (String.eqb id client); cbn [res world out]; [|cbn; now rewrite Ha].
  cbn [sockets activeFrontendClient set_active set_sockets].
  split; [reflexivity|]. apply find_other_filter.
Qed.

Lemma from_python_keeps_active event data :
  preserves activeFrontendClient (Relay.react (Relay.FromPython event data)).
Proof.
  assert (Hh : forall msg, preserves activeFrontendClient (VoiceGateway.handlePythonMessage msg)).
  { intros msg.
    unfold VoiceGateway.handlePythonMessage, VoiceGateway.getActiveClient,
      VoiceGateway.emit_if, VoiceGateway.client_emit, console_error, ExactResponseCache.set.
    repeat preserves_step. }
  assert (Hd : forall msg,
             preserves activeFrontendClient
                       (PythonSocket.dispatch VoiceGateway.handlePythonMessage msg)).
  { intros msg. unfold PythonSocket.dispatch, console_error.
    repeat first [ apply Hh | preserves_step ]. }
  cbn [Relay.react]. unfold PythonSocket.isConnected, PythonSocket.on.
  repeat first [ apply Hd | preserves_step ].
Qed.

(** The active client after each event. *)
Lemma step_active e w :
  activeFrontendClient (fst (Relay.step e w)) = active_after e w.
Proof.
  destruct e as [client|client|client m|event data|sid|up|ms]; cbn [active_after].
  - apply connect_becomes_active.
  - apply (disconnect_outcome client w).
  - unfold Relay.step. cbn [fst Relay.react].
    rewrite (bind_quiet _ _ w (Relay.is_connected_client client w) w eq_refl).
    destruct (Relay.is_connected_client client w); cbn [andb]; [|reflexivity].
    apply subscribed_active.
  - apply (from_python_keeps_active event data w).
  - unfold Relay.step, Relay.react, modify. cbn [fst world]. now destruct (socket w).
  - reflexivity.
  - reflexivity.
Qed.

(** Claim C1 (amended).  Whatever an event from Python makes the relay emit
    to a client goes to the one client recorded in [activeFrontendClient],
    which is then in the socket registry; with none recorded or registered
    nothing is emitted.  The record changes in these ways and no other: a
    client that connects is recorded; the sender of a message is recorded,
    unless the message is [repeat_last], or an [audio_chunk] that is a
    duplicate or whose duplicate check the store rejects; when the recorded
    client disconnects, the first other registered socket is recorded, or
    none.  The sender of an [audio_chunk] is recorded when the handler
    resumes after the duplicate check, whatever was handled meanwhile.  So
    the recorded client is not necessarily the session the reply belongs
    to. *)
Theorem reply_goes_to_active_client :
  (forall (w : World) (event : string) (data : json) (c ev : string) (p : json),
     In (ClientEmit c ev p) (snd (Relay.step (Relay.FromPython event data) w)) ->
     activeFrontendClient w = Some c /\ In c (sockets w)) /\
  (forall (e : Relay.Event) (w : World),
     activeFrontendClient (fst (Relay.step e w)) = active_after e w) /\
  (forall (client chunkBase64 : string) (w : World),
     activeFrontendClient (world (Interleaved.after_set client chunkBase64 w))
     = Some client).
Proof.
  split; [|split].
  - intros w event data c ev p Hin.
    apply active_client_spec.
    unfold Relay.step in Hin. cbn [snd] in Hin.
    apply in_app_or in Hin as [Hin|Hin].
    + cbn [Relay.react] in Hin. unfold bind at 1, PythonSocket.isConnected at 1, read in Hin.
      cbn [res world out app] in Hin.
      destruct (match socket w with Some s => connected s | None => false end);
        [|destruct Hin].
      pose proof (on_recipients event data w) as H.
      rewrite Forall_forall in H. apply list_elem_of_In in Hin.
      exact (H _ Hin).
    + destruct (res (Relay.react (Relay.FromPython event data) w)); cbn in Hin;
        [destruct Hin | destruct Hin as [Hin|[]]; discriminate Hin].
  - apply step_active.
  - intros client chunkBase64 w. unfold Interleaved.after_set.
    rewrite (bind_quiet _ _ w tt (set_active (Some client) w) eq_refl). cbv beta.
    assert (Hp : preserves activeFrontendClient
                   (PythonSocket.emit "audio_chunk"
                      (obj [("sessionId", Some (JStr client));
                            ("audio", Some (JStr chunkBase64))]) ;;
                    ret (@None Interleaved.Suspended))%js).
    { unfold PythonSocket.emit, PythonSocket.isConnected, console_error.
      repeat preserves_step. }
    now rewrite Hp.
Qed.

Lemma reply_goes_to_active_client_witness :
  (In (ClientEmit "B" "text_response"
         (JObj [("response", JStr "hello A"); ("message", JStr "hello A");
                ("type", JStr "response")]))
      (snd (Relay.step
              (Relay.FromPython "text_response"
                 (JObj [("response", JStr "hello A"); ("type", JStr "response")]))
              before_reply)) /\
   activeFrontendClient before_reply = Some "B" /\ In "B" (sockets before_reply)) /\
  activeFrontendClient
    (fst (Relay.step (Relay.FromClient "A" (Relay.audio_chunk "AAAA"))
                     (Relay.run [Relay.Connect "A"; Relay.Connect "B"] fresh)))
  = Some "A".
Proof.
  assert (H : In (ClientEmit "B" "text_response"
                    (JObj [("response", JStr "hello A"); ("message", JStr "hello A");
                           ("type", JStr "response")]))
                 (snd (Relay.step
                         (Relay.FromPython "text_response"
                            (JObj [("response", JStr "hello A"); ("type", JStr "response")]))
                         before_reply)))
    by (vm_compute; left; reflexivity).
  split.
  - split; [exact H|].
    exact (proj1 reply_goes_to_active_client _ _ _ _ _ _ H).
  - rewrite (proj1 (proj2 reply_goes_to_active_client)
               (Relay.FromClient "A" (Relay.audio_chunk "AAAA"))
               (Relay.run [Relay.Connect "A"; Relay.Connect "B"] fresh)).
    vm_compute. reflexivity.
Defined.

(** Claim C1 as stated fails: with requests of A and B outstanding on the
    one link, the reply to A's request is emitted to B. *)
Lemma cross_talk_misroutes :
  ~ Routing.delivered_only_to_owner sample_library cross_talk.
Proof.
  intros H.
  assert (Hwt : Routing.well_tagged cross_talk (Relay.boot sample_library ∅) [] = true)
    by (vm_compute; reflexivity).
  specialize (H Hwt "A" "B").
  assert (Hin : In ("A", "B") (Routing.deliveries cross_talk (Relay.boot sample_library ∅)))
    by (vm_compute; left; reflexivity).
  specialize (H Hin). discriminate H.
Qed.

Lemma synthesis_failure_absorbed_witness :
  res (VoiceGateway.handleTextInput "A" "hi" warm) = Ok tt /\
  out (VoiceGateway.handleTextInput "A" "hi" warm) =
  [ClientEmit "A" "text_response"
     (JObj [("response", JStr "hello"); ("message", JStr "hello"); ("type", JStr "cached")]);
   ClientEmit "A" "stream_complete"
     (JObj [("fullResponse", JStr "hello"); ("metadata", JObj [("cached", JBool true)])]);
   PollySend (Some (JStr "hello")) "Joey";
   LogError "Polly TTS error: service unavailable";
   LogError "[Polly] TTS error: service unavailable"].
Proof.
  assert (H1 : res (SessionCache.get "A" warm) = Ok (JObj [("connectedAt", JNum 0)]))
    by (vm_compute; reflexivity).
  assert (H2 : res (ExactResponseCache.get "en" "hi" warm) = Ok (JStr "hello"))
    by (vm_compute; reflexivity).
  exact (proj2 (synthesis_failure_absorbed warm "A" "hi" _ (JStr "hello")
                  (Error "service unavailable") H1 H2 eq_refl eq_refl)).
Defined.

(* ===================================================================== *)
(** * C10: exceptions of the message handler *)
(* ===================================================================== *)

Lemma dispatch_registered handler msg w :
  messageHandler w = true ->
  PythonSocket.dispatch handler msg w =
  let o := handler msg w in
  mkOutcome (Ok tt) (world o)
    (out o ++ match res o with
              | Ok _ => []
              | Throw err =>
                [LogError (String.append "Error in Python message handler: " (message err))]
              end).
Proof.
  intros H. unfold PythonSocket.dispatch, bind, read, try_catch, console_error, act.
  cbn [res world out]. rewrite H. cbn [negb app].
  destruct (handler msg w) as [[[]|e] w' o]; cbn; rewrite ?app_nil_r; reflexivity.
Qed.

(** Claim C10.  Whatever the registered handler does with a message,
    [dispatch] returns normally: an exception of the handler is logged and
    goes no further, and every later message is handed to the handler in
    its turn. *)
Theorem handler_errors_contained (handler : json -> M unit) (msgs : list json) (w : World) :
  messageHandler w = true ->
  (forall msg, preserves messageHandler (handler msg)) ->
  res (dispatch_each handler msgs w) = Ok tt /\
  world (dispatch_each handler msgs w) = fst (handled_each handler msgs w) /\
  out (dispatch_each handler msgs w) = snd (handled_each handler msgs w).
Proof.
  intros Hreg Hkeep. revert w Hreg.
  induction msgs as [|msg rest IH]; intros w Hreg; cbn [dispatch_each handled_each].
  - repeat split.
  - unfold bind. rewrite (dispatch_registered handler msg w Hreg).
    cbv zeta. cbn [res world out].
    assert (Hreg' : messageHandler (world (handler msg w)) = true)
      by (now rewrite Hkeep).
    destruct (IH _ Hreg') as (Hres & Hworld & Hout).
    destruct (handled_each handler rest (world (handler msg w))) as [w' acts].
    cbn [fst snd] in *. rewrite Hres, Hworld, Hout, <- app_assoc. repeat split.
Qed.

Lemma preserves_session_set {X} (f : World -> X) sessionId payload :
  (forall r w, f (set_redis r w) = f w) ->
  (forall m w, f (set_memory m w) = f w) ->
  preserves f (SessionCache.set sessionId payload).
Proof.
  intros Hr Hm w. rewrite session_set_total. cbn [world].
  destruct (redis_up (redis w)); now rewrite ?Hr, ?Hm.
Qed.

(** The gateway's handler never unregisters itself. *)
Lemma python_handler_stays_registered msg :
  preserves messageHandler (VoiceGateway.handlePythonMessage msg).
Proof.
  unfold VoiceGateway.handlePythonMessage, VoiceGateway.getActiveClient,
    VoiceGateway.emit_if, VoiceGateway.client_emit, console_error,
    ExactResponseCache.set.
  repeat first [ apply preserves_session_set; reflexivity | preserves_step ].
Qed.

Lemma handler_errors_contained_witness :
  res (dispatch_each VoiceGateway.handlePythonMessage
         [JObj [("response", JNum 5); ("type", JStr "TEXT_RESPONSE")];
          JObj [("message", JStr "ready"); ("type", JStr "STATUS")]]
         before_reply) = Ok tt /\
  out (dispatch_each VoiceGateway.handlePythonMessage
         [JObj [("response", JNum 5); ("type", JStr "TEXT_RESPONSE")];
          JObj [("message", JStr "ready"); ("type", JStr "STATUS")]]
         before_reply) =
  [LogError "Error in Python message handler: responseText.substring is not a function";
   ClientEmit "B" "status" (JObj [("message", JStr "ready"); ("type", JStr "STATUS")])].
Proof.
  destruct (handler_errors_contained VoiceGateway.handlePythonMessage
              [JObj [("response", JNum 5); ("type", JStr "TEXT_RESPONSE")];
               JObj [("message", JStr "ready"); ("type", JStr "STATUS")]]
              before_reply eq_refl python_handler_stays_registered) as (H1 & _ & H3).
  split; [exact H1|]. rewrite H3. vm_compute. reflexivity.
Defined.

(* ===================================================================== *)
(** * C9: the two session caches *)
(* ===================================================================== *)

Module RefinementFacts.
Import SessionCacheRefinement.

Lemma key_injective a b : SessionCache.key a = SessionCache.key b -> a = b.
Proof. unfold SessionCache.key. intros H. cbn in H. now injection H. Qed.

Lemma store_only_get_total sessionId w :
  SessionCacheStoreOnly.get sessionId w
  = mkOutcome (parsed_result (SessionCacheStoreOnly.key sessionId) w) w [].
Proof.
  unfold SessionCacheStoreOnly.get, parsed_result.
  destruct (redis_up (redis w)) eqn:E.
  - rewrite (parsed_get_up _ w E).
    destruct (Redis.live (redis w) (now w) (SessionCacheStoreOnly.key sessionId)) as [d|];
      [|reflexivity].
    destruct (String.eqb d EmptyString); [reflexivity|].
    destruct (JSON_parse d); reflexivity.
  - unfold bind. now rewrite (redis_get_down _ w E).
Qed.

Lemma related_set last wf ws sessionId payload :
  related last wf ws ->
  related (<[sessionId := now wf]> last)
          (world (fallback (OpSet sessionId payload) wf))
          (world (store_only (OpSet sessionId payload) ws)).
Proof.
  intros [Hstore Hclock Hup Hparse Hmap].
  assert (Hup' : redis_up (redis ws) = true) by now rewrite <- Hstore.
  cbn [fallback store_only]. unfold bind at 1 2.
  rewrite session_set_total, (store_only_set_up _ _ ws Hup'), Hup.
  cbn [res world out ret].
  constructor; cbn [redis now memory redis_up redis_data set_redis set_memory].
  - now rewrite Hstore, Hclock.
  - exact Hclock.
  - reflexivity.
  - intros k d e Hk Hd. cbn [redis redis_data set_redis set_memory] in Hk.
    destruct (decide (SessionCache.key sessionId = k)) as [<-|Hne].
    + rewrite lookup_insert_eq in Hk. injection Hk as <- _.
      rewrite JsonFacts.JSON_roundtrip. eauto.
    + rewrite lookup_insert_ne in Hk by exact Hne. exact (Hparse k d e Hk Hd).
  - intros sid p Hsid. destruct (decide (sessionId = sid)) as [<-|Hne].
    + rewrite lookup_insert_eq in Hsid. injection Hsid as <-.
      exists (now wf). now rewrite !lookup_insert_eq.
    + rewrite lookup_insert_ne in Hsid by exact Hne.
      destruct (Hmap sid p Hsid) as (t0 & Hlast & Hdata).
      exists t0. rewrite !lookup_insert_ne; [now split | | exact Hne].
      intros Heq. apply Hne. now apply key_injective.
Qed.

Lemma related_elapse last wf ws ms :
  related last wf ws ->
  related last (world (fallback (OpElapse ms) wf)) (world (store_only (OpElapse ms) ws)).
Proof.
  intros [Hstore Hclock Hup Hparse Hmap].
  constructor; cbn; try assumption. now rewrite Hclock.
Qed.

Lemma related_get last wf ws sessionId :
  related last wf ws ->
  match last !! sessionId with
  | Some t0 => now wf <? t0 + 1800 * 1000
  | None => true
  end = true ->
  res (fallback (OpGet sessionId) wf) = res (store_only (OpGet sessionId) ws) /\
  world (fallback (OpGet sessionId) wf) = wf /\
  world (store_only (OpGet sessionId) ws) = ws.
Proof.
  intros [Hstore Hclock Hup Hparse Hmap] Hfresh.
  cbn [fallback store_only].
  rewrite session_get_total, store_only_get_total. cbn [res world].
  split; [|now split].
  unfold session_value, parsed_result.
  rewrite <- Hstore, <- Hclock, Hup.
  change (SessionCacheStoreOnly.key sessionId) with (SessionCache.key sessionId).
  destruct (memory wf !! sessionId) as [payload|] eqn:Hmem.
  - destruct (Hmap _ _ Hmem) as (t0 & Hlast & Hdata).
    rewrite Hlast in Hfresh. unfold Redis.live. rewrite Hdata, Hfresh.
    now rewrite JsonFacts.JSON_stringify_nonempty, JsonFacts.JSON_roundtrip.
  - unfold Redis.live.
    destruct (redis_data (redis wf) !! SessionCache.key sessionId) as [[d e]|] eqn:Hd;
      [|reflexivity].
    destruct (now wf <? e); [|reflexivity].
    destruct (String.eqb_spec d EmptyString) as [|Hne]; [reflexivity|].
    destruct (Hparse _ _ _ Hd Hne) as [v Hv]. now rewrite Hv.
Qed.

Lemma simulation ops : forall last wf ws,
  related last wf ws ->
  within_ttl ops (now wf) last = true ->
  observe fallback ops wf = observe store_only ops ws.
Proof.
  induction ops as [|op ops IH]; intros last wf ws Hrel Hok; [reflexivity|].
  cbn [observe]. destruct op as [sessionId payload|sessionId|ms]; cbn [within_ttl] in Hok.
  - pose proof (related_set last wf ws sessionId payload Hrel) as Hrel'.
    f_equal.
    + cbn [fallback store_only]. unfold bind.
      destruct Hrel as [Hstore _ Hup _ _].
      assert (Hup' : redis_up (redis ws) = true) by now rewrite <- Hstore.
      now rewrite session_set_total, (store_only_set_up _ _ ws Hup').
    + apply (IH _ _ _ Hrel').
      assert (Hnow : now (world (fallback (OpSet sessionId payload) wf)) = now wf).
      { cbn [fallback]. unfold bind. rewrite session_set_total. cbn [res world out ret].
        now destruct (redis_up (redis wf)). }
      now rewrite Hnow.
  - apply andb_true_iff in Hok as [Hfresh Hok].
    destruct (related_get last wf ws sessionId Hrel Hfresh) as (Hres & Hwf & Hws).
    rewrite Hres, Hwf, Hws. f_equal. now apply (IH last).
  - f_equal. apply (IH last).
    + now apply related_elapse.
    + exact Hok.
Qed.

End RefinementFacts.

(** Claim C9 (amended).  The two session caches use the key
    [session:{sessionId}] and write the same entry with a TTL of 1800 s.  On
    a store that accepts every command and holds only texts that
    [JSON.parse] accepts, they return the same answers as long as every
    [get] of a session comes before the 1800 s of its latest [set] have
    elapsed.  When the store rejects commands the fallback variant answers
    from its map and the store-only variant throws; so they do on a text
    that is not JSON, such as a numeral with leading zeros. *)
Theorem session_caches_agree_within_ttl :
  (forall sessionId,
     SessionCache.key sessionId = String.append "session:" sessionId /\
     SessionCacheStoreOnly.key sessionId = String.append "session:" sessionId) /\
  (forall w sessionId payload,
     redis_up (redis w) = true ->
     redis (world (SessionCache.set sessionId payload w))
     = redis (world (SessionCacheStoreOnly.set sessionId payload w)) /\
     redis_data (redis (world (SessionCache.set sessionId payload w)))
       !! String.append "session:" sessionId
     = Some (JSON_stringify payload, now w + 1800 * 1000)) /\
  (forall w ops,
     redis_up (redis w) = true -> memory w = ∅ -> parseable (redis w) ->
     SessionCacheRefinement.within_ttl ops (now w) ∅ = true ->
     SessionCacheRefinement.observe SessionCacheRefinement.fallback ops w
     = SessionCacheRefinement.observe SessionCacheRefinement.store_only ops w) /\
  (forall w sessionId payload,
     let down := fst (Relay.step (Relay.RedisLink false)
                                 (world (SessionCache.set sessionId payload w))) in
     res (SessionCache.get sessionId down) = Ok payload /\
     res (SessionCacheStoreOnly.get sessionId down) = Throw Redis.unavailable) /\
  (JSON_parse "007" = None /\
   forall w sessionId expires,
     redis_up (redis w) = true ->
     redis_data (redis w) !! SessionCache.key sessionId = Some ("007", expires) ->
     now w < expires ->
     res (SessionCache.get sessionId w)
     = Ok (match memory w !! sessionId with Some v => v | None => JNull end) /\
     exists text, res (SessionCacheStoreOnly.get sessionId w) = Throw (SyntaxError text)).
Proof.
  repeat apply conj.
  - intros sessionId. split; reflexivity.
  - intros w sessionId payload up.
    rewrite session_set_total, (store_only_set_up _ _ w up), up. cbn [world].
    split; [reflexivity|]. cbn [redis redis_data set_redis set_memory].
    apply lookup_insert_eq.
  - intros w ops up Hmem Hparse Hok.
    apply (RefinementFacts.simulation ops ∅ w w); [|exact Hok].
    constructor; try assumption; try reflexivity.
    intros sid p Hsid. rewrite Hmem, lookup_empty in Hsid. discriminate.
  - intros w sessionId payload down. subst down.
    rewrite session_get_total, RefinementFacts.store_only_get_total, session_set_total.
    cbn [res world]. unfold session_value, parsed_result, Relay.step.
    cbn [fst Relay.react modify world].
    destruct (redis_up (redis w)); cbn [redis redis_up memory set_redis set_memory];
      rewrite lookup_insert_eq; split; reflexivity.
  - reflexivity.
  - intros w sessionId expires up Hentry Hlive.
    rewrite session_get_total, RefinementFacts.store_only_get_total. cbn [res].
    unfold session_value, parsed_result, Redis.live. rewrite up.
    change (SessionCacheStoreOnly.key sessionId) with (SessionCache.key sessionId).
    rewrite Hentry. apply Z.ltb_lt in Hlive. rewrite Hlive.
    split; [reflexivity|]. eexists. reflexivity.
Qed.

Lemma fresh_parseable : parseable (redis fresh).
Proof.
  intros k d e Hk.
  change (redis_data (redis fresh)) with (∅ : gmap string (string * Z)) in Hk.
  rewrite lookup_empty in Hk. discriminate.
Qed.

Lemma session_caches_agree_within_ttl_witness :
  SessionCacheRefinement.observe SessionCacheRefinement.fallback
    [SessionCacheRefinement.OpSet "s1" (JObj [("connectedAt", JNum 0)]);
     SessionCacheRefinement.OpElapse 1799999;
     SessionCacheRefinement.OpGet "s1"] fresh
  = SessionCacheRefinement.observe SessionCacheRefinement.store_only
    [SessionCacheRefinement.OpSet "s1" (JObj [("connectedAt", JNum 0)]);
     SessionCacheRefinement.OpElapse 1799999;
     SessionCacheRefinement.OpGet "s1"] fresh.
Proof.
  apply (proj1 (proj2 (proj2 session_caches_agree_within_ttl)) fresh).
  - reflexivity.
  - reflexivity.
  - exact fresh_parseable.
  - vm_compute. reflexivity.
Defined.

(** Claim C9 as stated fails: with every store command succeeding, a
    session read 1800 s after it was written is absent from the store-only
    cache and still present in the cache with the fallback map. *)
Lemma session_caches_differ_after_expiry : ~ equivalent_while_store_succeeds.
Proof.
  intros H.
  specialize (H fresh read_after_expiry eq_refl eq_refl fresh_parseable).
  vm_compute in H. discriminate H.
Qed.

(* ===================================================================== *)
(** * Further properties: frames *)
(* ===================================================================== *)

Ltac frame_step :=
  first
    [ apply preserves_ret | apply preserves_throw | apply preserves_read
    | apply preserves_act | apply preserves_session_get
    | apply preserves_session_set; reflexivity
    | apply preserves_exact_get
    | apply preserves_redis_get | apply preserves_redis_set; reflexivity
    | apply preserves_modify; reflexivity
    | apply preserves_bind; [|intros]
    | apply preserves_try_catch; [|intros]
    | match goal with
      | |- preserves _ (if ?b then _ else _) => destruct b
      | |- preserves _ (match ?x with _ => _ end) => destruct x
      end ].

Ltac unfold_gateway :=
  unfold VoiceGateway.handleConnection, VoiceGateway.handleDisconnect,
    VoiceGateway.handleTextInput, VoiceGateway.handleTextOnlyInput,
    VoiceGateway.handleVoiceInput, VoiceGateway.handleAudioChunk,
    VoiceGateway.handleInterimSpeech, VoiceGateway.handleCreateSession,
    VoiceGateway.handleChangeVoice, VoiceGateway.handleGetVoices,
    VoiceGateway.repeatLast, VoiceGateway.handlePythonMessage,
    VoiceGateway.getActiveClient, VoiceGateway.emit_if,
    VoiceGateway.emitPollyAudio, PollyService.synthesizeSpeech,
    VoiceGateway.assign_lastQuery, VoiceGateway.client_emit,
    AudioDedupCache.isDuplicate, AudioDedupCache.hash,
    TtsRelayCache.get, Redis.getBuffer, ExactResponseCache.set,
    PythonSocket.sendNewSession, PythonSocket.sendTextQuery,
    PythonSocket.sendTextOnlyQuery, PythonSocket.sendVoiceInput,
    PythonSocket.sendInterimSpeech, PythonSocket.sendChangeVoice,
    PythonSocket.sendGetVoices, PythonSocket.emit, PythonSocket.isConnected,
    PythonSocket.pythonSessionId, console_error.

(** No handler of a client message touches the socket registry. *)
Lemma subscribed_keeps_sockets client m :
  preserves sockets (Relay.subscribed client m).
Proof.
  destruct m; cbn [Relay.subscribed]; unfold_gateway; repeat frame_step.
Qed.

Lemma python_handler_keeps {X} (f : World -> X) msg :
  (forall r w, f (set_redis r w) = f w) ->
  preserves f (VoiceGateway.handlePythonMessage msg).
Proof.
  intros Hr. unfold_gateway.
  repeat first [ apply preserves_redis_set; exact Hr | frame_step ].
Qed.

Lemma dispatch_keeps {X} (f : World -> X) handler msg :
  preserves f (handler msg) -> preserves f (PythonSocket.dispatch handler msg).
Proof.
  intros H. unfold PythonSocket.dispatch, console_error.
  repeat first [ exact H | frame_step ].
Qed.

Lemma on_keeps {X} (f : World -> X) handler event data :
  (forall msg, preserves f (handler msg)) ->
  preserves f (PythonSocket.on handler event data).
Proof.
  intros H. unfold PythonSocket.on.
  repeat first [ apply dispatch_keeps; apply H | frame_step ].
Qed.

(* ===================================================================== *)
(** * Further properties: the routing state *)
(* ===================================================================== *)

Lemma isDuplicate_keeps {X} (f : World -> X) sessionId chunk :
  (forall r w, f (set_redis r w) = f w) ->
  preserves f (AudioDedupCache.isDuplicate sessionId chunk).
Proof.
  intros Hr. unfold_gateway.
  repeat first [ apply preserves_redis_set; exact Hr | frame_step ].
Qed.

(** After a disconnection the client is neither registered nor the target
    of the replies. *)
Theorem disconnected_client_is_dropped (w : World) (client : string) :
  let w' := fst (Relay.step (Relay.Disconnect client) w) in
  ~ In client (sockets w') /\ activeFrontendClient w' <> Some client.
Proof.
  destruct (disconnect_outcome client w) as [Hs Ha]. cbv zeta in *.
  rewrite Hs, Ha. split.
  - intros Hin. apply filter_In in Hin as [_ Hne].
    now rewrite String.eqb_refl in Hne.
  - destruct (activeFrontendClient w) as [a0|]; [|discriminate].
    destruct (String.eqb_spec a0 client) as [Heq|Hne]; [subst a0|].
    + intros Hf. apply find_some in Hf as [_ Hf]. now rewrite String.eqb_refl in Hf.
    + congruence.
Qed.

Lemma step_keeps_routing e w :
  routing_consistent w -> routing_consistent (fst (Relay.step e w)).
Proof.
  intros [Hin Hsome]. destruct e as [c|c|c m|event data|sid|up|ms].
  - (* Connect *)
    pose proof (connect_becomes_active c w) as Hact.
    assert (Hs : preserves sockets (VoiceGateway.handleConnection c))
      by (unfold_gateway; repeat frame_step).
    unfold Relay.step. cbn [fst].
    split.
    + intros a Ha. rewrite Hact in Ha. injection Ha as <-.
      cbn [Relay.react]. unfold bind at 1, modify at 1. cbn [res world out].
      rewrite Hs. unfold modify, Relay.is_connected_client. cbn [res world out].
      destruct (existsb (String.eqb c) (sockets w)) eqn:E; cbv iota.
      * apply existsb_exists in E as (x & Hx & Hxc). apply String.eqb_eq in Hxc.
        now subst x.
      * cbn [sockets set_sockets]. apply in_or_app. right. now left.
    + intros _. now rewrite Hact.
  - (* Disconnect *)
    destruct (disconnect_outcome c w) as [Hs Ha]. cbv zeta in *.
    unfold routing_consistent. rewrite Hs, Ha. split.
    + intros a. destruct (activeFrontendClient w) as [a0|]; [|discriminate].
      destruct (String.eqb_spec a0 c) as [Heq|Hne]; [subst a0|].
      * intros Hf. apply find_some in Hf as [Hf1 Hf2]. apply filter_In. now split.
      * intros [= <-]. apply filter_In. split; [now apply Hin|].
        apply negb_true_iff. now apply String.eqb_neq.
    + intros Hne. destruct (activeFrontendClient w) as [a0|].
      * destruct (String.eqb_spec a0 c) as [Heq|Hidc]; [subst a0|discriminate].
        destruct (List.filter (fun id => negb (String.eqb id c)) (sockets w))
          as [|x l] eqn:Hf; [congruence|].
        assert (Hx : In x (List.filter (fun id => negb (String.eqb id c)) (sockets w)))
          by (rewrite Hf; now left).
        apply filter_In in Hx as [Hx1 Hx2].
        intros Hnone. apply (find_none _ _ Hnone) in Hx1. cbv beta in Hx1. congruence.
      * exfalso. destruct (sockets w) as [|x l]; [now apply Hne|].
        now apply Hsome.
  - (* FromClient *)
    unfold Relay.step. cbn [fst Relay.react]. unfold bind at 1. unfold read.
    cbn [res world out].
    destruct (Relay.is_connected_client c w) eqn:Hc; cbn [res world out]; [|now split].
    assert (Hcin : In c (sockets w)).
    { apply existsb_exists in Hc as (x & Hx & Hxc). apply String.eqb_eq in Hxc.
      now subst x. }
    unfold routing_consistent. rewrite (subscribed_keeps_sockets c m w).
    assert (Hact : activeFrontendClient (world (Relay.subscribed c m w))
                   = activeFrontendClient w \/
                   activeFrontendClient (world (Relay.subscribed c m w)) = Some c).
    { rewrite subscribed_active. destruct (marks_active c m w); [now right | now left]. }
    destruct Hact as [Hact|Hact]; rewrite Hact.
    + split; assumption.
    + split; [intros a [= <-]; exact Hcin | discriminate].
  - (* FromPython *)
    unfold Relay.step. cbn [fst Relay.react]. unfold bind at 1, PythonSocket.isConnected, read.
    cbn [res world out].
    destruct (match socket w with Some s => connected s | None => false end);
      [|now split].
    unfold routing_consistent.
    rewrite (on_keeps sockets VoiceGateway.handlePythonMessage event data
               (fun msg => python_handler_keeps sockets msg (fun _ _ => eq_refl)) w).
    rewrite (on_keeps activeFrontendClient VoiceGateway.handlePythonMessage event data
               (fun msg => python_handler_keeps activeFrontendClient msg (fun _ _ => eq_refl)) w).
    now split.
  - unfold Relay.step. cbn. destruct (socket w); now split.
  - now split.
  - now split.
Qed.

Lemma emit_outcome event data w :
  PythonSocket.emit event data w = mkOutcome (Ok tt) w (sent_or_logged event data w).
Proof.
  unfold PythonSocket.emit, PythonSocket.isConnected, sent_or_logged, link_up,
    bind, read, console_error, act.
  cbn [res world out].
  destruct (match socket w with Some s => connected s | None => false end); reflexivity.
Qed.

Lemma audio_chunk_outcome client chunkBase64 w :
  redis_up (redis w) = true ->
  VoiceGateway.handleAudioChunk client chunkBase64 w
  = if str_truthy (Redis.live (redis w) (now w)
                              (marker client (base64_decode (lib w) chunkBase64) w))
    then mkOutcome (Ok tt) w []
    else mkOutcome (Ok tt) (chunk_marked client chunkBase64 w)
           (sent_or_logged "audio_chunk"
              (JObj [("sessionId", JStr client); ("audio", JStr chunkBase64)]) w).
Proof.
  intros up. unfold VoiceGateway.handleAudioChunk.
  rewrite (bind_quiet _ _ w (base64_decode (lib w) chunkBase64) w eq_refl).
  pose proof (isDuplicate_up client (base64_decode (lib w) chunkBase64) w up) as Hd.
  destruct (str_truthy (Redis.live (redis w) (now w)
                          (marker client (base64_decode (lib w) chunkBase64) w)));
    rewrite (bind_quiet _ _ _ _ _ Hd); [reflexivity|].
  rewrite (bind_quiet _ _ _ tt (chunk_marked client chunkBase64 w) eq_refl).
  now rewrite emit_outcome.
Qed.

Lemma chunk_key_outcome client chunkBase64 w :
  Interleaved.chunk_key client chunkBase64 w
  = mkOutcome (Ok (marker client (base64_decode (lib w) chunkBase64) w)) w [].
Proof. reflexivity. Qed.

Lemma until_get_outcome client chunkBase64 w :
  Interleaved.until_get client chunkBase64 w
  = if redis_up (redis w)
    then mkOutcome
           (Ok (Some (Interleaved.AfterGet client chunkBase64
                        (Redis.live (redis w) (now w)
                           (marker client (base64_decode (lib w) chunkBase64) w)))))
           w []
    else mkOutcome (Throw Redis.unavailable) w [].
Proof.
  unfold Interleaved.until_get.
  rewrite (bind_quiet _ _ _ _ _ (chunk_key_outcome client chunkBase64 w)). cbv beta.
  destruct (redis_up (redis w)) eqn:up.
  - now rewrite (bind_quiet _ _ _ _ _ (redis_get_up _ w up)).
  - now rewrite (bind_thrown _ _ _ _ _ _ (redis_get_down _ w up)).
Qed.

Lemma after_get_outcome client chunkBase64 exists_ w :
  Interleaved.after_get client chunkBase64 exists_ w
  = if str_truthy exists_ then mkOutcome (Ok None) w []
    else if redis_up (redis w)
         then mkOutcome (Ok (Some (Interleaved.AfterSet client chunkBase64)))
                        (written (marker client (base64_decode (lib w) chunkBase64) w)
                                 "1" 2 0 w) []
         else mkOutcome (Throw Redis.unavailable) w [].
Proof.
  unfold Interleaved.after_get. destruct (str_truthy exists_); [reflexivity|].
  rewrite (bind_quiet _ _ _ _ _ (chunk_key_outcome client chunkBase64 w)). cbv beta.
  destruct (redis_up (redis w)) eqn:up.
  - rewrite (bind_quiet _ _ _ _ _ (redis_set_up _ "1" 2 w up)). cbv beta.
    unfold ret, written, later. cbn. rewrite Z.add_0_r. now destruct w.
  - now rewrite (bind_thrown _ _ _ _ _ _ (redis_set_down _ "1" 2 w up)).
Qed.

Lemma after_set_outcome client chunkBase64 w :
  Interleaved.after_set client chunkBase64 w
  = mkOutcome (Ok None) (set_active (Some client) w)
      (sent_or_logged "audio_chunk"
         (JObj [("sessionId", JStr client); ("audio", JStr chunkBase64)]) w).
Proof.
  unfold Interleaved.after_set.
  rewrite (bind_quiet _ _ w tt (set_active (Some client) w) eq_refl). cbv beta.
  unfold bind. rewrite emit_outcome. cbn [res world out ret].
  now rewrite app_nil_r.
Qed.

(** Run without anything in between, the split [handleAudioChunk] leaves
    the world the handler leaves. *)
Lemma uninterrupted_chunk client chunkBase64 w :
  Relay.is_connected_client client w = true ->
  Interleaved.relay
    (Interleaved.run (Interleaved.uninterrupted client chunkBase64)
                     (Interleaved.mkState w []))
  = fst (Relay.step (Relay.FromClient client (Relay.audio_chunk chunkBase64)) w).
Proof.
  intros Hc. unfold Relay.step. cbn [fst Relay.react Relay.subscribed].
  rewrite (bind_quiet _ _ w true w (f_equal (fun b => mkOutcome (Ok b) w []) Hc)).
  cbv beta iota.
  unfold Interleaved.uninterrupted. cbn [Interleaved.run].
  unfold Interleaved.step at 3. cbn [Interleaved.relay Interleaved.waiting].
  rewrite Hc. unfold Interleaved.stretch. rewrite until_get_outcome.
  destruct (redis_up (redis w)) eqn:up; cbn [res world out fst app].
  - rewrite (audio_chunk_outcome client chunkBase64 w up).
    unfold Interleaved.step at 2.
    cbn [Interleaved.relay Interleaved.waiting nth_error Interleaved.without
         Interleaved.resume].
    unfold Interleaved.stretch. rewrite after_get_outcome, up.
    destruct (str_truthy (Redis.live (redis w) (now w)
                            (marker client (base64_decode (lib w) chunkBase64) w)));
      cbn [res world out fst app].
    + reflexivity.
    + unfold Interleaved.step.
      cbn [Interleaved.relay Interleaved.waiting nth_error Interleaved.without
           Interleaved.resume].
      unfold Interleaved.stretch. rewrite after_set_outcome. reflexivity.
  - unfold Interleaved.step. cbn [Interleaved.relay Interleaved.waiting nth_error fst].
    pose proof (isDuplicate_down client (base64_decode (lib w) chunkBase64) w up) as Hd.
    unfold VoiceGateway.handleAudioChunk.
    rewrite (bind_quiet _ _ w (base64_decode (lib w) chunkBase64) w eq_refl). cbv beta.
    now rewrite (bind_thrown _ _ _ _ _ _ Hd).
Qed.

(** A client that disconnects while its chunk waits for the store is
    recorded as active all the same. *)
Lemma leaves_meanwhile_outcome :
  let st := Interleaved.run (Interleaved.leaves_meanwhile "A" "B" "AAAA")
                            (Interleaved.mkState fresh []) in
  activeFrontendClient (Interleaved.relay st) = Some "A" /\
  sockets (Interleaved.relay st) = ["B"] /\
  ~ routing_consistent (Interleaved.relay st) /\
  res (VoiceGateway.getActiveClient (Interleaved.relay st)) = Ok None.
Proof.
  cbv zeta.
  assert (Ha : activeFrontendClient
                 (Interleaved.relay
                    (Interleaved.run (Interleaved.leaves_meanwhile "A" "B" "AAAA")
                                     (Interleaved.mkState fresh [])))
               = Some "A") by (vm_compute; reflexivity).
  assert (Hs : sockets
                 (Interleaved.relay
                    (Interleaved.run (Interleaved.leaves_meanwhile "A" "B" "AAAA")
                                     (Interleaved.mkState fresh [])))
               = ["B"]) by (vm_compute; reflexivity).
  split; [exact Ha|]. split; [exact Hs|]. split.
  - intros [Hin _]. specialize (Hin "A" Ha). rewrite Hs in Hin.
    destruct Hin as [Hin|[]]. discriminate Hin.
  - unfold VoiceGateway.getActiveClient, read. cbn [res]. now rewrite Ha, Hs.
Qed.

(** As long as no other event is handled while a call of [handleAudioChunk]
    waits for the store, the routing state stays consistent: in every world
    reached from the start the active client is a registered socket, some
    client is active whenever one is registered, and [getActiveClient] finds
    the active client.  With such an event it does not: the handler records
    its sender after the wait, so a client that disconnects meanwhile ends
    up recorded though unregistered, and the replies of the upstream are
    dropped while another client is registered.  Run without interruption,
    the split handler is the handler. *)
Theorem routing_consistent_unless_interleaved
        (l : Library) (e : gmap string string) (tr : list Relay.Event) :
  (routing_consistent (Relay.run tr (Relay.boot l e)) /\
   (forall a, activeFrontendClient (Relay.run tr (Relay.boot l e)) = Some a ->
              a <> EmptyString ->
              res (VoiceGateway.getActiveClient (Relay.run tr (Relay.boot l e)))
              = Ok (Some a))) /\
  (let st := Interleaved.run (Interleaved.leaves_meanwhile "A" "B" "AAAA")
                             (Interleaved.mkState fresh []) in
   activeFrontendClient (Interleaved.relay st) = Some "A" /\
   sockets (Interleaved.relay st) = ["B"] /\
   ~ routing_consistent (Interleaved.relay st) /\
   res (VoiceGateway.getActiveClient (Interleaved.relay st)) = Ok None) /\
  (forall client chunkBase64 w,
     Relay.is_connected_client client w = true ->
     Interleaved.relay
       (Interleaved.run (Interleaved.uninterrupted client chunkBase64)
                        (Interleaved.mkState w []))
     = fst (Relay.step (Relay.FromClient client (Relay.audio_chunk chunkBase64)) w)).
Proof.
  split; [|split].
  - assert (H : forall w, routing_consistent w -> routing_consistent (Relay.run tr w)).
    { induction tr as [|ev tr IH]; intros w Hw; [exact Hw|].
      cbn [Relay.run]. apply IH. now apply step_keeps_routing. }
    assert (H0 : routing_consistent (Relay.run tr (Relay.boot l e))).
    { apply H. split; [discriminate|]. intros Hne. now elim Hne. }
    split; [exact H0|].
    intros a Ha Hne. unfold VoiceGateway.getActiveClient, read. cbn [res].
    rewrite Ha. apply String.eqb_neq in Hne. rewrite Hne.
    destruct H0 as [Hin _]. specialize (Hin a Ha).
    assert (Hex : existsb (String.eqb a) (sockets (Relay.run tr (Relay.boot l e))) = true).
    { apply existsb_exists. exists a. split; [exact Hin | apply String.eqb_refl]. }
    now rewrite Hex.
  - apply leaves_meanwhile_outcome.
  - apply uninterrupted_chunk.
Qed.

Lemma routing_consistent_unless_interleaved_witness :
  res (VoiceGateway.getActiveClient
         (Relay.run [Relay.Connect "A"; Relay.Connect "B"; Relay.Disconnect "B"]
                    (Relay.boot sample_library ∅)))
  = Ok (Some "A").
Proof.
  destruct (routing_consistent_unless_interleaved
              sample_library ∅
              [Relay.Connect "A"; Relay.Connect "B"; Relay.Disconnect "B"])
    as ((_ & H) & _).
  apply (H "A"); [vm_compute; reflexivity | discriminate].
Defined.

(* ===================================================================== *)
(** * Further properties: what a reply of the upstream can cause *)
(* ===================================================================== *)

Lemma python_message_emits_locally msg w :
  Forall local_only (out (VoiceGateway.handlePythonMessage msg w)).
Proof.
  apply emits_at.
  unfold VoiceGateway.handlePythonMessage, VoiceGateway.getActiveClient,
    VoiceGateway.emit_if, VoiceGateway.client_emit, console_error.
  repeat emits_step.
Qed.

(** Handling a message from Python never sends anything to Python, never
    calls the synthesis engine, and leaves the routing state, the fallback
    map and the link as they are. *)
Theorem python_message_is_local (msg : json) (w : World) :
  Forall local_only (out (VoiceGateway.handlePythonMessage msg w)) /\
  activeFrontendClient (world (VoiceGateway.handlePythonMessage msg w))
  = activeFrontendClient w /\
  sockets (world (VoiceGateway.handlePythonMessage msg w)) = sockets w /\
  socket (world (VoiceGateway.handlePythonMessage msg w)) = socket w /\
  memory (world (VoiceGateway.handlePythonMessage msg w)) = memory w.
Proof.
  split; [apply python_message_emits_locally|].
  repeat split; apply python_handler_keeps; reflexivity.
Qed.

(* ===================================================================== *)
(** * Further properties: sending while the link is down *)
(* ===================================================================== *)

Section WhileLinkDown.

Lemma while_leaf {A} (P : Action -> Prop) (m : M A) :
  emits P m -> preserves socket m -> emits_while link_down P m.
Proof.
  intros He Hp w Hw. split; [apply He|].
  unfold link_down, link_up in *. now rewrite Hp.
Qed.

Lemma while_bind {A B} I (P : Action -> Prop) (m : M A) (k : A -> M B) :
  emits_while I P m -> (forall a, emits_while I P (k a)) -> emits_while I P (bind m k).
Proof.
  intros Hm Hk w Hw. destruct (Hm w Hw) as [Hout HI]. unfold bind.
  destruct (res (m w)) as [a|e]; cbn [res world out]; [|now split].
  destruct (Hk a _ HI) as [Hout' HI']. split; [|exact HI'].
  apply Forall_app. now split.
Qed.

Lemma while_try_catch {A} I (P : Action -> Prop) (m : M A) (h : js_error -> M A) :
  emits_while I P m -> (forall e, emits_while I P (h e)) ->
  emits_while I P (try_catch m h).
Proof.
  intros Hm Hh w Hw. destruct (Hm w Hw) as [Hout HI]. unfold try_catch.
  destruct (res (m w)) as [a|e]; cbn [res world out]; [now split|].
  destruct (Hh e _ HI) as [Hout' HI']. split; [|exact HI'].
  apply Forall_app. now split.
Qed.

(** [emit] on a link that is down: the event is dropped and the failure
    logged. *)
Lemma emit_while_down event data :
  emits_while link_down not_upstream (PythonSocket.emit event data).
Proof.
  intros w Hw. unfold link_down, link_up in Hw.
  unfold PythonSocket.emit, PythonSocket.isConnected, bind, read, console_error, act.
  cbn [res world out]. rewrite Hw. cbn. split; [|exact Hw].
  repeat constructor.
Qed.

End WhileLinkDown.

Ltac unfold_handlers :=
  unfold VoiceGateway.handleConnection, VoiceGateway.handleDisconnect,
    VoiceGateway.handleTextInput, VoiceGateway.handleTextOnlyInput,
    VoiceGateway.handleVoiceInput, VoiceGateway.handleAudioChunk,
    VoiceGateway.handleInterimSpeech, VoiceGateway.handleCreateSession,
    VoiceGateway.handleChangeVoice, VoiceGateway.handleGetVoices,
    VoiceGateway.repeatLast, VoiceGateway.handlePythonMessage,
    VoiceGateway.getActiveClient, VoiceGateway.emit_if,
    VoiceGateway.emitPollyAudio, PollyService.synthesizeSpeech,
    VoiceGateway.assign_lastQuery, VoiceGateway.client_emit,
    AudioDedupCache.isDuplicate, AudioDedupCache.hash,
    TtsRelayCache.get, Redis.getBuffer, ExactResponseCache.set,
    PythonSocket.sendNewSession, PythonSocket.sendTextQuery,
    PythonSocket.sendTextOnlyQuery, PythonSocket.sendVoiceInput,
    PythonSocket.sendInterimSpeech, PythonSocket.sendChangeVoice,
    PythonSocket.sendGetVoices, PythonSocket.pythonSessionId, console_error.

Lemma redis_get_quiet key w : out (Redis.get key w) = [].
Proof. unfold Redis.get. now destruct (redis_up (redis w)). Qed.

Lemma session_set_quiet sessionId payload w : out (SessionCache.set sessionId payload w) = [].
Proof. now rewrite session_set_total. Qed.

Lemma exact_get_quiet lang text w : out (ExactResponseCache.get lang text w) = [].
Proof. now rewrite exact_get_total. Qed.

Ltac quiet_leaf :=
  apply emits_quiet; intros;
  first [ apply session_get_quiet | apply session_set_quiet | apply exact_get_quiet
        | apply redis_get_quiet | apply redis_set_quiet ].

Ltac emits_all :=
  repeat first [ quiet_leaf | emits_step ].

Ltac while_step :=
  first
    [ apply emit_while_down
    | apply while_leaf;
      [ solve [unfold PythonSocket.isConnected; emits_all]
      | solve [unfold PythonSocket.isConnected; repeat frame_step] ]
    | apply while_bind; [|intros]
    | apply while_try_catch; [|intros]
    | match goal with
      | |- emits_while _ _ (if ?b then _ else _) => destruct b
      | |- emits_while _ _ (match ?x with _ => _ end) => destruct x
      end ].

Lemma subscribed_while_down client m :
  emits_while link_down not_upstream (Relay.subscribed client m).
Proof.
  destruct m; cbn [Relay.subscribed]; unfold_handlers; repeat while_step.
Qed.

Lemma connection_while_down client :
  emits_while link_down not_upstream (VoiceGateway.handleConnection client).
Proof. unfold_handlers. repeat while_step. Qed.

Lemma python_event_not_upstream event data w :
  Forall not_upstream (out (PythonSocket.on VoiceGateway.handlePythonMessage event data w)).
Proof.
  assert (H : forall msg w',
             Forall not_upstream
                    (out (PythonSocket.dispatch VoiceGateway.handlePythonMessage msg w'))).
  { intros msg w'. apply emits_at. unfold PythonSocket.dispatch, console_error.
    apply emits_bind; [apply emits_read|]. intros b. destruct b; cbn [negb];
      [|apply emits_ret].
    apply emits_try_catch.
    - intros w0. eapply Forall_impl; [apply python_message_emits_locally|].
      intros a Ha. now destruct a.
    - intros e. now apply emits_act. }
  unfold PythonSocket.on.
  destruct (String.eqb event "text_response").
  - destruct data; first [apply H | constructor].
  - destruct (PythonSocket.listener PythonSocket.forwarded event); [apply H | constructor].
Qed.

Lemma step_while_down e w :
  link_up w = false -> Forall not_upstream (snd (Relay.step e w)).
Proof.
  intros Hdown. unfold Relay.step. cbn [snd]. apply Forall_app. split.
  2: { destruct (res (Relay.react e w)); repeat constructor. }
  destruct e as [c|c|c m|event data|sid|up|ms]; cbn [Relay.react].
  - unfold bind at 1, modify at 1. cbn [res world out app].
    apply connection_while_down. unfold link_down, modify. cbn [res world out].
    destruct (Relay.is_connected_client c w); exact Hdown.
  - unfold VoiceGateway.handleDisconnect. apply emits_at.
    repeat first [ apply emits_bind; [|intros] | emits_step ].
  - unfold bind at 1. unfold read. cbn [res world out app].
    destruct (Relay.is_connected_client c w); [|constructor].
    apply subscribed_while_down. exact Hdown.
  - unfold bind at 1, PythonSocket.isConnected. unfold read. cbn [res world out app].
    destruct (match socket w with Some s => connected s | None => false end);
      [apply python_event_not_upstream | constructor].
  - constructor.
  - constructor.
  - constructor.
Qed.

(** While the link to Python is down, nothing whatever is sent upstream:
    every send is dropped, none is queued for later. *)
Theorem nothing_sent_while_link_down (e : Relay.Event) (w : World) :
  link_up w = false ->
  Forall not_upstream (snd (Relay.step e w)).
Proof. apply step_while_down. Qed.

Lemma nothing_sent_while_link_down_witness :
  link_up fresh = false /\
  Forall not_upstream
         (snd (Relay.step (Relay.FromClient "A" (Relay.text_only_input "hi"))
                          (Relay.run [Relay.Connect "A"] fresh))).
Proof.
  split; [reflexivity|].
  apply (nothing_sent_while_link_down
           (Relay.FromClient "A" (Relay.text_only_input "hi"))
           (Relay.run [Relay.Connect "A"] fresh)).
  vm_compute. reflexivity.
Defined.

(* ===================================================================== *)
(** * Further properties: objects *)
(* ===================================================================== *)

Lemma assoc_put_eq k v l : assoc k (put k v l) = Some v.
Proof.
  induction l as [|[k' v'] l IH]; cbn; [now rewrite String.eqb_refl|].
  destruct (String.eqb k k') eqn:E; cbn; rewrite ?String.eqb_refl, ?E; auto.
Qed.

Lemma assoc_put_ne k k' v l : k <> k' -> assoc k (put k' v l) = assoc k l.
Proof.
  intros Hne. apply String.eqb_neq in Hne.
  induction l as [|[k0 v0] l IH]; cbn; [now rewrite Hne|].
  destruct (String.eqb k' k0) eqn:E; cbn.
  - apply String.eqb_eq in E. subst k0. now rewrite Hne.
  - now rewrite IH.
Qed.

Lemma assoc_remove_eq k l : assoc k (remove k l) = None.
Proof.
  induction l as [|[k' v'] l IH]; cbn; [reflexivity|].
  destruct (String.eqb k k') eqn:E; cbn; rewrite ?E; auto.
Qed.

Lemma assoc_remove_ne k k' l : k <> k' -> assoc k (remove k' l) = assoc k l.
Proof.
  intros Hne. apply String.eqb_neq in Hne.
  induction l as [|[k0 v0] l IH]; cbn; [reflexivity|].
  destruct (String.eqb k' k0) eqn:E; cbn.
  - apply String.eqb_eq in E. subst k0. now rewrite Hne.
  - now rewrite IH.
Qed.

(** The type under which a message is dispatched is the one the socket
    layer put on it. *)
Lemma is_type_put t t' l :
  VoiceGateway.is_type (JObj (put "type" (JStr t) l)) t' = String.eqb t t'.
Proof. unfold VoiceGateway.is_type. cbn [get_field]. now rewrite assoc_put_eq. Qed.

(* ===================================================================== *)
(** * Further properties: the listeners of PythonSocket *)
(* ===================================================================== *)

Lemma index_key_head i :
  exists c r, index_key i = String c r /\ is_digit c = true.
Proof.
  unfold index_key.
  assert (Hn : Nat.to_uint i = unorm (Nat.to_uint i)).
  { pose proof (DecimalNat.Unsigned.to_of (Nat.to_uint i)) as H.
    now rewrite DecimalNat.Unsigned.of_to in H. }
  pose proof (DecimalFacts.unorm_nonnil (Nat.to_uint i)) as Hnil. rewrite <- Hn in Hnil.
  destruct (Nat.to_uint i); try congruence; cbn; eexists _, _; split; reflexivity.
Qed.

Lemma index_key_injective i j : index_key i = index_key j -> i = j.
Proof.
  unfold index_key. intros E.
  assert (Hn : forall n, Nat.to_uint n <> Nil).
  { intros n. pose proof (DecimalNat.Unsigned.to_of (Nat.to_uint n)) as H.
    rewrite DecimalNat.Unsigned.of_to in H. rewrite H.
    apply DecimalFacts.unorm_nonnil. }
  pose proof (NilZero.usu _ (Hn i)) as Hi. pose proof (NilZero.usu _ (Hn j)) as Hj.
  rewrite E in Hi. rewrite Hi in Hj. injection Hj as Hj.
  now apply DecimalNat.Unsigned.to_uint_inj.
Qed.

Lemma assoc_indexed_named k n l : named k = true -> assoc k (indexed n l) = None.
Proof.
  intros Hk. revert n. induction l as [|x l IH]; intros n; cbn [indexed assoc];
    [reflexivity|].
  destruct (String.eqb_spec k (index_key n)) as [E|_]; [|apply IH].
  destruct (index_key_head n) as (c & r & Hc & Hd). rewrite Hc in E. subst k.
  cbn in Hk. now rewrite Hd in Hk.
Qed.

Lemma assoc_indexed l : forall n i v,
  nth_error l i = Some v -> assoc (index_key (n + i)) (indexed n l) = Some v.
Proof.
  induction l as [|x l IH]; intros n [|i] v H; cbn in H; try discriminate H;
    cbn [indexed assoc].
  - injection H as ->. now rewrite Nat.add_0_r, String.eqb_refl.
  - destruct (String.eqb_spec (index_key (n + S i)) (index_key n)) as [E|_].
    + apply index_key_injective in E. lia.
    + rewrite Nat.add_succ_r. apply (IH (S n) i v H).
Qed.

(** A property that is not an index is copied by a spread only from an
    object. *)
Lemma get_field_spread k data :
  named k = true -> assoc k (spread data) = get_field k data.
Proof.
  intros Hk. destruct data; try reflexivity; cbn [spread get_field];
    now apply assoc_indexed_named.
Qed.

(** Every event Python emits reaches the handler under the type of its
    listener, whatever [type] the payload carries; its other properties are
    those a spread copies from the payload: the fields of an object, the
    indexed elements of an array, the indexed characters of a string, none
    of a number or a boolean.  For [text_response] the payload's own [type]
    travels on as [python_type].  A [text_response] whose payload is [null]
    throws a [TypeError] before [dispatch] is reached, and an event without
    listener is ignored. *)
Theorem upstream_events_are_normalised (handler : json -> M unit) (w : World) :
  (forall event t data,
     PythonSocket.listener PythonSocket.forwarded event = Some t ->
     exists msg,
       PythonSocket.on handler event data w = PythonSocket.dispatch handler msg w /\
       get_field "type" msg = Some (JStr t) /\
       (forall k, k <> "type" -> get_field k msg = assoc k (spread data))) /\
  (forall data,
     data <> JNull ->
     exists msg,
       PythonSocket.on handler "text_response" data w
       = PythonSocket.dispatch handler msg w /\
       get_field "type" msg = Some (JStr "TEXT_RESPONSE") /\
       get_field "python_type" msg = get_field "type" data /\
       (forall k, k <> "type" -> k <> "python_type" ->
                  get_field k msg = assoc k (spread data))) /\
  ((exists text,
      res (PythonSocket.on handler "text_response" JNull w) = Throw (TypeError text)) /\
   out (PythonSocket.on handler "text_response" JNull w) = []) /\
  (forall event data,
     event <> "text_response" ->
     PythonSocket.listener PythonSocket.forwarded event = None ->
     PythonSocket.on handler event data w = mkOutcome (Ok tt) w []) /\
  (forall data k, named k = true -> assoc k (spread data) = get_field k data) /\
  (forall l i v,
     nth_error l i = Some v -> assoc (index_key i) (spread (JArr l)) = Some v) /\
  (forall s i c,
     nth_error (list_ascii_of_string s) i = Some c ->
     assoc (index_key i) (spread (JStr s)) = Some (JStr (String c EmptyString))).
Proof.
  repeat apply conj.
  - intros event t data Hl.
    assert (Hne : String.eqb event "text_response" = false).
    { destruct (String.eqb_spec event "text_response") as [->|]; [|reflexivity].
      cbn in Hl. discriminate. }
    exists (JObj (put "type" (JStr t) (spread data))).
    unfold PythonSocket.on. rewrite Hne, Hl. split; [reflexivity|].
    cbn [get_field]. split; [apply assoc_put_eq|].
    intros k Hk. now rewrite assoc_put_ne by exact Hk.
  - intros data Hdata.
    exists (JObj (obj_build (remove "type" (spread data))
                            [("python_type", get_field "type" data);
                             ("type", Some (JStr "TEXT_RESPONSE"))])).
    split; [destruct data; try reflexivity; congruence|].
    unfold obj_build. cbn [fold_left fst snd get_field].
    split; [apply assoc_put_eq|]. split.
    + rewrite assoc_put_ne by discriminate.
      destruct (get_field "type" data); [apply assoc_put_eq | apply assoc_remove_eq].
    + intros k Hk Hk'. rewrite assoc_put_ne by exact Hk.
      destruct (get_field "type" data);
        [rewrite assoc_put_ne by exact Hk' | rewrite assoc_remove_ne by exact Hk'];
        now rewrite assoc_remove_ne by exact Hk.
  - eexists. reflexivity.
  - reflexivity.
  - intros event data Hne Hl. unfold PythonSocket.on.
    apply String.eqb_neq in Hne. now rewrite Hne, Hl.
  - intros data k. apply get_field_spread.
  - intros l i v H. apply (assoc_indexed l 0 i v H).
  - intros s i c H. apply (assoc_indexed (characters s) 0 i).
    unfold characters. now rewrite nth_error_map, H.
Qed.

Lemma upstream_events_are_normalised_witness :
  exists msg,
    PythonSocket.on VoiceGateway.handlePythonMessage "status" (JStr "ok") fresh
    = PythonSocket.dispatch VoiceGateway.handlePythonMessage msg fresh /\
    get_field "type" msg = Some (JStr "STATUS") /\
    get_field "0" msg = Some (JStr "o") /\
    get_field "1" msg = Some (JStr "k").
Proof.
  destruct (proj1 (upstream_events_are_normalised VoiceGateway.handlePythonMessage fresh)
              "status" "STATUS" (JStr "ok") eq_refl)
    as (msg & H1 & H2 & H3).
  exists msg. split; [exact H1|]. split; [exact H2|]. split.
  - rewrite (H3 "0") by discriminate. reflexivity.
  - rewrite (H3 "1") by discriminate. reflexivity.
Defined.

(* ===================================================================== *)
(** * Further properties: events handed on to the active client *)
(* ===================================================================== *)

Lemma from_python_step event data w :
  link_up w = true ->
  Relay.step (Relay.FromPython event data) w
  = (world (PythonSocket.on VoiceGateway.handlePythonMessage event data w),
     out (PythonSocket.on VoiceGateway.handlePythonMessage event data w)
     ++ match res (PythonSocket.on VoiceGateway.handlePythonMessage event data w) with
        | Ok _ => []
        | Throw err => [Unhandled err]
        end).
Proof.
  intros Hup. unfold link_up in Hup.
  unfold Relay.step. cbn [Relay.react]. unfold bind, PythonSocket.isConnected, read.
  cbn [res world out]. rewrite Hup. reflexivity.
Qed.

Lemma handler_passes_through event t l w :
  In (event, t) passed_through ->
  VoiceGateway.handlePythonMessage (JObj (put "type" (JStr t) l)) w
  = mkOutcome (Ok tt) w
      match active_client w with
      | Some c => [ClientEmit c event (JObj (put "type" (JStr t) l))]
      | None => []
      end.
Proof.
  intros Hin. unfold VoiceGateway.handlePythonMessage. unfold bind at 1.
  unfold VoiceGateway.getActiveClient. unfold read.
  cbn [res world out app].
  change (match activeFrontendClient w with
          | Some a =>
            if String.eqb a EmptyString then None
            else if existsb (String.eqb a) (sockets w) then Some a else None
          | None => None
          end) with (active_client w).
  rewrite !is_type_put.
  unfold passed_through in Hin. cbn [In] in Hin.
  repeat (destruct Hin as [Hin|Hin];
          [injection Hin as <- <-; cbn [String.eqb Ascii.eqb Bool.eqb andb];
           unfold VoiceGateway.emit_if, VoiceGateway.client_emit, act, ret;
           destruct (active_client w); reflexivity | ]).
  destruct Hin.
Qed.

(** The ten plain notifications of Python ([query_received], [audio_start],
    [audio_end], ...) reach the active client under the same event name,
    with what a spread copies of the payload (the fields of an object, the
    indexed elements of an array or of a string) plus the dispatch type;
    with no active client they are dropped.  Nothing else happens. *)
Theorem notifications_pass_through
        (event t : string) (data : json) (w : World) :
  In (event, t) passed_through ->
  link_up w = true ->
  messageHandler w = true ->
  Relay.step (Relay.FromPython event data) w
  = (w, match active_client w with
        | Some c => [ClientEmit c event (JObj (put "type" (JStr t) (spread data)))]
        | None => []
        end).
Proof.
  intros Hin Hup Hreg. rewrite (from_python_step event data w Hup).
  assert (Hl : PythonSocket.listener PythonSocket.forwarded event = Some t
               /\ String.eqb event "text_response" = false).
  { unfold passed_through in Hin. cbn [In] in Hin.
    repeat (destruct Hin as [Hin|Hin]; [injection Hin as <- <-; now split|]).
    destruct Hin. }
  destruct Hl as [Hl Hne]. unfold PythonSocket.on. rewrite Hne, Hl.
  unfold obj_build. cbn [fold_left fst snd].
  rewrite (dispatch_registered _ _ w Hreg). cbv zeta.
  rewrite (handler_passes_through event t (spread data) w Hin).
  cbn [res world out]. rewrite !app_nil_r. reflexivity.
Qed.

Lemma notifications_pass_through_witness :
  Relay.step (Relay.FromPython "audio_end" (JObj [("chunks", JNum 3)])) before_reply
  = (before_reply,
     [ClientEmit "B" "audio_end" (JObj [("chunks", JNum 3); ("type", JStr "AUDIO_END")])]) /\
  Relay.step (Relay.FromPython "audio_end" (JStr "ab")) before_reply
  = (before_reply,
     [ClientEmit "B" "audio_end"
        (JObj [("0", JStr "a"); ("1", JStr "b"); ("type", JStr "AUDIO_END")])]).
Proof.
  assert (Hin : In ("audio_end", "AUDIO_END") passed_through) by (cbn; tauto).
  assert (Hup : link_up before_reply = true) by (vm_compute; reflexivity).
  assert (Hreg : messageHandler before_reply = true) by (vm_compute; reflexivity).
  assert (H : active_client before_reply = Some "B") by (vm_compute; reflexivity).
  split.
  - rewrite (notifications_pass_through "audio_end" "AUDIO_END"
               (JObj [("chunks", JNum 3)]) before_reply Hin Hup Hreg).
    now rewrite H.
  - rewrite (notifications_pass_through "audio_end" "AUDIO_END"
               (JStr "ab") before_reply Hin Hup Hreg).
    now rewrite H.
Defined.

(* ===================================================================== *)
(** * Further properties: speech synthesis *)
(* ===================================================================== *)

Lemma synthesize_outcome text voice w :
  PollyService.synthesizeSpeech text voice w
  = mkOutcome
      match polly_send (lib w) text voice with
      | PollyRejects e => Throw e
      | PollyResponds (Some chunks) => Ok (String.concat EmptyString chunks)
      | PollyResponds None => Throw (Error "No audio stream in response")
      end
      w
      (PollySend text voice
       :: match synthesis_error (polly_send (lib w) text voice) with
          | Some e => [LogError (String.append "Polly TTS error: " (message e))]
          | None => []
          end).
Proof.
  unfold PollyService.synthesizeSpeech, try_catch, bind, act, read, throw, ret.
  cbn [res world out].
  destruct (polly_send (lib w) text voice) as [e|[chunks|]]; reflexivity.
Qed.

Lemma emit_polly_outcome client text w :
  VoiceGateway.emitPollyAudio client text w
  = mkOutcome (Ok tt) w
      (PollySend text (polly_voice w)
       :: after_synthesis client w (polly_send (lib w) text (polly_voice w))).
Proof.
  unfold VoiceGateway.emitPollyAudio, try_catch, bind, read.
  cbn [res world out]. fold (polly_voice w). rewrite synthesize_outcome.
  unfold after_synthesis. cbn [res world out].
  destruct (polly_send (lib w) text (polly_voice w)) as [e|[chunks|]];
    cbn [res world out synthesis_error]; reflexivity.
Qed.

(** [emitPollyAudio] calls the engine once and never throws: on audio it
    emits [tts_audio] with the chunks joined and base64-encoded, to the
    client it was given; on a rejection or a reply without audio stream it
    logs (once in the service, once in the gateway) and emits nothing.
    [synthesizeSpeech] itself rethrows the error it logged. *)
Theorem polly_audio_outcome (client : string) (text : option json) (w : World) :
  VoiceGateway.emitPollyAudio client text w
  = mkOutcome (Ok tt) w
      (PollySend text (polly_voice w)
       :: after_synthesis client w (polly_send (lib w) text (polly_voice w))) /\
  res (PollyService.synthesizeSpeech text (polly_voice w) w)
  = match polly_send (lib w) text (polly_voice w) with
    | PollyRejects e => Throw e
    | PollyResponds (Some chunks) => Ok (String.concat EmptyString chunks)
    | PollyResponds None => Throw (Error "No audio stream in response")
    end.
Proof.
  split; [apply emit_polly_outcome | now rewrite synthesize_outcome].
Qed.

(* ===================================================================== *)
(** * Further properties: text responses *)
(* ===================================================================== *)

Lemma is_type_unique msg t :
  VoiceGateway.is_type msg t = true ->
  forall t', VoiceGateway.is_type msg t' = String.eqb t t'.
Proof.
  unfold VoiceGateway.is_type. destruct (get_field "type" msg) as [[]|]; try discriminate.
  intros H t'. apply String.eqb_eq in H. now subst.
Qed.

(** A [text_response] whose text is neither empty nor a string is not
    handed on: the handler throws before it emits anything, and [dispatch]
    logs the error. *)
Theorem non_string_response_is_not_forwarded (msg v : json) (w : World) :
  VoiceGateway.is_type msg "TEXT_RESPONSE" = true ->
  response_text msg = Some v ->
  is_string v = false ->
  VoiceGateway.handlePythonMessage msg w
  = mkOutcome (Throw (TypeError "responseText.substring is not a function")) w [] /\
  (messageHandler w = true ->
   PythonSocket.dispatch VoiceGateway.handlePythonMessage msg w
   = mkOutcome (Ok tt) w
       [LogError "Error in Python message handler: responseText.substring is not a function"]).
Proof.
  intros Htype Htext Hstr.
  assert (H : VoiceGateway.handlePythonMessage msg w
              = mkOutcome (Throw (TypeError "responseText.substring is not a function")) w []).
  { unfold VoiceGateway.handlePythonMessage. unfold bind at 1.
    unfold VoiceGateway.getActiveClient. unfold read. cbn [res world out app].
    rewrite !(is_type_unique msg _ Htype). cbn [String.eqb Ascii.eqb Bool.eqb andb].
    fold (response_text msg). rewrite Htext. unfold bind.
    destruct v; try discriminate Hstr; reflexivity. }
  split; [exact H|].
  intros Hreg. rewrite (dispatch_registered _ _ w Hreg). cbv zeta. now rewrite H.
Qed.

Lemma non_string_response_is_not_forwarded_witness :
  PythonSocket.dispatch VoiceGateway.handlePythonMessage
    (JObj [("response", JNum 5); ("type", JStr "TEXT_RESPONSE")]) before_reply
  = mkOutcome (Ok tt) before_reply
      [LogError "Error in Python message handler: responseText.substring is not a function"].
Proof.
  apply (non_string_response_is_not_forwarded
           (JObj [("response", JNum 5); ("type", JStr "TEXT_RESPONSE")]) (JNum 5)
           before_reply eq_refl eq_refl eq_refl).
  vm_compute. reflexivity.
Defined.

Lemma text_response_outcome msg r c w :
  VoiceGateway.is_type msg "TEXT_RESPONSE" = true ->
  response_text msg = Some (JStr r) ->
  active_client w = Some c ->
  VoiceGateway.handlePythonMessage msg w
  = let emitted :=
        [ClientEmit c "text_response" (text_response_payload msg (Some (JStr r)));
         ClientEmit c "stream_complete" (stream_complete_payload msg (Some (JStr r)))] in
    match get_field "lastQuery" (session_value c w) with
    | Some q =>
      if truthy q
      then mkOutcome (res (ExactResponseCache.set "en" (js_string_of q) (JStr r) w))
                     (world (ExactResponseCache.set "en" (js_string_of q) (JStr r) w))
                     emitted
      else mkOutcome (Ok tt) w emitted
    | None => mkOutcome (Ok tt) w emitted
    end.
Proof.
  intros Htype Htext Hact.
  unfold VoiceGateway.handlePythonMessage. unfold bind at 1.
  unfold VoiceGateway.getActiveClient. unfold read. cbn [res world out app].
  change (match activeFrontendClient w with
          | Some a =>
            if String.eqb a EmptyString then None
            else if existsb (String.eqb a) (sockets w) then Some a else None
          | None => None
          end) with (active_client w).
  rewrite Hact, !(is_type_unique msg _ Htype). cbn [String.eqb Ascii.eqb Bool.eqb andb].
  fold (response_text msg). rewrite Htext.
  fold (text_response_payload msg (Some (JStr r))).
  fold (stream_complete_payload msg (Some (JStr r))).
  unfold bind, ret, VoiceGateway.client_emit, act. cbn [res world out app].
  rewrite session_get_total. cbn [res world out app].
  destruct (get_field "lastQuery" (session_value c w)) as [q|]; [|reflexivity].
  destruct (truthy q); [|reflexivity].
  cbn [default]. rewrite exact_set_quiet. reflexivity.
Qed.

Lemma text_response_dropped msg r w :
  VoiceGateway.is_type msg "TEXT_RESPONSE" = true ->
  response_text msg = Some (JStr r) ->
  active_client w = None ->
  VoiceGateway.handlePythonMessage msg w = mkOutcome (Ok tt) w [].
Proof.
  intros Htype Htext Hact.
  unfold VoiceGateway.handlePythonMessage. unfold bind at 1.
  unfold VoiceGateway.getActiveClient. unfold read. cbn [res world out app].
  change (match activeFrontendClient w with
          | Some a =>
            if String.eqb a EmptyString then None
            else if existsb (String.eqb a) (sockets w) then Some a else None
          | None => None
          end) with (active_client w).
  rewrite Hact, !(is_type_unique msg _ Htype). cbn [String.eqb Ascii.eqb Bool.eqb andb].
  fold (response_text msg). rewrite Htext. reflexivity.
Qed.

(* ===================================================================== *)
(** * Further properties: text input *)
(* ===================================================================== *)

Lemma record_fields_spec stored fields :
  record_fields stored = Some fields ->
  (if truthy stored then stored else JObj []) = JObj fields.
Proof.
  unfold record_fields. destruct (truthy stored); [|now intros [= <-]].
  destruct stored; try discriminate. now intros [= <-].
Qed.

(** Reading a session right after writing it returns what was written,
    whether the store accepts commands or not. *)
Lemma session_set_get_immediate sessionId payload w :
  session_value sessionId (world (SessionCache.set sessionId payload w)) = payload.
Proof.
  rewrite session_set_total. cbn [world]. unfold session_value.
  destruct (redis_up (redis w)) eqn:E;
    cbn [redis redis_up memory now set_redis set_memory]; rewrite ?E.
  - unfold Redis.live. cbn [redis_data]. rewrite lookup_insert_eq.
    assert (Hlt : (now w <? now w + 1800 * 1000) = true) by (apply Z.ltb_lt; lia).
    now rewrite Hlt, JsonFacts.JSON_stringify_nonempty, JsonFacts.JSON_roundtrip.
  - now rewrite lookup_insert_eq.
Qed.

Lemma query_recorded_frame client text fields w :
  lib (query_recorded client text fields w) = lib w /\
  env (query_recorded client text fields w) = env w /\
  socket (query_recorded client text fields w) = socket w /\
  sockets (query_recorded client text fields w) = sockets w /\
  activeFrontendClient (query_recorded client text fields w) = Some client /\
  now (query_recorded client text fields w) = now w /\
  redis_up (redis (query_recorded client text fields w)) = redis_up (redis w).
Proof.
  unfold query_recorded.
  pose proof (session_set_frame client (JObj (put "lastQuery" (JStr text) fields))
                (set_active (Some client) w)) as H.
  cbv zeta in H. cbn [socket activeFrontendClient sockets lib env now redis set_active] in H.
  tauto.
Qed.

Lemma text_input_prefix client text fields w :
  record_fields (session_value client w) = Some fields ->
  VoiceGateway.handleTextInput client text w
  = bind (ExactResponseCache.get "en" text) (text_input_rest client text)
         (query_recorded client text fields w).
Proof.
  intros Hrec.
  assert (Hset : SessionCache.set client (JObj (put "lastQuery" (JStr text) fields))
                                  (set_active (Some client) w)
                 = mkOutcome (Ok tt) (query_recorded client text fields w) []).
  { unfold query_recorded. now rewrite !session_set_total. }
  unfold VoiceGateway.handleTextInput.
  rewrite (bind_quiet _ _ w tt (set_active (Some client) w)) by reflexivity.
  rewrite (bind_quiet _ _ _ (session_value client w) (set_active (Some client) w))
    by (rewrite session_get_total; reflexivity).
  rewrite (record_fields_spec _ _ Hrec). cbn [VoiceGateway.assign_lastQuery].
  rewrite (bind_quiet _ _ _ (JObj (put "lastQuery" (JStr text) fields))
                      (set_active (Some client) w)) by reflexivity.
  rewrite (bind_quiet _ _ _ tt (query_recorded client text fields w)) by exact Hset.
  reflexivity.
Qed.

Lemma text_input_hit_rest client text cached w :
  truthy cached = true ->
  text_input_rest client text cached w
  = mkOutcome (Ok tt) w
      ([ClientEmit client "text_response"
          (obj [("response", cached_text cached); ("message", cached_text cached);
                ("type", Some (JStr "cached"))]);
        ClientEmit client "stream_complete"
          (obj [("fullResponse", cached_text cached);
                ("metadata", Some (JObj [("cached", JBool true)]))]);
        PollySend (cached_text cached) (polly_voice w)]
       ++ after_synthesis client w
            (polly_send (lib w) (cached_text cached) (polly_voice w))).
Proof.
  intros Ht. unfold text_input_rest. rewrite Ht, !bind_emit.
  now rewrite (emit_polly_outcome client (cached_text cached) w).
Qed.

Lemma text_input_miss_rest client text cached w :
  truthy cached = false ->
  text_input_rest client text cached w
  = mkOutcome (Ok tt) w
      (if link_up w
       then [PythonEmit "text_query" (JObj [("text", JStr text); ("message", JStr text)])]
       else [ClientEmit client "error"
               (JObj [("message", JStr "AI service not available. Retrying…")])]).
Proof.
  intros Ht. unfold text_input_rest. rewrite Ht.
  unfold bind, PythonSocket.isConnected, PythonSocket.sendTextQuery,
    PythonSocket.emit, PythonSocket.isConnected, bind, read,
    VoiceGateway.client_emit, act, console_error, link_up.
  destruct w as [n2 e2 l2 r2 m2 s2 a2 k2 h2]. cbn [res world out socket].
  destruct k2 as [[[|] sid]|]; reflexivity.
Qed.

(** [handleTextInput] up to the cache lookup. *)
Lemma text_input_lookup client text fields w :
  record_fields (session_value client w) = Some fields ->
  let w2 := query_recorded client text fields w in
  VoiceGateway.handleTextInput client text w
  = match parsed_result (ExactResponseCache.key "en" text) w with
    | Throw e => mkOutcome (Throw e) w2 []
    | Ok cached =>
      if truthy cached then
        mkOutcome (Ok tt) w2
          ([ClientEmit client "text_response"
              (obj [("response", cached_text cached); ("message", cached_text cached);
                    ("type", Some (JStr "cached"))]);
            ClientEmit client "stream_complete"
              (obj [("fullResponse", cached_text cached);
                    ("metadata", Some (JObj [("cached", JBool true)]))]);
            PollySend (cached_text cached) (polly_voice w)]
           ++ after_synthesis client w
                (polly_send (lib w) (cached_text cached) (polly_voice w)))
      else
        mkOutcome (Ok tt) w2
          (if link_up w
           then [PythonEmit "text_query" (JObj [("text", JStr text); ("message", JStr text)])]
           else [ClientEmit client "error"
                   (JObj [("message", JStr "AI service not available. Retrying…")])])
    end.
Proof.
  intros Hrec w2.
  pose proof (query_recorded_frame client text fields w)
    as (Hlib & Henv & Hsock & _ & _ & _ & _).
  assert (Hres : parsed_result (ExactResponseCache.key "en" text) w2
                 = parsed_result (ExactResponseCache.key "en" text) w).
  { subst w2. unfold query_recorded. now rewrite exact_get_after_session_set. }
  rewrite (text_input_prefix client text fields w Hrec).
  fold w2 in Hlib, Henv, Hsock |- *. clearbody w2.
  destruct (parsed_result (ExactResponseCache.key "en" text) w) as [cached|e] eqn:Hp.
  - rewrite (bind_quiet _ _ _ cached w2) by (now rewrite exact_get_total, Hres).
    destruct (truthy cached) eqn:Ht.
    + rewrite (text_input_hit_rest _ _ _ _ Ht).
      assert (Hvoice : polly_voice w2 = polly_voice w)
        by (unfold polly_voice; now rewrite Henv).
      assert (Hafter : forall reply, after_synthesis client w2 reply
                                     = after_synthesis client w reply)
        by (intros reply; unfold after_synthesis; now rewrite Hlib).
      now rewrite Hvoice, Hlib, Hafter.
    + rewrite (text_input_miss_rest _ _ _ _ Ht). unfold link_up. now rewrite Hsock.
  - apply bind_thrown. now rewrite exact_get_total, Hres.
Qed.


(** [text_input], for a client whose session record is an object or
    absent: the query is recorded in the record and the sender becomes the
    active client; then a cached answer is emitted to the sender without any
    upstream traffic, or the query is forwarded as [text_query] (link up) or
    refused with an [error] event (link down).  If the store rejects the
    lookup the handler throws, having emitted and forwarded nothing. *)
Theorem text_input_outcome
        (client text : string) (fields : list (string * json)) (w : World) :
  record_fields (session_value client w) = Some fields ->
  let w2 := query_recorded client text fields w in
  VoiceGateway.handleTextInput client text w
  = match parsed_result (ExactResponseCache.key "en" text) w with
    | Throw e => mkOutcome (Throw e) w2 []
    | Ok cached =>
      if truthy cached then
        mkOutcome (Ok tt) w2
          ([ClientEmit client "text_response"
              (obj [("response", cached_text cached); ("message", cached_text cached);
                    ("type", Some (JStr "cached"))]);
            ClientEmit client "stream_complete"
              (obj [("fullResponse", cached_text cached);
                    ("metadata", Some (JObj [("cached", JBool true)]))]);
            PollySend (cached_text cached) (polly_voice w)]
           ++ after_synthesis client w
                (polly_send (lib w) (cached_text cached) (polly_voice w)))
      else
        mkOutcome (Ok tt) w2
          (if link_up w
           then [PythonEmit "text_query" (JObj [("text", JStr text); ("message", JStr text)])]
           else [ClientEmit client "error"
                   (JObj [("message", JStr "AI service not available. Retrying…")])])
    end /\
  res (SessionCache.get client w2) = Ok (JObj (put "lastQuery" (JStr text) fields)) /\
  activeFrontendClient w2 = Some client.
Proof.
  intros Hrec w2. split; [now apply text_input_lookup|]. split.
  - subst w2. unfold query_recorded. rewrite session_get_total. cbn [res].
    now rewrite session_set_get_immediate.
  - apply query_recorded_frame.
Qed.

Lemma text_input_outcome_witness :
  VoiceGateway.handleTextInput "A" "hello?" (Relay.run [Relay.Connect "A"] fresh)
  = mkOutcome (Ok tt)
      (query_recorded "A" "hello?" [("connectedAt", JNum 0)]
                      (Relay.run [Relay.Connect "A"] fresh))
      [ClientEmit "A" "error"
         (JObj [("message", JStr "AI service not available. Retrying…")])].
Proof.
  assert (Hrec : record_fields (session_value "A" (Relay.run [Relay.Connect "A"] fresh))
                 = Some [("connectedAt", JNum 0)]) by (vm_compute; reflexivity).
  rewrite (proj1 (text_input_outcome "A" "hello?" _ _ Hrec)).
  assert (Hp : parsed_result (ExactResponseCache.key "en" "hello?")
                             (Relay.run [Relay.Connect "A"] fresh) = Ok JNull)
    by (vm_compute; reflexivity).
  rewrite Hp. reflexivity.
Defined.

(* ===================================================================== *)
(** * Further properties: reuse of answers *)
(* ===================================================================== *)

(** A [text_response] with a string text is emitted to the active client,
    followed by [stream_complete], and nothing else is emitted.  If the
    record of the active client holds a last query, the text is then stored
    in the exact response cache under that query and can be read back for
    60 s; if the store rejects the write the handler throws, the client
    having received the two events all the same. *)
Theorem response_cached_under_last_query
        (msg : json) (r c q : string) (w : World) :
  VoiceGateway.is_type msg "TEXT_RESPONSE" = true ->
  response_text msg = Some (JStr r) ->
  active_client w = Some c ->
  get_field "lastQuery" (session_value c w) = Some (JStr q) ->
  q <> EmptyString ->
  out (VoiceGateway.handlePythonMessage msg w)
  = [ClientEmit c "text_response" (text_response_payload msg (Some (JStr r)));
     ClientEmit c "stream_complete" (stream_complete_payload msg (Some (JStr r)))] /\
  (redis_up (redis w) = true ->
   res (VoiceGateway.handlePythonMessage msg w) = Ok tt /\
   forall ms, Z.of_N ms < 60 * 1000 ->
     res (ExactResponseCache.get "en" q
            (later ms (world (VoiceGateway.handlePythonMessage msg w)))) = Ok (JStr r)) /\
  (redis_up (redis w) = false ->
   res (VoiceGateway.handlePythonMessage msg w) = Throw Redis.unavailable).
Proof.
  intros Htype Htext Hact Hq Hne.
  rewrite (text_response_outcome msg r c w Htype Htext Hact). cbv zeta.
  rewrite Hq. cbn [truthy js_string_of].
  apply String.eqb_neq in Hne. rewrite Hne. cbn [negb res world out].
  split; [reflexivity|]. split.
  - intros up. unfold ExactResponseCache.set at 1. rewrite redis_set_up by exact up.
    split; [reflexivity|]. intros ms Hms. now apply exact_round_trip.
  - intros down. unfold ExactResponseCache.set. now rewrite redis_set_down.
Qed.

Lemma response_cached_under_last_query_witness :
  res (ExactResponseCache.get "en" "yo"
         (later 59999
            (world (VoiceGateway.handlePythonMessage
                      (JObj [("response", JStr "hello A"); ("type", JStr "TEXT_RESPONSE")])
                      before_reply))))
  = Ok (JStr "hello A").
Proof.
  assert (Hact : active_client before_reply = Some "B") by (vm_compute; reflexivity).
  assert (Hq : get_field "lastQuery" (session_value "B" before_reply) = Some (JStr "yo"))
    by (vm_compute; reflexivity).
  destruct (response_cached_under_last_query
              (JObj [("response", JStr "hello A"); ("type", JStr "TEXT_RESPONSE")])
              "hello A" "B" "yo" before_reply eq_refl eq_refl Hact Hq)
    as (_ & Hup & _); [discriminate|].
  assert (Hredis : redis_up (redis before_reply) = true) by (vm_compute; reflexivity).
  destruct (Hup Hredis) as [_ H]. apply H. reflexivity.
Defined.


(* ===================================================================== *)
(** * Further properties: audio chunks *)
(* ===================================================================== *)

(** [audio_chunk] on a store that accepts commands and holds no marker for
    the chunk: the chunk is marked, the sender becomes the active client and
    the chunk goes upstream once (or, with the link down, is dropped with a
    log entry).  The same chunk from the same client less than 2 s later is
    swallowed: nothing is sent, logged or changed, whatever the state of the
    link and whoever is the active client by then; so a chunk that was
    dropped because the link was down is not retried within the window. *)
Theorem audio_chunk_forwarded_once
        (client chunkBase64 : string) (d : N) (w : World) :
  redis_up (redis w) = true ->
  Redis.live (redis w) (now w) (marker client (base64_decode (lib w) chunkBase64) w) = None ->
  Z.of_N d < 2 * 1000 ->
  VoiceGateway.handleAudioChunk client chunkBase64 w
  = mkOutcome (Ok tt) (chunk_marked client chunkBase64 w)
      (sent_or_logged "audio_chunk"
         (JObj [("sessionId", JStr client); ("audio", JStr chunkBase64)]) w) /\
  activeFrontendClient (chunk_marked client chunkBase64 w) = Some client /\
  forall (link : option IoSocket) (active : option string),
    let w' := set_socket link (set_active active (later d (chunk_marked client chunkBase64 w))) in
    VoiceGateway.handleAudioChunk client chunkBase64 w' = mkOutcome (Ok tt) w' [].
Proof.
  intros up Hfresh Hd. split; [|split; [reflexivity|]].
  - rewrite (audio_chunk_outcome client chunkBase64 w up). now rewrite Hfresh.
  - intros link active w'.
    assert (up' : redis_up (redis w') = true) by reflexivity.
    rewrite (audio_chunk_outcome client chunkBase64 w' up').
    assert (Hlive : Redis.live (redis w') (now w')
                      (marker client (base64_decode (lib w') chunkBase64) w')
                    = Some "1").
    { change (Redis.live
                (redis (later d (written (marker client (base64_decode (lib w) chunkBase64) w)
                                         "1" 2 0 w)))
                (now (later d (written (marker client (base64_decode (lib w) chunkBase64) w)
                                       "1" 2 0 w)))
                (marker client (base64_decode (lib w) chunkBase64) w) = Some "1").
      rewrite (later_written _ _ _ 0 d), live_written.
      change (0 + d)%N with d.
      destruct (Z.ltb_spec (Z.of_N d) (2 * 1000)); [reflexivity|lia]. }
    now rewrite Hlive.
Qed.

Lemma audio_chunk_forwarded_once_witness :
  VoiceGateway.handleAudioChunk "A" "AAAA"
    (set_socket (Some (mkSocket true (Some "py-1")))
       (set_active (Some "B") (later 1999 (chunk_marked "A" "AAAA" fresh))))
  = mkOutcome (Ok tt)
      (set_socket (Some (mkSocket true (Some "py-1")))
         (set_active (Some "B") (later 1999 (chunk_marked "A" "AAAA" fresh))))
      [].
Proof.
  assert (Hd : Z.of_N 1999 < 2 * 1000) by reflexivity.
  destruct (audio_chunk_forwarded_once "A" "AAAA" 1999 fresh eq_refl eq_refl Hd)
    as (_ & _ & H).
  exact (H (Some (mkSocket true (Some "py-1"))) (Some "B")).
Defined.

(* ===================================================================== *)
(** * Further properties: the audio relay cache *)
(* ===================================================================== *)

(** The entry of the audio relay cache under [responseId]. *)
Lemma set_keeps_relay_entry responseId key value seconds :
  key <> TtsRelayCache.key responseId ->
  preserves (fun w => redis_data (redis w) !! TtsRelayCache.key responseId)
            (Redis.set_EX key value seconds).
Proof.
  intros Hk w. unfold Redis.set_EX. destruct (redis_up (redis w)); [|reflexivity].
  cbn [world redis set_redis redis_data]. now rewrite lookup_insert_ne.
Qed.

Ltac other_key :=
  let Heq := fresh "Heq" in
  intros Heq;
  unfold SessionCache.key, ExactResponseCache.key, AudioDedupCache.key,
    TtsRelayCache.key in Heq;
  cbn in Heq; discriminate Heq.

Ltac relay_step :=
  first [ apply set_keeps_relay_entry; other_key | frame_step ].

Lemma python_handler_keeps_relay_entry responseId msg :
  preserves (fun w => redis_data (redis w) !! TtsRelayCache.key responseId)
            (VoiceGateway.handlePythonMessage msg).
Proof. unfold_gateway. repeat relay_step. Qed.

Lemma react_keeps_relay_entry e responseId :
  preserves (fun w => redis_data (redis w) !! TtsRelayCache.key responseId) (Relay.react e).
Proof.
  destruct e as [client|client|client m|event data|sid|up|ms]; cbn [Relay.react].
  - apply preserves_bind.
    + apply preserves_modify. intros w.
      now destruct (Relay.is_connected_client client w).
    + intros _. unfold_gateway. unfold SessionCache.set. repeat relay_step.
  - unfold_gateway. repeat relay_step.
  - apply preserves_bind; [apply preserves_read|]. intros [|]; [|apply preserves_ret].
    destruct m; cbn [Relay.subscribed]; unfold_gateway; unfold SessionCache.set;
      repeat relay_step.
  - apply preserves_bind; [apply preserves_read|]. intros [|]; [|apply preserves_ret].
    apply on_keeps. intros msg. apply python_handler_keeps_relay_entry.
  - apply preserves_modify. intros w. now destruct (socket w).
  - now apply preserves_modify.
  - now apply preserves_modify.
Qed.

Lemma run_keeps_relay_entry tr responseId w :
  redis_data (redis (Relay.run tr w)) !! TtsRelayCache.key responseId
  = redis_data (redis w) !! TtsRelayCache.key responseId.
Proof.
  revert w. induction tr as [|e tr IH]; intros w; [reflexivity|].
  cbn [Relay.run]. rewrite IH. unfold Relay.step. cbn [fst].
  apply (react_keeps_relay_entry e responseId w).
Qed.

(** The relay reads the audio relay cache and never writes it: no event
    changes an entry of that cache.  So, in a run in which nobody but the
    relay writes to the store and which starts without relay audio,
    [repeat_last] never replays anything. *)
Theorem relay_never_stores_replay_audio
        (tr : list Relay.Event) (w : World) (client responseId : string) :
  no_relay_audio w ->
  no_relay_audio (Relay.run tr w) /\
  out (VoiceGateway.repeatLast client responseId (Relay.run tr w)) = [].
Proof.
  intros Hw.
  assert (Hrun : no_relay_audio (Relay.run tr w)).
  { intros r. rewrite run_keeps_relay_entry. apply Hw. }
  split; [exact Hrun|].
  unfold VoiceGateway.repeatLast, TtsRelayCache.get, Redis.getBuffer, Redis.get, bind.
  destruct (redis_up (redis (Relay.run tr w))); cbn [res world out]; [|reflexivity].
  unfold Redis.live. now rewrite Hrun.
Qed.

Lemma relay_never_stores_replay_audio_witness :
  out (VoiceGateway.repeatLast "A" "r1"
         (Relay.run [Relay.Connect "A"; Relay.FromClient "A" (Relay.text_input "hi");
                     Relay.Elapse 10]
                    fresh)) = [].
Proof.
  assert (Hw : no_relay_audio fresh) by (intros r; reflexivity).
  exact (proj2 (relay_never_stores_replay_audio
                  [Relay.Connect "A"; Relay.FromClient "A" (Relay.text_input "hi");
                   Relay.Elapse 10]
                  fresh "A" "r1" Hw)).
Defined.

(** Audio that was stored in the relay cache is replayed, base64-encoded, to
    the client that asks for it within 300 s, whoever the active client is. *)
Theorem repeat_last_replays_to_requester
        (client responseId audio : string) (ms : N) (w : World) :
  redis_up (redis w) = true ->
  Z.of_N ms < 300 * 1000 ->
  let w' := later ms (world (TtsRelayCache.set responseId audio w)) in
  VoiceGateway.repeatLast client responseId w'
  = mkOutcome (Ok tt) w'
      [ClientEmit client "audio" (JObj [("audio", JStr (base64_encode (lib w) audio))])].
Proof.
  intros up Hms w'. subst w'. unfold TtsRelayCache.set.
  rewrite redis_set_up by exact up. cbn [world].
  match goal with
  | |- VoiceGateway.repeatLast _ _ ?w1 = _ =>
    assert (Hget : TtsRelayCache.get responseId w1 = mkOutcome (Ok (Some audio)) w1 [])
  end.
  { unfold TtsRelayCache.get, Redis.getBuffer.
    rewrite redis_get_up by reflexivity.
    unfold later. cbn [redis now set_now set_redis]. rewrite live_after_set.
    now destruct (Z.ltb_spec (Z.of_N ms) (300 * 1000)); [|lia]. }
  unfold VoiceGateway.repeatLast. now rewrite (bind_quiet _ _ _ _ _ Hget).
Qed.

Lemma repeat_last_replays_to_requester_witness :
  VoiceGateway.repeatLast "B" "r1"
    (later 299999 (world (TtsRelayCache.set "r1" "mp3-bytes" before_reply)))
  = mkOutcome (Ok tt)
      (later 299999 (world (TtsRelayCache.set "r1" "mp3-bytes" before_reply)))
      [ClientEmit "B" "audio"
         (JObj [("audio", JStr (base64_encode (lib before_reply) "mp3-bytes"))])].
Proof.
  assert (up : redis_up (redis before_reply) = true) by (vm_compute; reflexivity).
  assert (Hms : Z.of_N 299999 < 300 * 1000) by reflexivity.
  exact (repeat_last_replays_to_requester "B" "r1" "mp3-bytes" 299999 before_reply up Hms).
Defined.

(* ===================================================================== *)
(** * Further properties: the handlers while the store is out *)
(* ===================================================================== *)

(** With the store unreachable, [audio_chunk] and [repeat_last] throw
    before they do anything, and [text_input] throws after it has made the
    sender the active client and recorded the query in the in-process map:
    in all three nothing is emitted to the client and nothing goes
    upstream. *)
Theorem store_outage_stops_handlers (w : World) :
  redis_up (redis w) = false ->
  (forall client chunkBase64,
     VoiceGateway.handleAudioChunk client chunkBase64 w
     = mkOutcome (Throw Redis.unavailable) w []) /\
  (forall client responseId,
     VoiceGateway.repeatLast client responseId w
     = mkOutcome (Throw Redis.unavailable) w []) /\
  (forall client text fields,
     record_fields (session_value client w) = Some fields ->
     VoiceGateway.handleTextInput client text w
     = mkOutcome (Throw Redis.unavailable) (query_recorded client text fields w) [] /\
     memory (query_recorded client text fields w) !! client
     = Some (JObj (put "lastQuery" (JStr text) fields))).
Proof.
  intros down. split; [|split].
  - intros client chunkBase64. unfold VoiceGateway.handleAudioChunk.
    rewrite (bind_quiet _ _ w (base64_decode (lib w) chunkBase64) w eq_refl).
    apply bind_thrown. unfold AudioDedupCache.isDuplicate, AudioDedupCache.hash.
    rewrite (bind_quiet _ _ w _ w eq_refl).
    apply bind_thrown. now apply redis_get_down.
  - intros client responseId. unfold VoiceGateway.repeatLast.
    apply bind_thrown. unfold TtsRelayCache.get, Redis.getBuffer.
    now apply redis_get_down.
  - intros client text fields Hrec. split.
    + rewrite (text_input_lookup client text fields w Hrec). cbv zeta.
      unfold parsed_result. now rewrite down.
    + unfold query_recorded. rewrite session_set_total. cbn [world].
      cbn [redis set_active]. rewrite down. cbn [memory set_memory].
      apply lookup_insert_eq.
Qed.

Lemma store_outage_stops_handlers_witness :
  VoiceGateway.handleAudioChunk "A" "AAAA" fresh_without_redis
  = mkOutcome (Throw Redis.unavailable) fresh_without_redis [].
Proof.
  exact (proj1 (store_outage_stops_handlers fresh_without_redis eq_refl) "A" "AAAA").
Defined.

(* ===================================================================== *)
(** * Further properties: the session cache and its fallback map *)
(* ===================================================================== *)

Lemma session_set_world sessionId payload w :
  world (SessionCache.set sessionId payload w)
  = (if redis_up (redis w)
     then set_redis
            (mkRedis true
               (<[SessionCache.key sessionId :=
                    (JSON_stringify payload, now w + 1800 * 1000)]>
                  (redis_data (redis w))))
            (set_memory (<[sessionId := payload]> (memory w)) w)
     else set_memory (<[sessionId := payload]> (memory w)) w).
Proof.
  rewrite session_set_total. cbn [world]. now destruct (redis_up (redis w)).
Qed.

(** A payload set in the session cache is read back while the store is
    unreachable, however long after the [set] and whether or not the store
    took the write: the in-process map answers. *)
Theorem session_cache_survives_outage
        (sessionId : string) (payload : json) (ms : N) (w : World) :
  SessionCache.get sessionId
    (with_store false (later ms (world (SessionCache.set sessionId payload w))))
  = mkOutcome (Ok payload)
      (with_store false (later ms (world (SessionCache.set sessionId payload w)))) [].
Proof.
  rewrite session_get_total. f_equal. f_equal.
  unfold session_value, with_store. cbn [redis set_redis redis_up memory].
  rewrite session_set_world.
  destruct (redis_up (redis w)); cbn; now rewrite lookup_insert_eq.
Qed.

(** A write the store rejected is not repeated: if a session was set while
    the store was reachable and set again while it was not, then, once the
    store is back, [get] returns the older payload until the 1800 s of the
    first write have elapsed, and the newer one, from the map, after that. *)
Theorem failed_write_leaves_stale_session
        (sessionId : string) (older newer : json) (ms : N) (w : World) :
  redis_up (redis w) = true ->
  let w1 := world (SessionCache.set sessionId older w) in
  let w2 := world (SessionCache.set sessionId newer (with_store false w1)) in
  res (SessionCache.get sessionId (later ms (with_store true w2)))
  = Ok (if Z.of_N ms <? 1800 * 1000 then older else newer).
Proof.
  intros up w1 w2. rewrite session_get_total. cbn [res]. f_equal.
  subst w2 w1. rewrite !session_set_world. rewrite up.
  unfold with_store at 2. cbn [redis set_redis set_memory redis_up].
  unfold session_value, with_store, later.
  cbn [redis set_redis set_memory set_now redis_up redis_data memory now].
  rewrite live_after_set, lookup_insert_eq.
  destruct (Z.of_N ms <? 1800 * 1000); [|reflexivity].
  now rewrite JsonFacts.JSON_stringify_nonempty, JsonFacts.JSON_roundtrip.
Qed.

Lemma failed_write_leaves_stale_session_witness :
  res (SessionCache.get "A"
         (later 1000
            (with_store true
               (world (SessionCache.set "A" (JObj [("lastQuery", JStr "new")])
                         (with_store false
                            (world (SessionCache.set "A" (JObj [("lastQuery", JStr "old")])
                                                     fresh))))))))
  = Ok (JObj [("lastQuery", JStr "old")]).
Proof.
  exact (failed_write_leaves_stale_session
           "A" (JObj [("lastQuery", JStr "old")]) (JObj [("lastQuery", JStr "new")])
           1000 fresh eq_refl).
Defined.

(* ===================================================================== *)
(** * Further properties: opening a session *)
(* ===================================================================== *)

Lemma create_session_outcome client w :
  VoiceGateway.handleCreateSession client w
  = mkOutcome (Ok tt) (session_opened client w)
      [ClientEmit client "session_ready"
         (obj [("sessionId", Some (JStr client));
               ("pythonSessionId",
                option_map JStr (match socket w with Some s => socket_id s | None => None end));
               ("status", Some (JStr "ready"))])].
Proof.
  unfold VoiceGateway.handleCreateSession, session_opened.
  rewrite (bind_quiet _ _ w tt (set_active (Some client) w) eq_refl). cbv beta.
  rewrite (bind_quiet (read now) _ (set_active (Some client) w) (now w)
                      (set_active (Some client) w) eq_refl). cbv beta.
  pose proof (session_set_total client (obj [("connectedAt", Some (JNum (now w)))])
                                (set_active (Some client) w)) as Hset.
  rewrite (bind_quiet _ _ _ _ _ Hset). cbv beta.
  change (obj [("connectedAt", Some (JNum (now w)))])
    with (JObj [("connectedAt", JNum (now w))]).
  rewrite session_set_total. cbn [world].
  unfold bind, PythonSocket.pythonSessionId, read, VoiceGateway.client_emit, act.
  destruct w as [n0 e0 l0 [up0 d0] m0 s0 a0 k0 h0]. now destruct up0.
Qed.

Lemma connection_world client w :
  world (VoiceGateway.handleConnection client w) = session_opened client w.
Proof.
  unfold VoiceGateway.handleConnection, session_opened.
  rewrite (bind_quiet _ _ w tt (set_active (Some client) w) eq_refl). cbv beta.
  rewrite (bind_quiet (read now) _ (set_active (Some client) w) (now w)
                      (set_active (Some client) w) eq_refl). cbv beta.
  pose proof (session_set_total client (obj [("connectedAt", Some (JNum (now w)))])
                                (set_active (Some client) w)) as Hset.
  rewrite (bind_quiet _ _ _ _ _ Hset). cbv beta.
  change (obj [("connectedAt", Some (JNum (now w)))])
    with (JObj [("connectedAt", JNum (now w))]).
  rewrite session_set_total. cbn [world].
  rewrite bind_emit. cbn [world].
  unfold bind, PythonSocket.isConnected, PythonSocket.sendNewSession,
    PythonSocket.emit, read, console_error, act, VoiceGateway.client_emit.
  destruct w as [n0 e0 l0 [up0 d0] m0 s0 a0 [[[|] sid]|] h0]; now destruct up0.
Qed.

Lemma session_opened_frame client w :
  activeFrontendClient (session_opened client w) = Some client /\
  sockets (session_opened client w) = sockets w.
Proof.
  unfold session_opened. rewrite session_set_world.
  now destruct (redis_up (redis (set_active (Some client) w))).
Qed.

(** Opening a session, by connecting or by [create_session], makes the
    client the active one and replaces its session record by the instant of
    the call; [create_session] answers with [session_ready], naming the id
    of the link to Python if it has one.  The query recorded before is
    forgotten with the record: a text response that arrives next is emitted
    to the client and not cached. *)
Theorem opening_resets_session_record (client : string) (w : World) :
  world (VoiceGateway.handleConnection client w) = session_opened client w /\
  VoiceGateway.handleCreateSession client w
  = mkOutcome (Ok tt) (session_opened client w)
      [ClientEmit client "session_ready"
         (obj [("sessionId", Some (JStr client));
               ("pythonSessionId",
                option_map JStr (match socket w with Some s => socket_id s | None => None end));
               ("status", Some (JStr "ready"))])] /\
  session_value client (session_opened client w) = JObj [("connectedAt", JNum (now w))] /\
  activeFrontendClient (session_opened client w) = Some client /\
  forall msg r,
    VoiceGateway.is_type msg "TEXT_RESPONSE" = true ->
    response_text msg = Some (JStr r) ->
    In client (sockets w) -> client <> EmptyString ->
    VoiceGateway.handlePythonMessage msg (session_opened client w)
    = mkOutcome (Ok tt) (session_opened client w)
        [ClientEmit client "text_response" (text_response_payload msg (Some (JStr r)));
         ClientEmit client "stream_complete" (stream_complete_payload msg (Some (JStr r)))].
Proof.
  destruct (session_opened_frame client w) as [Ha Hs].
  assert (Hrec : session_value client (session_opened client w)
                 = JObj [("connectedAt", JNum (now w))])
    by apply session_set_get_immediate.
  split; [apply connection_world|]. split; [apply create_session_outcome|].
  split; [exact Hrec|]. split; [exact Ha|].
  intros msg r Htype Htext Hin Hne.
  assert (Hact : active_client (session_opened client w) = Some client).
  { unfold active_client, VoiceGateway.getActiveClient, read. cbn [res].
    rewrite Ha, Hs. apply String.eqb_neq in Hne. rewrite Hne.
    assert (He : existsb (String.eqb client) (sockets w) = true).
    { apply existsb_exists. exists client. split; [exact Hin|apply String.eqb_refl]. }
    now rewrite He. }
  rewrite (text_response_outcome msg r client _ Htype Htext Hact). cbv zeta.
  now rewrite Hrec.
Qed.

Lemma opening_resets_session_record_witness :
  VoiceGateway.handlePythonMessage
    (JObj [("response", JStr "late answer"); ("type", JStr "TEXT_RESPONSE")])
    (session_opened "B" before_reply)
  = mkOutcome (Ok tt) (session_opened "B" before_reply)
      [ClientEmit "B" "text_response"
         (text_response_payload
            (JObj [("response", JStr "late answer"); ("type", JStr "TEXT_RESPONSE")])
            (Some (JStr "late answer")));
       ClientEmit "B" "stream_complete"
         (stream_complete_payload
            (JObj [("response", JStr "late answer"); ("type", JStr "TEXT_RESPONSE")])
            (Some (JStr "late answer")))].
Proof.
  assert (Hin : In "B" (sockets before_reply)) by (vm_compute; auto).
  assert (Hne : "B" <> EmptyString) by discriminate.
  destruct (opening_resets_session_record "B" before_reply) as (_ & _ & _ & _ & H).
  exact (H (JObj [("response", JStr "late answer"); ("type", JStr "TEXT_RESPONSE")])
           "late answer" eq_refl eq_refl Hin Hne).
Defined.

(* ===================================================================== *)
(** * Further properties: what goes upstream *)
(* ===================================================================== *)

Lemma upstream_app l1 l2 : upstream (l1 ++ l2) = upstream l1 ++ upstream l2.
Proof. apply flat_map_app. Qed.

Lemma upstream_after_synthesis client w reply :
  upstream (after_synthesis client w reply) = [].
Proof. now destruct reply as [e|[chunks|]]. Qed.

Lemma text_input_upstream client text fields w :
  record_fields (session_value client w) = Some fields ->
  upstream (out (VoiceGateway.handleTextInput client text w))
  = match parsed_result (ExactResponseCache.key "en" text) w with
    | Ok cached =>
      if truthy cached then []
      else if link_up w
           then [("text_query", JObj [("text", JStr text); ("message", JStr text)])]
           else []
    | Throw _ => []
    end.
Proof.
  intros Hrec. rewrite (text_input_lookup client text fields w Hrec). cbv zeta.
  destruct (parsed_result (ExactResponseCache.key "en" text) w) as [cached|e];
    [|reflexivity].
  destruct (truthy cached); cbn [out].
  - rewrite upstream_app, upstream_after_synthesis. reflexivity.
  - now destruct (link_up w).
Qed.

Ltac by_link w :=
  unfold_gateway; unfold bind, read, modify, act, ret; cbn [res world out];
  destruct w as [n0 e0 l0 r0 m0 s0 a0 [[[|] sid]|] h0]; reflexivity.

(** Apart from [audio_chunk], which names its session, nothing a client
    message sends upstream depends on the client that sent it: the events
    and payloads that go to Python are the same for any two clients (for
    [text_input], any two whose session records are objects or absent).
    The upstream is never told on whose behalf it is asked. *)
Theorem upstream_requests_are_anonymous
        (c1 c2 : string) (m : Relay.ClientMessage) (w : World) :
  (forall chunkBase64, m <> Relay.audio_chunk chunkBase64) ->
  (forall text, m = Relay.text_input text ->
     record_fields (session_value c1 w) <> None /\
     record_fields (session_value c2 w) <> None) ->
  upstream (out (Relay.subscribed c1 m w)) = upstream (out (Relay.subscribed c2 m w)).
Proof.
  intros Hchunk Hrec.
  destruct m as [text|text|audio format|chunk|text| |voiceId| |responseId];
    cbn [Relay.subscribed].
  - destruct (Hrec text eq_refl) as [H1 H2].
    destruct (record_fields (session_value c1 w)) as [f1|] eqn:E1; [|congruence].
    destruct (record_fields (session_value c2 w)) as [f2|] eqn:E2; [|congruence].
    now rewrite (text_input_upstream c1 text f1 w E1), (text_input_upstream c2 text f2 w E2).
  - by_link w.
  - by_link w.
  - now destruct (Hchunk chunk).
  - by_link w.
  - now rewrite !create_session_outcome.
  - by_link w.
  - by_link w.
  - unfold VoiceGateway.repeatLast, TtsRelayCache.get, Redis.getBuffer, Redis.get,
      bind, read, VoiceGateway.client_emit, act, ret.
    destruct (redis_up (redis w)); cbn [res world out]; [|reflexivity].
    now destruct (Redis.live (redis w) (now w) (TtsRelayCache.key responseId)).
Qed.

Lemma upstream_requests_are_anonymous_witness :
  upstream (out (Relay.subscribed "A" (Relay.text_input "again") before_reply))
  = upstream (out (Relay.subscribed "B" (Relay.text_input "again") before_reply)).
Proof.
  assert (Hchunk : forall chunkBase64,
             Relay.text_input "again" <> Relay.audio_chunk chunkBase64)
    by (intros chunkBase64; discriminate).
  assert (Hrec : forall text, Relay.text_input "again" = Relay.text_input text ->
             record_fields (session_value "A" before_reply) <> None /\
             record_fields (session_value "B" before_reply) <> None)
    by (intros text _; split; vm_compute; discriminate).
  exact (upstream_requests_are_anonymous "A" "B" (Relay.text_input "again") before_reply
                                         Hchunk Hrec).
Defined.

(* ===================================================================== *)
(** * Further properties: after the Python socket is destroyed *)
(* ===================================================================== *)

Lemma react_keeps_no_socket e w :
  socket w = None -> socket (world (Relay.react e w)) = None.
Proof.
  intros Hs.
  destruct e as [client|client|client m|event data|sid|up|ms]; cbn [Relay.react].
  - enough (H : preserves socket
                  (modify (fun w => if Relay.is_connected_client client w then w
                                    else set_sockets (sockets w ++ [client]) w) ;;
                   VoiceGateway.handleConnection client)%js)
      by now rewrite H.
    apply preserves_bind.
    + apply preserves_modify. intros w0.
      now destruct (Relay.is_connected_client client w0).
    + intros _. unfold_gateway. repeat frame_step.
  - enough (H : preserves socket (Relay.react (Relay.Disconnect client)))
      by (cbn [Relay.react] in H; now rewrite H).
    cbn [Relay.react]. unfold_gateway. repeat frame_step.
  - enough (H : preserves socket (Relay.react (Relay.FromClient client m)))
      by (cbn [Relay.react] in H; now rewrite H).
    cbn [Relay.react].
    apply preserves_bind; [apply preserves_read|]. intros [|]; [|apply preserves_ret].
    destruct m; cbn [Relay.subscribed]; unfold_gateway; repeat frame_step.
  - enough (H : preserves socket (Relay.react (Relay.FromPython event data)))
      by (cbn [Relay.react] in H; now rewrite H).
    cbn [Relay.react].
    apply preserves_bind; [apply preserves_read|]. intros [|]; [|apply preserves_ret].
    apply on_keeps. intros msg. now apply python_handler_keeps.
  - unfold modify. cbn [world]. now rewrite Hs.
  - exact Hs.
  - exact Hs.
Qed.

(** Once [onModuleDestroy] has run, the relay sends nothing upstream any
    more, whatever happens next: the socket is forgotten, no event brings
    the link back, and every send is dropped. *)
Theorem destroyed_socket_stays_silent (tr : list Relay.Event) (w : World) :
  Forall (fun entry => Forall not_upstream (snd entry))
         (Relay.run_log tr (world (PythonSocket.onModuleDestroy w))) /\
  link_up (Relay.run tr (world (PythonSocket.onModuleDestroy w))) = false.
Proof.
  assert (H0 : socket (world (PythonSocket.onModuleDestroy w)) = None) by reflexivity.
  revert H0. generalize (world (PythonSocket.onModuleDestroy w)). clear w.
  induction tr as [|e tr IH]; intros w Hs.
  - split; [constructor|]. unfold link_up. cbn [Relay.run]. now rewrite Hs.
  - assert (Hnext : socket (fst (Relay.step e w)) = None)
      by (unfold Relay.step; cbn [fst]; now apply react_keeps_no_socket).
    destruct (IH _ Hnext) as [Hlog Hlink]. split; [|exact Hlink].
    cbn [Relay.run_log]. constructor; [|exact Hlog].
    cbn [snd]. apply step_while_down. unfold link_up. now rewrite Hs.
Qed.

(* ===================================================================== *)
(** * Further properties: the events the gateway repacks *)
(* ===================================================================== *)

Lemma typed_field t k data :
  k <> "type" -> named k = true ->
  get_field k (JObj (put "type" (JStr t) (spread data))) = get_field k data.
Proof.
  intros Hk Hn. cbn [get_field]. now rewrite assoc_put_ne, get_field_spread.
Qed.

Lemma python_event_step event t data w :
  PythonSocket.listener PythonSocket.forwarded event = Some t ->
  String.eqb event "text_response" = false ->
  link_up w = true ->
  messageHandler w = true ->
  Relay.step (Relay.FromPython event data) w
  = let o := VoiceGateway.handlePythonMessage (JObj (put "type" (JStr t) (spread data))) w in
    (world o,
     out o ++ match res o with
              | Ok _ => []
              | Throw err =>
                [LogError (String.append "Error in Python message handler: " (message err))]
              end).
Proof.
  intros Hl Hne Hup Hreg. rewrite (from_python_step event data w Hup).
  unfold PythonSocket.on. rewrite Hne, Hl.
  unfold obj_build. cbn [fold_left fst snd].
  rewrite (dispatch_registered _ _ w Hreg). cbv zeta.
  cbn [res world out]. now rewrite app_nil_r.
Qed.

Ltac enter_handler w :=
  unfold VoiceGateway.handlePythonMessage; unfold bind at 1;
  unfold VoiceGateway.getActiveClient; unfold read;
  cbn [res world out app];
  change (match activeFrontendClient w with
          | Some a =>
            if String.eqb a EmptyString then None
            else if existsb (String.eqb a) (sockets w) then Some a else None
          | None => None
          end) with (active_client w);
  rewrite !is_type_put; cbn [String.eqb Ascii.eqb Bool.eqb andb].

Lemma handler_repacks_audio data c w :
  active_client w = Some c ->
  VoiceGateway.handlePythonMessage (JObj (put "type" (JStr "AUDIO_CHUNK") (spread data))) w
  = mkOutcome (Ok tt) w [ClientEmit c "audio_chunk" (audio_chunk_payload data)].
Proof.
  intros Hact. enter_handler w. rewrite Hact.
  rewrite !typed_field by (discriminate || reflexivity). reflexivity.
Qed.

Lemma handler_repacks_error data c w :
  active_client w = Some c ->
  VoiceGateway.handlePythonMessage (JObj (put "type" (JStr "ERROR") (spread data))) w
  = mkOutcome (Ok tt) w
      [LogError (error_logged data); ClientEmit c "error" (error_payload data)].
Proof.
  intros Hact. enter_handler w. rewrite Hact.
  rewrite !typed_field by (discriminate || reflexivity). reflexivity.
Qed.

Lemma handler_repacks_status data c w :
  active_client w = Some c ->
  VoiceGateway.handlePythonMessage (JObj (put "type" (JStr "STATUS") (spread data))) w
  = mkOutcome (Ok tt) w
      (ClientEmit c "status" (JObj (put "type" (JStr "STATUS") (spread data)))
       :: if truthy_opt (get_field "session_id" data)
          then [ClientEmit c "session_ready"
                  (obj [("sessionId", Some (JStr c));
                        ("pythonSessionId", get_field "session_id" data);
                        ("status", Some (JStr "ready"))])]
          else []).
Proof.
  intros Hact. enter_handler w. rewrite Hact.
  rewrite !typed_field by (discriminate || reflexivity).
  unfold bind, VoiceGateway.client_emit, act, ret. cbn [res world out].
  now destruct (truthy_opt (get_field "session_id" data)).
Qed.

(** Three events of Python reach the active client repacked.  An audio
    chunk keeps [data], [chunk_id], [format] (mp3 if absent) and [cached],
    and nothing else of its payload.  [error] and [error_response] both
    become [error] with the message, or else the error, of the payload, and
    are logged.  [status] is handed on with what a spread copies of its
    payload (the fields of an object, the indexed elements of an array or
    of a string) under the type [STATUS], and followed by [session_ready]
    when it carries a session id. *)
Theorem python_events_are_repacked (data : json) (c : string) (w : World) :
  link_up w = true ->
  messageHandler w = true ->
  active_client w = Some c ->
  Relay.step (Relay.FromPython "audio_chunk" data) w
  = (w, [ClientEmit c "audio_chunk" (audio_chunk_payload data)]) /\
  (forall event,
     In event ["error"; "error_response"] ->
     Relay.step (Relay.FromPython event data) w
     = (w, [LogError (error_logged data); ClientEmit c "error" (error_payload data)])) /\
  Relay.step (Relay.FromPython "status" data) w
  = (w, ClientEmit c "status" (JObj (put "type" (JStr "STATUS") (spread data)))
        :: if truthy_opt (get_field "session_id" data)
           then [ClientEmit c "session_ready"
                   (obj [("sessionId", Some (JStr c));
                         ("pythonSessionId", get_field "session_id" data);
                         ("status", Some (JStr "ready"))])]
           else []).
Proof.
  intros Hup Hreg Hact. split; [|split].
  - rewrite (python_event_step "audio_chunk" "AUDIO_CHUNK" data w eq_refl eq_refl Hup Hreg).
    cbv zeta. rewrite (handler_repacks_audio data c w Hact). reflexivity.
  - intros event Hin.
    assert (Hev : Relay.step (Relay.FromPython event data) w
                  = let o := VoiceGateway.handlePythonMessage
                               (JObj (put "type" (JStr "ERROR") (spread data))) w in
                    (world o,
                     out o ++ match res o with
                              | Ok _ => []
                              | Throw err =>
                                [LogError (String.append "Error in Python message handler: "
                                                         (message err))]
                              end)).
    { destruct Hin as [<-|[<-|[]]]; now apply python_event_step. }
    rewrite Hev. cbv zeta. rewrite (handler_repacks_error data c w Hact). reflexivity.
  - rewrite (python_event_step "status" "STATUS" data w eq_refl eq_refl Hup Hreg).
    cbv zeta. rewrite (handler_repacks_status data c w Hact). cbn [res world out].
    now rewrite app_nil_r.
Qed.

Lemma python_events_are_repacked_witness :
  Relay.step (Relay.FromPython "audio_chunk"
                (JObj [("data", JStr "UklGRg=="); ("chunk_id", JNum 7);
                       ("sentence", JStr "dropped")]))
             before_reply
  = (before_reply,
     [ClientEmit "B" "audio_chunk"
        (JObj [("data", JStr "UklGRg=="); ("chunk_id", JNum 7); ("format", JStr "mp3")])]) /\
  Relay.step (Relay.FromPython "status" (JStr "ab")) before_reply
  = (before_reply,
     [ClientEmit "B" "status"
        (JObj [("0", JStr "a"); ("1", JStr "b"); ("type", JStr "STATUS")])]).
Proof.
  assert (Hup : link_up before_reply = true) by (vm_compute; reflexivity).
  assert (Hreg : messageHandler before_reply = true) by (vm_compute; reflexivity).
  assert (Hact : active_client before_reply = Some "B") by (vm_compute; reflexivity).
  split.
  - exact (proj1 (python_events_are_repacked
                    (JObj [("data", JStr "UklGRg=="); ("chunk_id", JNum 7);
                           ("sentence", JStr "dropped")])
                    "B" before_reply Hup Hreg Hact)).
  - exact (proj2 (proj2 (python_events_are_repacked
                           (JStr "ab") "B" before_reply Hup Hreg Hact))).
Defined.

(* ===================================================================== *)
(** * Further properties: what the client is told while the link is down *)
(* ===================================================================== *)

Ltac by_down w Hdown :=
  unfold link_up in Hdown;
  unfold_gateway; unfold bind, read, modify, act, ret; cbn [res world out];
  destruct w as [n0 e0 l0 r0 m0 s0 a0 [[[|] sid]|] h0];
  cbn [socket connected] in Hdown; first [discriminate Hdown | reflexivity].

(** While the link to Python is down, every forwarding handler still makes
    the sender the active client and returns normally, but only
    [text_only_input] and [voice_input] tell the client, with an [error]
    event; [interim_speech], [change_voice] and [get_voices] are dropped
    with a log entry and the client hears nothing. *)
Theorem link_down_feedback (client : string) (w : World) :
  link_up w = false ->
  let refused :=
      mkOutcome (Ok tt) (set_active (Some client) w)
        [ClientEmit client "error" (JObj [("message", JStr "AI service not available")])] in
  let dropped event :=
      mkOutcome (Ok tt) (set_active (Some client) w)
        [LogError (String.append "Cannot emit '"
                                 (String.append event "' - not connected to Python"))] in
  (forall text, VoiceGateway.handleTextOnlyInput client text w = refused) /\
  (forall audio format, VoiceGateway.handleVoiceInput client audio format w = refused) /\
  (forall text, VoiceGateway.handleInterimSpeech client text w = dropped "interim_speech") /\
  (forall voiceId, VoiceGateway.handleChangeVoice client voiceId w = dropped "change_voice") /\
  VoiceGateway.handleGetVoices client w = dropped "get_voices".
Proof.
  intros Hdown refused dropped. subst refused dropped.
  repeat split; intros; by_down w Hdown.
Qed.

Lemma link_down_feedback_witness :
  VoiceGateway.handleInterimSpeech "A" "hel" (Relay.run [Relay.Connect "A"] fresh)
  = mkOutcome (Ok tt) (set_active (Some "A") (Relay.run [Relay.Connect "A"] fresh))
      [LogError "Cannot emit 'interim_speech' - not connected to Python"].
Proof.
  assert (Hdown : link_up (Relay.run [Relay.Connect "A"] fresh) = false)
    by (vm_compute; reflexivity).
  destruct (link_down_feedback "A" (Relay.run [Relay.Connect "A"] fresh) Hdown)
    as (_ & _ & H & _).
  exact (H "hel").
Defined.
